(** * isolated-vm: cross-isolate references and shareable persistents

    A shallow embedding of [src/reference_handle.cc] and
    [src/shareable_persistent.h].

    C++ objects that JavaScript can hold more than once (instances of the
    classes [Reference] and [Dereference], the [shared_ptr<bool>] completion
    flag) live in stores of the [World] and are named by their index, so that
    two uses of the same object see each other's mutations.  Every call into
    V8 that reads or writes an isolate's heap is answered by an [Engine], which
    sees the calls made so far, and is recorded in the world's [trace], as is
    every store to a completion flag.
    A C++ exception is the [Throw] outcome of the monad [M]; the state reached
    when it was thrown is kept, as in C++. *)

From Stdlib Require Import ZArith String List Bool Lia.
From stdpp Require Import base numbers strings option list.
Import ListNotations.
Local Open Scope string_scope.

(** ** Pointers, values, errors *)

(** [shared_ptr<IsolateHolder>] values are compared by the holder they point
    to; a holder and a context are named by a number. *)
Definition IsolateHolder := nat.
Definition Context := nat.

Abbreviation shared_ptr := option (only parsing).
Abbreviation unique_ptr := option (only parsing).
Abbreviation RemoteHandle := option (only parsing).
Abbreviation MaybeLocal := option (only parsing).
Abbreviation Maybe := option (only parsing).

(** [v8::Local<v8::Value>].  Heap objects carry their identity; numbers are
    the integers among the doubles.  Symbols and bigints are left out; what
    is proved of a whole kind of values is stated through the tests the code
    makes ([IsNull], [IsFunction], ...), not through these constructors. *)
Inductive Value :=
| VNull
| VUndefined
| VNumber (n : Z)
| VString (s : string)
| VBoolean (b : bool)
| VFunction (f : nat)
| VPromise (p : nat)
| VObject (o : nat)
| VReference (r : nat)
| VDereference (d : nat).

#[global] Instance Value_eq_dec : EqDecision Value.
Proof. solve_decision. Defined.

Definition Value_eqb (a b : Value) : bool := bool_decide (a = b).

Definition IsNull (v : Value) : bool := if v is VNull then true else false.
Definition IsUndefined (v : Value) : bool := if v is VUndefined then true else false.
Definition IsNumber (v : Value) : bool := if v is VNumber _ then true else false.
Definition IsString (v : Value) : bool := if v is VString _ then true else false.
Definition IsBoolean (v : Value) : bool := if v is VBoolean _ then true else false.
Definition IsFunction (v : Value) : bool := if v is VFunction _ then true else false.
Definition IsPromise (v : Value) : bool := if v is VPromise _ then true else false.

Definition IsObject (v : Value) : bool :=
  match v with
  | VFunction _ | VPromise _ | VObject _ | VReference _ | VDereference _ => true
  | _ => false
  end.

Definition IsUint32 (v : Value) : bool :=
  match v with
  | VNumber n => (0 <=? n)%Z && (n <? 2 ^ 32)%Z
  | _ => false
  end.

Definition IsPrimitive (v : Value) : bool :=
  match v with
  | VNull | VUndefined | VNumber _ | VString _ | VBoolean _ => true
  | _ => false
  end.

(** [v8::Value::ToBoolean]. *)
Definition ToBoolean (v : Value) : bool :=
  match v with
  | VNull | VUndefined => false
  | VNumber n => negb (n =? 0)%Z
  | VString s => negb (String.eqb s "")
  | VBoolean b => b
  | _ => true
  end.

(** The exceptions of the code: [js_type_error], [js_generic_error] and
    [js_runtime_error] (thrown when V8 already holds, or should hold, a pending
    exception).  The last two are no exceptions: they are where the C++ leaves
    the behaviour undefined and the process may die.  [null_dereference]
    stands for dereferencing an empty smart pointer or handle, and
    [unchecked_cast] for a call that needs an object made on a handle that
    [Local<Object>::Cast], which checks nothing, took from a value that is
    none. *)
Inductive js_error :=
| js_type_error (message : string)
| js_generic_error (message : string)
| js_runtime_error
| null_dereference
| unchecked_cast.

#[global] Instance js_error_eq_dec : EqDecision js_error.
Proof. solve_decision. Defined.

Inductive result (A : Type) :=
| Ok (a : A)
| Throw (e : js_error).
Arguments Ok {A} a.
Arguments Throw {A} e.

(** ** Reference data, capsules *)

Module TypeOf.
Inductive t := Null | Undefined | Number | String | Boolean | Object | Function.
End TypeOf.

Definition InferTypeOf (value : Value) : TypeOf.t :=
  if IsNull value then TypeOf.Null
  else if IsUndefined value then TypeOf.Undefined
  else if IsNumber value then TypeOf.Number
  else if IsString value then TypeOf.String
  else if IsBoolean value then TypeOf.Boolean
  else if IsFunction value then TypeOf.Function
  else TypeOf.Object.

(** [detail::ReferenceData], the fields of a [ReferenceHandle]. *)
Module ReferenceData.
Record t := {
  isolate : shared_ptr IsolateHolder;
  reference : RemoteHandle Value;
  context : RemoteHandle Context;
  type_of : TypeOf.t;
}.
End ReferenceData.

(** The private fields of a [DereferenceHandle]. *)
Module DereferenceData.
Record t := {
  isolate : shared_ptr IsolateHolder;
  reference : RemoteHandle Value;
}.
End DereferenceData.

(** What an [ExternalCopy] holds: a primitive, an error, or the codec's
    serialized form of an object. *)
Inductive ExternalCopy :=
| ExternalCopyPrimitive (v : Value)
| ExternalCopyError (message : string)
| ExternalCopySerialized (blob : nat).

(** The implementations of the [Transferable] interface. *)
Inductive Transferable :=
| DereferenceHandleTransferable (isolate : shared_ptr IsolateHolder) (reference : RemoteHandle Value)
| ReferenceHandleTransferable (data : ReferenceData.t)
| ExternalCopyTransferable (copy : ExternalCopy).

(** Modelled from the spec: [Transferable::Options] (transferable.h is not
    among the sources).  "Options select: copy (deep value copy, no
    ownership), reference (wrap as a Reference)"; the second constructor
    argument seen in the source is the type used when the options select
    none. *)
Module Options.
Inductive Type_ := None_ | Copy | Reference.
Record t := { type : Type_; fallback : Type_ }.
Definition default : t := {| type := None_; fallback := None_ |}.

#[global] Instance Type_eq_dec : EqDecision Type_.
Proof. solve_decision. Defined.
#[global] Instance eq_dec : EqDecision t.
Proof. solve_decision. Defined.

Definition eqb (a b : t) : bool := bool_decide (a = b).
End Options.

(** ** The world *)

Inductive Event :=
| EvGet (object key : Value) (r : Maybe Value)
| EvDelete (object key : Value) (r : Maybe bool)
| EvSet (object key value : Value) (r : Maybe bool)
| EvGetOwnPropertyNames (object : Value) (r : Maybe (list Value))
| EvCall (timeout : Z) (fn recv : Value) (argv : list Value) (r : result Value)
| EvThen (promise : Value) (did_finish : nat)
| EvThrowException (exception : Value)
| EvWake (wait : nat)
| EvStoreFlag (did_finish : nat) (b : bool).

Record World := {
  current : IsolateHolder;
  current_context : Context;
  references : list ReferenceData.t;
  dereferences : list DereferenceData.t;
  flags : list bool;
  trace : list Event;
}.

Definition set_current (i : IsolateHolder) (c : Context) (w : World) : World :=
  {| current := i; current_context := c; references := references w;
     dereferences := dereferences w; flags := flags w; trace := trace w |}.

Definition set_references (rs : list ReferenceData.t) (w : World) : World :=
  {| current := current w; current_context := current_context w; references := rs;
     dereferences := dereferences w; flags := flags w; trace := trace w |}.

Definition set_dereferences (ds : list DereferenceData.t) (w : World) : World :=
  {| current := current w; current_context := current_context w; references := references w;
     dereferences := ds; flags := flags w; trace := trace w |}.

Definition set_flags (fs : list bool) (w : World) : World :=
  {| current := current w; current_context := current_context w; references := references w;
     dereferences := dereferences w; flags := fs; trace := trace w |}.

Definition log (e : Event) (w : World) : World :=
  {| current := current w; current_context := current_context w; references := references w;
     dereferences := dereferences w; flags := flags w; trace := trace w ++ [e] |}.

(** The V8 heap, the isolates' default contexts and the value codec
    (external_copy.cc), none of which is part of the sources: each answer may
    depend on the calls made so far. *)
Class Engine := {
  Object_Get : list Event -> Value -> Value -> Maybe Value;
  Object_Delete : list Event -> Value -> Value -> Maybe bool;
  Object_Set : list Event -> Value -> Value -> Value -> Maybe bool;
  Object_GetOwnPropertyNames : list Event -> Value -> Maybe (list Value);
  Value_ToArrayIndex : Value -> Maybe nat;
  RunWithTimeout_Call : list Event -> Z -> Value -> Value -> list Value -> result Value;
  DefaultContext : IsolateHolder -> Context;
  ExternalCopy_Copy : list Event -> Value -> result ExternalCopy;
  ExternalCopy_CopyIfError : list Event -> Value -> unique_ptr ExternalCopy;
  ExternalCopy_CopyInto : list Event -> ExternalCopy -> Value;
  RunCatchExternal_error : list Event -> js_error -> ExternalCopy;
}.

(** ** The monad of the embedding: state and exceptions *)

(** A computation over a state [S] that returns or throws. *)
Definition StateErr (S A : Type) : Type := S -> result A * S.

Definition pure {S A} (a : A) : StateErr S A := fun w => (Ok a, w).
Definition throw {S A} (e : js_error) : StateErr S A := fun w => (Throw e, w).
Definition bind {S A B} (m : StateErr S A) (k : A -> StateErr S B) : StateErr S B :=
  fun w => match m w with
           | (Ok a, w') => k a w'
           | (Throw e, w') => (Throw e, w')
           end.

Declare Scope M_scope.
Delimit Scope M_scope with M.
Notation "'do' x <- m ;; k" := (bind m (fun x => k))
  (at level 10, x name, m at level 99, k at level 200) : M_scope.
Notation "'run' m ;; k" := (bind m (fun _ => k))
  (at level 10, m at level 99, k at level 200) : M_scope.
Local Open Scope M_scope.

Definition modify {S} (f : S -> S) : StateErr S unit := fun w => (Ok tt, f w).
Definition when {S} (b : bool) (m : StateErr S unit) : StateErr S unit :=
  if b then m else pure tt.

(** Dereferencing a smart pointer or a handle. *)
Definition deref_ptr {S A} (p : option A) : StateErr S A :=
  match p with
  | Some a => pure a
  | None => throw null_dereference
  end.

Definition M : Type -> Type := StateErr World.

(** [Unmaybe]: unwraps a [Maybe]; an empty one means V8 has an exception
    pending, and [js_runtime_error] is thrown ([Phase3] throws that class
    right after [ThrowException]). *)
Definition Unmaybe {A} (handle : Maybe A) : M A :=
  match handle with
  | Some local => pure local
  | None => throw js_runtime_error
  end.

Definition GetCurrentHolder : M IsolateHolder := fun w => (Ok (current w), w).
Definition GetCurrentContext : M Context := fun w => (Ok (current_context w), w).

(** [ivm::Deref(handle)]: the live value a persistent handle names. *)
Definition ivm_Deref {A} (handle : RemoteHandle A) : M A := deref_ptr handle.

Definition v8_string (s : string) : Value := VString s.

(** [Context::Scope context_scope{context_handle}] around [body]. *)
Definition Context_Scope {A} (context_handle : Context) (body : M A) : M A := fun w =>
  let outer := current_context w in
  let (r, w') := body (set_current (current w) context_handle w) in
  (r, set_current (current w') outer w').

(** ** Calls into V8, answered by the engine and recorded in the trace *)

Definition Get `{Engine} (object key : Value) : M Value := fun w =>
  let r := Object_Get (trace w) object key in
  Unmaybe r (log (EvGet object key r) w).

(** [object->Delete(context, key)], where [object] comes out of
    [Local<Object>::Cast].  V8 takes the receiver for a heap object without
    looking: on a value that is no object the call is undefined, and the model
    stops there, before the engine is asked anything.  ([Get] looks the
    property up on any value, and [SetRunner] reaches [Set] only past this
    call.) *)
Definition Delete `{Engine} (object key : Value) : M bool := fun w =>
  if IsObject object then
    let r := Object_Delete (trace w) object key in
    Unmaybe r (log (EvDelete object key r) w)
  else (Throw unchecked_cast, w).

Definition Set_ `{Engine} (object key value : Value) : M bool := fun w =>
  let r := Object_Set (trace w) object key value in
  Unmaybe r (log (EvSet object key value r) w).

Definition GetOwnPropertyNames `{Engine} (object : Value) : M (list Value) := fun w =>
  let r := Object_GetOwnPropertyNames (trace w) object in
  Unmaybe r (log (EvGetOwnPropertyNames object r) w).

Definition ToArrayIndex `{Engine} (key : Value) : Maybe nat := Value_ToArrayIndex key.

(** [RunWithTimeout(timeout, [&]() { return fn->Call(context, recv, argc, argv); })]. *)
Definition RunWithTimeout `{Engine} (timeout : Z) (fn recv : Value) (argv : list Value) : M Value := fun w =>
  let r := RunWithTimeout_Call (trace w) timeout fn recv argv in
  (r, log (EvCall timeout fn recv argv r) w).

Definition ThrowException (exception : Value) : M unit :=
  modify (log (EvThrowException exception)).

(** Modelled from the spec: [IsOptionSet] ("`options.release` (boolean): if
    set"); the helper is not among the sources. *)
Definition IsOptionSet `{Engine} (options : Value) (key : string) : M bool :=
  do v <- Get options (v8_string key);;
  pure (ToBoolean v).

(** [FunctorRunners::RunCatchExternal(context, fn1, fn2)]: runs [fn1]; what it
    throws is handed to [fn2] as an external copy. *)
Definition RunCatchExternal `{Engine} {A} (fn1 : M A) (fn2 : ExternalCopy -> M A) : M A := fun w =>
  match fn1 w with
  | (Ok a, w') => (Ok a, w')
  | (Throw e, w') => fn2 (RunCatchExternal_error (trace w') e) w'
  end.

(** ** The codec *)

Module ExternalCopy.
(** Modelled from the spec: "copy only if primitive". *)
Definition CopyIfPrimitive (value : Value) : unique_ptr ExternalCopy :=
  if IsPrimitive value then Some (ExternalCopyPrimitive value) else None.

(** Modelled from the spec: "copy only if primitive / primitive-or-error-shaped". *)
Definition CopyIfPrimitiveOrError `{Engine} (value : Value) : M (unique_ptr ExternalCopy) :=
  match CopyIfPrimitive value with
  | Some c => pure (Some c)
  | None => fun w => (Ok (ExternalCopy_CopyIfError (trace w) value), w)
  end.

Definition Copy `{Engine} (value : Value) : M ExternalCopy :=
  match CopyIfPrimitive value with
  | Some c => pure c
  | None => fun w => (ExternalCopy_Copy (trace w) value, w)
  end.

Definition CopyInto `{Engine} (copy : ExternalCopy) : M Value :=
  match copy with
  | ExternalCopyPrimitive v => pure v
  | _ => fun w => (Ok (ExternalCopy_CopyInto (trace w) copy), w)
  end.
End ExternalCopy.

(** ** The return value of [derefInto()] *)

Module DereferenceHandleTransferable.
Definition TransferIn (isolate : shared_ptr IsolateHolder) (reference : RemoteHandle Value) : M Value :=
  do cur <- GetCurrentHolder;;
  if bool_decide (isolate = Some cur) then
    ivm_Deref reference
  else
    throw (js_type_error "Cannot dereference this into target isolate").
End DereferenceHandleTransferable.

Module DereferenceHandle.
Definition load (this : nat) : M DereferenceData.t := fun w =>
  deref_ptr (dereferences w !! this) w.

Definition store (this : nat) (self : DereferenceData.t) : M unit :=
  modify (fun w => set_dereferences (<[this := self]> (dereferences w)) w).

(** [ClassHandle::NewInstance<DereferenceHandle>(isolate, reference)]. *)
Definition NewInstance (isolate : shared_ptr IsolateHolder) (reference : RemoteHandle Value) : M Value := fun w =>
  (Ok (VDereference (length (dereferences w))),
   set_dereferences
     (dereferences w ++ [{| DereferenceData.isolate := isolate; DereferenceData.reference := reference |}]) w).

(** Both fields are moved into the capsule, which leaves them empty. *)
Definition TransferOut (this : nat) : M Transferable :=
  do self <- load this;;
  if DereferenceData.reference self is None then
    throw (js_generic_error "The return value of `derefInto()` should only be used once")
  else
    run store this {| DereferenceData.isolate := None; DereferenceData.reference := None |};;
    pure (DereferenceHandleTransferable (DereferenceData.isolate self) (DereferenceData.reference self)).
End DereferenceHandle.

(** ** [ReferenceHandle]: the methods that are not three-phase tasks *)

(** [ReferenceData::ReferenceData(Local<Value> value)]. *)
Definition ReferenceData_ctor (value : Value) : M ReferenceData.t :=
  do cur <- GetCurrentHolder;;
  do ctx <- GetCurrentContext;;
  pure {| ReferenceData.isolate := Some cur; ReferenceData.reference := Some value;
          ReferenceData.context := Some ctx; ReferenceData.type_of := InferTypeOf value |}.

Module ReferenceHandle.
Import ReferenceData.

Definition load (this : nat) : M ReferenceData.t := fun w =>
  deref_ptr (references w !! this) w.

Definition store (this : nat) (self : ReferenceData.t) : M unit :=
  modify (fun w => set_references (<[this := self]> (references w)) w).

(** [ClassHandle::NewInstance<ReferenceHandle>(data)]. *)
Definition NewInstance (data : ReferenceData.t) : M Value := fun w =>
  (Ok (VReference (length (references w))), set_references (references w ++ [data]) w).

Definition New (value : Value) : M Value :=
  do data <- ReferenceData_ctor value;;
  NewInstance data.

Definition TransferOut (this : nat) : M Transferable :=
  do self <- load this;;
  pure (ReferenceHandleTransferable self).

Definition CheckDisposed (this : nat) : M unit :=
  do self <- load this;;
  if reference self is None then
    throw (js_generic_error "Reference has been released")
  else pure tt.

Definition TypeOfGetter (this : nat) : M Value :=
  run CheckDisposed this;;
  do self <- load this;;
  match type_of self with
  | TypeOf.Null => pure (v8_string "null")
  | TypeOf.Undefined => pure (v8_string "undefined")
  | TypeOf.Number => pure (v8_string "number")
  | TypeOf.String => pure (v8_string "string")
  | TypeOf.Boolean => pure (v8_string "boolean")
  | TypeOf.Object => pure (v8_string "object")
  | TypeOf.Function => pure (v8_string "function")
  end.

Definition Release (this : nat) : M Value :=
  run CheckDisposed this;;
  do self <- load this;;
  run store this {| isolate := None; reference := None; context := None;
                    type_of := type_of self |};;
  pure VUndefined.

Definition Deref `{Engine} (this : nat) (maybe_options : MaybeLocal Value) : M Value :=
  run CheckDisposed this;;
  do self <- load this;;
  do cur <- GetCurrentHolder;;
  if negb (bool_decide (isolate self = Some cur)) then
    throw (js_type_error "Cannot dereference this from current isolate")
  else
    do release <- match maybe_options with
                  | Some options => IsOptionSet options "release"
                  | None => pure false
                  end;;
    do self <- load this;;
    do ret <- ivm_Deref (reference self);;
    run when release (run Release this;; pure tt);;
    pure ret.

Definition DerefInto `{Engine} (this : nat) (maybe_options : MaybeLocal Value) : M Value :=
  run CheckDisposed this;;
  do release <- match maybe_options with
                | Some options => IsOptionSet options "release"
                | None => pure false
                end;;
  do self <- load this;;
  do ret <- DereferenceHandle.NewInstance (isolate self) (reference self);;
  run when release (run Release this;; pure tt);;
  pure ret.
End ReferenceHandle.

(** [NewInstance<ReferenceHandle>] is given the capsule itself, moved: the new
    instance takes the fields.  The capsule is a value here and keeps them; the
    code transfers a capsule in once. *)
Module ReferenceHandleTransferable.
Definition TransferIn (data : ReferenceData.t) : M Value := ReferenceHandle.NewInstance data.
End ReferenceHandleTransferable.

(** ** The value transfer protocol *)

Module Transferable.
(** Modelled from the spec: the constructors [Options{handle, fallback}] and
    [Options{maybe_handle, fallback}], which read the object's options
    ("Options select copy vs. reference semantics"). *)
Definition Options_of `{Engine} (handle : Value) (fallback : Options.Type_) : M Options.t :=
  do copy <- IsOptionSet handle "copy";;
  do reference <- IsOptionSet handle "reference";;
  pure {| Options.type := if copy then Options.Copy
                          else if reference then Options.Reference
                          else Options.None_;
          Options.fallback := fallback |}.

Definition Options_of_maybe `{Engine} (maybe_options : MaybeLocal Value) (fallback : Options.Type_) : M Options.t :=
  match maybe_options with
  | Some handle => Options_of handle fallback
  | None => pure {| Options.type := Options.None_; Options.fallback := fallback |}
  end.

(** Modelled from the spec: the capsule a given option type asks for, "copy
    (deep value copy, no ownership)" or "reference (wrap as a Reference)";
    none without a type. *)
Definition TransferWithType `{Engine} (value : Value) (type : Options.Type_) : M (unique_ptr Transferable) :=
  match type with
  | Options.None_ => pure None
  | Options.Copy =>
      do copy <- ExternalCopy.Copy value;;
      pure (Some (ExternalCopyTransferable copy))
  | Options.Reference =>
      do data <- ReferenceData_ctor value;;
      pure (Some (ReferenceHandleTransferable data))
  end.

(** Modelled from the spec: [Transferable::TransferOut(value, options)]
    (transferable.cc is not among the sources).  An instance of a
    [TransferableHandle] class transfers itself out through its own
    [TransferOut]; a primitive is copied; anything else goes by the options,
    and "copy failures surface as the codec's own error". *)
Definition TransferOut `{Engine} (value : Value) (options : Options.t) : M Transferable :=
  do copy <-
    match Options.type options with
    | Options.None_ =>
        match value with
        | VDereference d =>
            do t <- DereferenceHandle.TransferOut d;; pure (Some t)
        | VReference r =>
            do t <- ReferenceHandle.TransferOut r;; pure (Some t)
        | _ =>
            match ExternalCopy.CopyIfPrimitive value with
            | Some c => pure (Some (ExternalCopyTransferable c))
            | None => TransferWithType value (Options.fallback options)
            end
        end
    | type => TransferWithType value type
    end;;
  match copy with
  | Some t => pure t
  | None => throw (js_type_error "A non-transferable value was passed")
  end.

(** The virtual [Transferable::TransferIn]. *)
Definition TransferIn `{Engine} (t : Transferable) : M Value :=
  match t with
  | DereferenceHandleTransferable isolate reference =>
      DereferenceHandleTransferable.TransferIn isolate reference
  | ReferenceHandleTransferable data => ReferenceHandleTransferable.TransferIn data
  | ExternalCopyTransferable copy => ExternalCopy.CopyInto copy
  end.
End Transferable.

(** ** The three-phase task engine *)

Module ThreePhaseTask.
(** The template argument [async]: 0, 1, 2 and 4 in [Definition()]. *)
Inductive Mode := Sync | Async | Ignored | SyncPromise.

(** What the caller gets: a value, a promise that settles with the outcome of
    phases 2 and 3, or nothing. *)
Inductive Delivery :=
| Returned (v : Value)
| Settles (r : result Value)
| Dropped.

(** Entering [second_isolate] for the time of [body]. *)
Definition in_isolate `{Engine} {A} (second_isolate : IsolateHolder) (body : M A) : M A := fun w =>
  let (r, w') := body (set_current second_isolate (DefaultContext second_isolate) w) in
  (r, set_current (current w) (current_context w) w').

Section Run.
Context `{Engine} {T : Type}.
Variable Phase2 : T -> M T.
Variable Phase2Async : nat -> T -> M (bool * T).
Variable Phase3 : T -> M Value.
(** What reaches a task parked on [wait] before its deadline. *)
Variable parked : T -> M T.

(** Modelled from the spec: [ThreePhaseTask::Run<async, T>(second_isolate,
    args...)] (three_phase_task.h is not among the sources).  Phase 1, the
    construction of the task, runs inline and its errors are raised
    synchronously; phase 2 runs in the target isolate and its errors are
    re-raised to the caller; phase 3 runs back in the caller's isolate.
    [second_isolate] is the reference [*isolate] the caller formed: it is first
    used when phase 2 is dispatched. *)
Definition Run (async : Mode) (second_isolate : shared_ptr IsolateHolder)
    (wait : nat) (construct : M T) : M Delivery :=
  do self <- construct;;
  do target <- deref_ptr second_isolate;;
  match async with
  | Sync =>
      do self <- in_isolate target (Phase2 self);;
      do v <- Phase3 self;;
      pure (Returned v)
  | SyncPromise =>
      do p <- in_isolate target (Phase2Async wait self);;
      do self <- (if fst p then in_isolate target (parked (snd p)) else pure (snd p));;
      do v <- Phase3 self;;
      pure (Returned v)
  | Async => fun w =>
      let (r, w') := (do self <- in_isolate target (Phase2 self);; Phase3 self) w in
      (Ok (Settles r), w')
  | Ignored => fun w =>
      let (_, w') := in_isolate target (Phase2 self) w in
      (Ok Dropped, w')
  end.
End Run.
End ThreePhaseTask.

(** ** [ApplyRunner]: call a function, like [Function.prototype.apply] *)

(** The arguments of the native callback the promise wrapper calls:
    [info[0]] is the task, [info[1]] the heap cell holding a copy of the
    [shared_ptr<bool>], and [rest] is [val] on resolution, [null, err] on
    rejection. *)
Record FunctionCallbackInfo := {
  info_did_finish : nat;
  info_rest : list Value;
}.

Definition info_Length (info : FunctionCallbackInfo) : nat := 2 + length (info_rest info).
Definition info_at (info : FunctionCallbackInfo) (i : nat) : Value :=
  default VUndefined (info_rest info !! (i - 2)).

Definition make_shared_bool (b : bool) : M nat := fun w =>
  (Ok (length (flags w)), set_flags (flags w ++ [b]) w).
Definition read_flag (p : nat) : M bool := fun w => deref_ptr (flags w !! p) w.
(** A store through the pointer; the trace keeps count of the stores. *)
Definition write_flag (p : nat) (b : bool) : M unit :=
  run read_flag p;;
  modify (fun w => log (EvStoreFlag p b) (set_flags (<[p := b]> (flags w)) w)).

Definition Wake (wait : nat) : M unit := modify (log (EvWake wait)).

Module ApplyRunner.
Record t := {
  argv : list Transferable;
  context : RemoteHandle Context;
  reference : RemoteHandle Value;
  recv : unique_ptr Transferable;
  ret : unique_ptr Transferable;
  timeout : Z;
  did_finish : shared_ptr nat;
  return_transfer_options : Options.t;
  async_error : unique_ptr ExternalCopy;
  async_wait : option nat;
}.

Definition set_ret (x : unique_ptr Transferable) (self : t) : t :=
  {| argv := argv self; context := context self; reference := reference self;
     recv := recv self; ret := x; timeout := timeout self; did_finish := did_finish self;
     return_transfer_options := return_transfer_options self;
     async_error := async_error self; async_wait := async_wait self |}.

Definition set_async_error (x : unique_ptr ExternalCopy) (self : t) : t :=
  {| argv := argv self; context := context self; reference := reference self;
     recv := recv self; ret := ret self; timeout := timeout self; did_finish := did_finish self;
     return_transfer_options := return_transfer_options self;
     async_error := x; async_wait := async_wait self |}.

Definition set_waiting (flag : nat) (wait : nat) (self : t) : t :=
  {| argv := argv self; context := context self; reference := reference self;
     recv := recv self; ret := ret self; timeout := timeout self; did_finish := Some flag;
     return_transfer_options := return_transfer_options self;
     async_error := async_error self; async_wait := Some wait |}.

(** The run options read in the constructor: [timeout], the options the
    arguments are transferred under, and those for the return value. *)
Definition run_options `{Engine} (maybe_options : MaybeLocal Value) : M (Z * Options.t * Options.t) :=
  match maybe_options with
  | None => pure (0%Z, Options.default, Options.default)
  | Some options =>
      do timeout_handle <- Get options (v8_string "timeout");;
      do timeout <-
        (if negb (IsUndefined timeout_handle) then
           if negb (IsUint32 timeout_handle) then
             throw (js_type_error "`timeout` must be integer")
           else pure (if timeout_handle is VNumber n then n else 0%Z)
         else pure 0%Z);;
      do arguments_transfer_handle <- Get options (v8_string "arguments");;
      do arguments_transfer_options <-
        (if negb (IsUndefined arguments_transfer_handle) then
           if negb (IsObject arguments_transfer_handle) then
             throw (js_type_error "`arguments` must be object")
           else Transferable.Options_of arguments_transfer_handle Options.None_
         else pure Options.default);;
      do return_transfer_handle <- Get options (v8_string "return");;
      do return_transfer_options <-
        (if negb (IsUndefined return_transfer_handle) then
           if negb (IsObject return_transfer_handle) then
             throw (js_type_error "`return` must be object")
           else Transferable.Options_of return_transfer_handle Options.Reference
         else pure Options.default);;
      pure (timeout, arguments_transfer_options, return_transfer_options)
  end.

(** The loop that externalizes the arguments: [keys] is what is left of the
    own property names, [ii] the position reached. *)
Fixpoint externalize `{Engine} (arguments : Value) (arguments_transfer_options : Options.t)
    (keys : list Value) (ii : nat) : M (list Transferable) :=
  match keys with
  | [] => pure []
  | k :: keys' =>
      do key <- Unmaybe (ToArrayIndex k);;
      if negb (Nat.eqb key ii) then
        throw (js_type_error "Invalid `arguments` array")
      else
        do value <- Get arguments (VNumber (Z.of_nat key));;
        do a <- Transferable.TransferOut value arguments_transfer_options;;
        do rest <- externalize arguments arguments_transfer_options keys' (S ii);;
        pure (a :: rest)
  end.

(** The constructor, phase 1. *)
Definition New `{Engine} (that : nat) (recv_handle : MaybeLocal Value)
    (maybe_arguments : MaybeLocal Value) (maybe_options : MaybeLocal Value) : M t :=
  do that_ <- ReferenceHandle.load that;;
  run ReferenceHandle.CheckDisposed that;;
  do recv <- match recv_handle with
             | Some recv_local =>
                 do r <- Transferable.TransferOut recv_local Options.default;;
                 pure (Some r)
             | None => pure None
             end;;
  do opts <- run_options maybe_options;;
  do argv <- match maybe_arguments with
             | Some arguments =>
                 do keys <- GetOwnPropertyNames arguments;;
                 externalize arguments (snd (fst opts)) keys 0
             | None => pure []
             end;;
  pure {| argv := argv; context := ReferenceData.context that_;
          reference := ReferenceData.reference that_; recv := recv; ret := None;
          timeout := fst (fst opts); did_finish := None;
          return_transfer_options := snd opts; async_error := None; async_wait := None |}.

Fixpoint TransferArguments_from `{Engine} (argv : list Transferable) : M (list Value) :=
  match argv with
  | [] => pure []
  | a :: argv' =>
      do v <- Transferable.TransferIn a;;
      do rest <- TransferArguments_from argv';;
      pure (v :: rest)
  end.

Definition TransferArguments `{Engine} (self : t) : M (list Value) :=
  TransferArguments_from (argv self).

Definition Phase2 `{Engine} (self : t) : M t :=
  do context_handle <- ivm_Deref (context self);;
  Context_Scope context_handle (
    do fn <- ivm_Deref (reference self);;
    if negb (IsFunction fn) then
      throw (js_type_error "Reference is not a function")
    else
      do argv_inner <- TransferArguments self;;
      do recv_ <- deref_ptr (recv self);;
      do recv_inner <- Transferable.TransferIn recv_;;
      do result <- RunWithTimeout (timeout self) fn recv_inner argv_inner;;
      do r <- Transferable.TransferOut result (return_transfer_options self);;
      pure (set_ret (Some r) self)).

(** [callback_fn->Call(context_handle, callback_fn, 3, argv)]: the compiled
    wrapper attaches the two reactions to the promise. *)
Definition call_async_wrapper (promise : Value) (did_finish : nat) : M unit :=
  modify (log (EvThen promise did_finish)).

Definition Phase2Async `{Engine} (wait : nat) (self : t) : M (bool * t) :=
  if negb (Options.eqb (return_transfer_options self) Options.default) then
    throw (js_type_error "`return` options are not available for `applySyncPromise`")
  else
    do context_handle <- ivm_Deref (context self);;
    Context_Scope context_handle (
      do fn <- ivm_Deref (reference self);;
      if negb (IsFunction fn) then
        throw (js_type_error "Reference is not a function")
      else
        do recv_ <- deref_ptr (recv self);;
        do recv_inner <- Transferable.TransferIn recv_;;
        do argv_inner <- TransferArguments self;;
        do value <- RunWithTimeout (timeout self) fn recv_inner argv_inner;;
        if IsPromise value then
          do flag <- make_shared_bool false;;
          run call_async_wrapper value flag;;
          pure (true, set_waiting flag wait self)
        else
          do r <- Transferable.TransferOut value (return_transfer_options self);;
          pure (false, set_ret (Some r) self)).

Definition Phase3 `{Engine} (self : t) : M Value :=
  do waiting <- match did_finish self with
                | Some flag => do b <- read_flag flag;; pure (negb b)
                | None => pure false
                end;;
  if waiting then
    do flag <- deref_ptr (did_finish self);;
    run write_flag flag true;;
    throw (js_generic_error "Script execution timed out.")
  else
    match async_error self with
    | Some error =>
        do exception <- ExternalCopy.CopyInto error;;
        run ThrowException exception;;
        throw js_runtime_error
    | None =>
        do r <- deref_ptr (ret self);;
        Transferable.TransferIn r
    end.

(** The callback run once the promise returned to [applySyncPromise] has
    settled.  [self] is the task [info[0]] points to, [None] when the task is
    dead. *)
Definition AsyncCallback `{Engine} (info : FunctionCallbackInfo) (self : option t) : M (option t) :=
  do finished <- read_flag (info_did_finish info);;
  if finished then
    pure self
  else
    do self_ <- deref_ptr self;;
    do self_ <-
      (if Nat.eqb (info_Length info) 3 then
         RunCatchExternal
           (do r <- Transferable.TransferOut (info_at info 2) Options.default;;
            pure (set_ret (Some r) self_))
           (fun error => pure (set_async_error (Some error) self_))
       else
         do error <- ExternalCopy.CopyIfPrimitiveOrError (info_at info 3);;
         pure (set_async_error
                 (Some (default
                          (ExternalCopyError "An object was thrown from supplied code within isolated-vm, but that object was not an instance of `Error`.")
                          error))
                 self_));;
    do flag <- deref_ptr (did_finish self_);;
    run write_flag flag true;;
    do wait <- deref_ptr (async_wait self_);;
    run Wake wait;;
    pure (Some self_).
End ApplyRunner.

(** ** [CopyRunner]: copy this reference's value into this isolate *)

Module CopyRunner.
Record t := {
  context : RemoteHandle Context;
  reference : RemoteHandle Value;
  copy : unique_ptr Transferable;
}.

Definition New (that : nat) (context : RemoteHandle Context) (reference : RemoteHandle Value) : M t :=
  run ReferenceHandle.CheckDisposed that;;
  pure {| context := context; reference := reference; copy := None |}.

Definition Phase2 `{Engine} (self : t) : M t :=
  do context_handle <- ivm_Deref (context self);;
  Context_Scope context_handle (
    do value <- ivm_Deref (reference self);;
    do c <- ExternalCopy.Copy value;;
    pure {| context := context self; reference := reference self;
            copy := Some (ExternalCopyTransferable c) |}).

Definition Phase3 `{Engine} (self : t) : M Value :=
  do c <- deref_ptr (copy self);;
  Transferable.TransferIn c.
End CopyRunner.

(** ** [GetRunner]: get a property from this reference *)

Module GetRunner.
Record t := {
  key : unique_ptr ExternalCopy;
  context : RemoteHandle Context;
  reference : RemoteHandle Value;
  ret : unique_ptr Transferable;
  options : Options.t;
}.

(** The member initializers (in declaration order), then the body. *)
Definition New `{Engine} (that : nat) (key_handle : Value) (maybe_options : MaybeLocal Value) : M t :=
  do that_ <- ReferenceHandle.load that;;
  do options <- Transferable.Options_of_maybe maybe_options Options.Reference;;
  run ReferenceHandle.CheckDisposed that;;
  let key := ExternalCopy.CopyIfPrimitive key_handle in
  if key is None then
    throw (js_type_error "Invalid `key`")
  else
    pure {| key := key; context := ReferenceData.context that_;
            reference := ReferenceData.reference that_; ret := None; options := options |}.

Definition Phase2 `{Engine} (self : t) : M t :=
  do context_handle <- ivm_Deref (context self);;
  Context_Scope context_handle (
    do key_ <- deref_ptr (key self);;
    do key_inner <- ExternalCopy.CopyInto key_;;
    do object <- ivm_Deref (reference self);;
    do value <- Get object key_inner;;
    do r <- Transferable.TransferOut value (options self);;
    pure {| key := key self; context := context self; reference := reference self;
            ret := Some r; options := options self |}).

Definition Phase3 `{Engine} (self : t) : M Value :=
  do r <- deref_ptr (ret self);;
  Transferable.TransferIn r.
End GetRunner.

(** ** [SetRunner]: attempt to set a property on this reference *)

Module SetRunner.
Record t := {
  key : unique_ptr ExternalCopy;
  val : unique_ptr Transferable;
  context : RemoteHandle Context;
  reference : RemoteHandle Value;
  did_set : bool;
}.

(** The member initializers (in declaration order: [key], [val], [context],
    [reference]), then the body. *)
Definition New `{Engine} (that : nat) (key_handle val_handle : Value)
    (maybe_options : MaybeLocal Value) : M t :=
  let key := ExternalCopy.CopyIfPrimitive key_handle in
  do options <- Transferable.Options_of_maybe maybe_options Options.None_;;
  do val <- Transferable.TransferOut val_handle options;;
  do that_ <- ReferenceHandle.load that;;
  run ReferenceHandle.CheckDisposed that;;
  if key is None then
    throw (js_type_error "Invalid `key`")
  else
    pure {| key := key; val := Some val; context := ReferenceData.context that_;
            reference := ReferenceData.reference that_; did_set := false |}.

Definition Phase2 `{Engine} (self : t) : M t :=
  do context_handle <- ivm_Deref (context self);;
  Context_Scope context_handle (
    do key_ <- deref_ptr (key self);;
    do key_inner <- ExternalCopy.CopyInto key_;;
    do object <- ivm_Deref (reference self);;
    run Delete object key_inner;;
    do val_ <- deref_ptr (val self);;
    do val_inner <- Transferable.TransferIn val_;;
    do b <- Set_ object key_inner val_inner;;
    pure {| key := key self; val := val self; context := context self;
            reference := reference self; did_set := b |}).

Definition Phase3 (self : t) : M Value :=
  pure (VBoolean (did_set self)).
End SetRunner.

(** ** [ReferenceHandle]: the methods that are three-phase tasks *)

(** A task that never parks: [Phase2Async] is [Phase2]. *)
Definition Phase2Async_default {T} (Phase2 : T -> M T) (wait : nat) (self : T) : M (bool * T) :=
  do self' <- Phase2 self;;
  pure (false, self').

(** [settlement] is the reaction that reaches a parked [applySyncPromise]
    before its deadline, if one does. *)
Definition ReferenceHandle_Apply `{Engine} (async : ThreePhaseTask.Mode) (this : nat)
    (recv_handle maybe_arguments maybe_options : MaybeLocal Value)
    (wait : nat) (settlement : option (list Value)) : M ThreePhaseTask.Delivery :=
  do self <- ReferenceHandle.load this;;
  ThreePhaseTask.Run ApplyRunner.Phase2 ApplyRunner.Phase2Async ApplyRunner.Phase3
    (fun task =>
       match settlement, ApplyRunner.did_finish task with
       | Some rest, Some flag =>
           do task' <- ApplyRunner.AsyncCallback
                         {| info_did_finish := flag; info_rest := rest |} (Some task);;
           deref_ptr task'
       | _, _ => pure task
       end)
    async (ReferenceData.isolate self) wait
    (ApplyRunner.New this recv_handle maybe_arguments maybe_options).

Definition ReferenceHandle_Copy `{Engine} (async : ThreePhaseTask.Mode) (this : nat)
    : M ThreePhaseTask.Delivery :=
  do self <- ReferenceHandle.load this;;
  ThreePhaseTask.Run CopyRunner.Phase2 (Phase2Async_default CopyRunner.Phase2) CopyRunner.Phase3
    pure async (ReferenceData.isolate self) 0
    (CopyRunner.New this (ReferenceData.context self) (ReferenceData.reference self)).

Definition ReferenceHandle_Get `{Engine} (async : ThreePhaseTask.Mode) (this : nat)
    (key_handle : Value) (maybe_options : MaybeLocal Value) : M ThreePhaseTask.Delivery :=
  do self <- ReferenceHandle.load this;;
  ThreePhaseTask.Run GetRunner.Phase2 (Phase2Async_default GetRunner.Phase2) GetRunner.Phase3
    pure async (ReferenceData.isolate self) 0
    (GetRunner.New this key_handle maybe_options).

Definition ReferenceHandle_Set `{Engine} (async : ThreePhaseTask.Mode) (this : nat)
    (key_handle val_handle : Value) (maybe_options : MaybeLocal Value)
    : M ThreePhaseTask.Delivery :=
  do self <- ReferenceHandle.load this;;
  ThreePhaseTask.Run SetRunner.Phase2 (Phase2Async_default SetRunner.Phase2) SetRunner.Phase3
    pure async (ReferenceData.isolate self) 0
    (SetRunner.New this key_handle val_handle maybe_options).

(** ** [ShareablePersistent]: a persistent and the isolate that owns it *)

Module ShareablePersistent.
(** A heap-allocated [Persistent<T>]. *)
Inductive Slot :=
| Holding (value : Value)
| Empty
| Freed.

Inductive Event :=
| EvDisposer (handle : nat) (isolate : option nat)
| EvReset (handle : nat)
| EvDelete (handle : nat).

(** The closure [[handle, isolate]() { ... }] handed to [ScheduleHandleTask]. *)
Record HandleTask := {
  task_handle : nat;
  task_isolate : nat;
}.

Record ShareableIsolate := {
  alive : bool;
  handle_tasks : list HandleTask;
}.

Record World := {
  isolates : list ShareableIsolate;
  slots : list Slot;
  trace : list Event;
}.

Record t := {
  isolate : shared_ptr nat;
  handle : unique_ptr nat;
}.

Definition log (e : Event) : StateErr World unit :=
  modify (fun w => {| isolates := isolates w; slots := slots w; trace := trace w ++ [e] |}).

Definition set_slot (handle : nat) (s : Slot) : StateErr World unit :=
  modify (fun w => {| isolates := isolates w; slots := <[handle := s]> (slots w); trace := trace w |}).

Definition set_isolate (i : nat) (x : ShareableIsolate) : StateErr World unit :=
  modify (fun w => {| isolates := <[i := x]> (isolates w); slots := slots w; trace := trace w |}).

(** A slot that is still allocated; a freed one must not be touched. *)
Definition live_slot (handle : nat) : StateErr World Slot := fun w =>
  match slots w !! handle with
  | Some Freed | None => (Throw null_dereference, w)
  | Some s => (Ok s, w)
  end.

(** The call of the disposer [D] on the persistent and the isolate pointer;
    [None] is [nullptr]. *)
Definition D_call (handle : nat) (isolate : option nat) : StateErr World unit :=
  run live_slot handle;;
  log (EvDisposer handle isolate).

Definition Reset (handle : nat) : StateErr World unit :=
  run live_slot handle;;
  run set_slot handle Empty;;
  log (EvReset handle).

Definition delete (handle : nat) : StateErr World unit :=
  run live_slot handle;;
  run set_slot handle Freed;;
  log (EvDelete handle).

(** The body of the scheduled closure: the isolate is still alive. *)
Definition run_task (D : bool) (task : HandleTask) : StateErr World unit :=
  run when D (D_call (task_handle task) (Some (task_isolate task)));;
  run Reset (task_handle task);;
  delete (task_handle task).

(** Modelled from the spec: [ShareableIsolate::ScheduleHandleTask] ("schedule a
    disposal task on this environment's queue (fails if environment already
    torn down)"); shareable_isolate.h is not among the sources. *)
Definition ScheduleHandleTask (isolate : nat) (run_inline : bool) (task : HandleTask)
    : StateErr World bool := fun w =>
  match isolates w !! isolate with
  | None => (Throw null_dereference, w)
  | Some i =>
      if alive i then
        (Ok true,
         snd (set_isolate isolate
                {| alive := true; handle_tasks := handle_tasks i ++ [task] |} w))
      else (Ok false, w)
  end.

(** [~ShareablePersistent()]. *)
Definition destructor (D : bool) (self : t) : StateErr World unit :=
  do handle <- deref_ptr (handle self);;
  do isolate <- deref_ptr (isolate self);;
  do scheduled <- ScheduleHandleTask isolate true
                    {| task_handle := handle; task_isolate := isolate |};;
  if negb scheduled then
    run when D (D_call handle None);;
    delete handle
  else pure tt.

(** The owning isolate drains its queue of handle tasks. *)
Fixpoint run_tasks (D : bool) (tasks : list HandleTask) : StateErr World unit :=
  match tasks with
  | [] => pure tt
  | task :: tasks' => run run_task D task;; run_tasks D tasks'
  end.

Definition drain (D : bool) (isolate : nat) : StateErr World unit := fun w =>
  match isolates w !! isolate with
  | None => (Throw null_dereference, w)
  | Some i =>
      (run set_isolate isolate {| alive := alive i; handle_tasks := [] |};;
       run_tasks D (handle_tasks i)) w
  end.

(** A [std::shared_ptr<ShareablePersistent>] with its use count: dropping a
    share destroys the object when it was the last one. *)
Record Shared := {
  use_count : nat;
  object : t;
}.

Definition drop_share (D : bool) (s : Shared) : StateErr World (option Shared) :=
  match use_count s with
  | 0 => throw null_dereference
  | 1 => run destructor D (object s);; pure None
  | S n => pure (Some {| use_count := n; object := object s |})
  end.
End ShareablePersistent.

(** ** A small engine, to run the embedding on concrete inputs

    Objects are property lists, rebuilt from the initial heap and the [Set] and
    [Delete] calls of the trace; functions are given by a table of results. *)

Module PlainEngine.
Definition Props := list (Value * Value).

Fixpoint lookup_prop (key : Value) (ps : Props) : option Value :=
  match ps with
  | [] => None
  | (k, v) :: ps' => if Value_eqb k key then Some v else lookup_prop key ps'
  end.

Definition delete_prop (key : Value) (ps : Props) : Props :=
  filter (fun p => negb (Value_eqb (fst p) key)) ps.

Definition set_prop (key value : Value) (ps : Props) : Props :=
  (delete_prop key ps ++ [(key, value)])%list.

Definition replay (object : Value) (ps : Props) (e : Event) : Props :=
  match e with
  | EvSet o k v (Some true) => if Value_eqb o object then set_prop k v ps else ps
  | EvDelete o k (Some true) => if Value_eqb o object then delete_prop k ps else ps
  | _ => ps
  end.

Definition props_of (heap : Value -> Props) (tr : list Event) (object : Value) : Props :=
  fold_left (replay object) tr (heap object).

Definition digit_of (c : Ascii.ascii) : option Z :=
  let n := Z.of_nat (Ascii.nat_of_ascii c) in
  if (48 <=? n)%Z && (n <=? 57)%Z then Some (n - 48)%Z else None.

Fixpoint decimal (s : string) (acc : Z) : option Z :=
  match s with
  | EmptyString => Some acc
  | String c s' =>
      match digit_of c with
      | Some d => decimal s' (10 * acc + d)%Z
      | None => None
      end
  end.

(** An array index is a canonical decimal numeral below [2^32 - 1]. *)
Definition ToArrayIndex (key : Value) : Maybe nat :=
  let bounded (n : Z) := if (0 <=? n)%Z && (n <? 2 ^ 32 - 1)%Z then Some (Z.to_nat n) else None in
  match key with
  | VNumber n => bounded n
  | VString EmptyString => None
  | VString (String c s') =>
      if Ascii.eqb c (Ascii.ascii_of_nat 48) && negb (String.eqb s' "") then None
      else n ← decimal (String c s') 0; bounded n
  | _ => None
  end.

Definition message_of (e : js_error) : string :=
  match e with
  | js_type_error m | js_generic_error m => m
  | js_runtime_error => "pending exception"
  | null_dereference => "null"
  | unchecked_cast => "cast"
  end.

Definition engine (heap : Value -> Props) (code : nat -> Value -> list Value -> result Value) : Engine :=
  {| Object_Get := fun tr o k => Some (default VUndefined (lookup_prop k (props_of heap tr o)));
     Object_Delete := fun tr o k => Some true;
     Object_Set := fun tr o k v => Some true;
     Object_GetOwnPropertyNames := fun tr o => Some (map fst (props_of heap tr o));
     Value_ToArrayIndex := ToArrayIndex;
     RunWithTimeout_Call := fun tr timeout fn recv argv =>
       match fn with
       | VFunction f => code f recv argv
       | _ => Throw (js_type_error "not a function")
       end;
     DefaultContext := fun i => i;
     ExternalCopy_Copy := fun tr v =>
       match v with
       | VObject o => Ok (ExternalCopySerialized o)
       | _ => Throw (js_type_error "could not be cloned")
       end;
     ExternalCopy_CopyIfError := fun tr v => None;
     ExternalCopy_CopyInto := fun tr c =>
       match c with
       | ExternalCopyPrimitive v => v
       | ExternalCopyError m => VString m
       | ExternalCopySerialized b => VObject (S b)
       end;
     RunCatchExternal_error := fun tr e => ExternalCopyError (message_of e) |}.
End PlainEngine.

(** * The vocabulary of the properties *)

Local Open Scope list_scope.

(** ** A concrete scene

    Isolate 1 is the caller's, isolate 2 owns three values: the function
    [f() { return 42; }], a plain object and a function that returns a
    promise.  References 0, 1 and 2 name them. *)

Module Scene.
Definition code (f : nat) (recv : Value) (argv : list Value) : result Value :=
  match f with
  | 0 => Ok (VNumber 42)
  | 1 => Ok (VPromise 0)
  | _ => Ok (default VUndefined (argv !! 0))
  end.

Definition heap (o : Value) : PlainEngine.Props :=
  match o with
  | VObject 5 => [(VNumber 0, VNumber 10); (VNumber 1, VString "a")]
  | VObject 6 => [(VNumber 0, VNumber 10); (VNumber 2, VString "a")]
  | VObject 7 => [(VNumber 0, VNumber 10); (VString "foo", VString "a")]
  | VObject 8 => [(VString "return", VObject 9)]
  | VObject 9 => [(VString "copy", VBoolean true)]
  | VObject 11 => [(VString "release", VBoolean true)]
  | _ => []
  end.

Definition E : Engine := PlainEngine.engine heap code.

Definition reference_to (value : Value) : ReferenceData.t :=
  {| ReferenceData.isolate := Some 2; ReferenceData.reference := Some value;
     ReferenceData.context := Some 20; ReferenceData.type_of := InferTypeOf value |}.

Definition world (current : IsolateHolder) : World :=
  {| current := current; current_context := 10 * current;
     references := [reference_to (VFunction 0); reference_to (VObject 3);
                    reference_to (VFunction 1)];
     dereferences := []; flags := []; trace := [] |}.

Definition caller : World := world 1.
Definition owner : World := world 2.
End Scene.

(** What [release()] leaves of a reference: the type tag alone. *)
Definition released (data : ReferenceData.t) : ReferenceData.t :=
  {| ReferenceData.isolate := None; ReferenceData.reference := None;
     ReferenceData.context := None; ReferenceData.type_of := ReferenceData.type_of data |}.

(** The errors the properties name. *)
Definition disposed_error : js_error := js_generic_error "Reference has been released".

(** What reading option [key] yields: unset without an options object,
    nothing when the property read throws. *)
Definition option_read `{Engine} (tr : list Event) (maybe_options : MaybeLocal Value)
    (key : string) : option bool :=
  match maybe_options with
  | None => Some false
  | Some options => ToBoolean <$> Object_Get tr options (v8_string key)
  end.

(** The world once the option has been read: the read is in the trace. *)
Definition after_read `{Engine} (w : World) (maybe_options : MaybeLocal Value) (key : string) : World :=
  match maybe_options with
  | None => w
  | Some options =>
      log (EvGet options (v8_string key) (Object_Get (trace w) options (v8_string key))) w
  end.

Definition reuse_error : js_error :=
  js_generic_error "The return value of `derefInto()` should only be used once".

(** A capsule that has been transferred out. *)
Definition consumed : DereferenceData.t :=
  {| DereferenceData.isolate := None; DereferenceData.reference := None |}.

(** The scene after [derefInto()] on reference 1, and after the capsule was
    then handed once to a transfer. *)
Definition with_capsule : World :=
  snd (ReferenceHandle.DerefInto (H := Scene.E) 1 None Scene.caller).


(** The scene after: [c = r1.derefInto()], [r0.setSync("x", c)] (which uses
    the capsule up), [r1.release()]. *)
Definition released_scene : World :=
  snd ((do c <- ReferenceHandle.DerefInto (H := Scene.E) 1 None;;
        run ReferenceHandle_Set (H := Scene.E) ThreePhaseTask.Sync 0 (VString "x") c None;;
        ReferenceHandle.Release 1) Scene.caller).

(** A transfer out touches nothing but the capsule it uses up. *)
Definition same_but_dereferences (w w' : World) : Prop :=
  current w' = current w /\ current_context w' = current_context w
  /\ references w' = references w /\ flags w' = flags w /\ trace w' = trace w.

(** What the caller of a three-phase method gets when phases 2 and 3 give
    [r]: the value or the error itself, a promise that settles with it, or
    nothing. *)
Definition delivered (async : ThreePhaseTask.Mode) (r : result Value)
    : result ThreePhaseTask.Delivery :=
  match async with
  | ThreePhaseTask.Sync | ThreePhaseTask.SyncPromise =>
      match r with
      | Ok v => Ok (ThreePhaseTask.Returned v)
      | Throw e => Throw e
      end
  | ThreePhaseTask.Async => Ok (ThreePhaseTask.Settles r)
  | ThreePhaseTask.Ignored => Ok ThreePhaseTask.Dropped
  end.

(** The scene in the owner's isolate, after [new Reference(5)]: reference 3
    names the number. *)
Definition number_scene : World :=
  snd (ReferenceHandle.New (VNumber 5) Scene.owner).

Definition invalid_arguments : js_error := js_type_error "Invalid `arguments` array".

(** The keys are the array indices [ii], [ii + 1], ... in this order. *)
Definition dense_from `{Engine} (ii : nat) (keys : list Value) : Prop :=
  forall j key, keys !! j = Some key -> ToArrayIndex key = Some (ii + j).

(** Transferring out the arguments at the given indices, one after the other,
    under the given options. *)
Fixpoint transfer_out_each `{Engine} (arguments : Value) (options : Options.t)
    (indices : list nat) : M (list Transferable) :=
  match indices with
  | [] => pure []
  | i :: indices' =>
      do value <- Get arguments (VNumber (Z.of_nat i));;
      do a <- Transferable.TransferOut value options;;
      do rest <- transfer_out_each arguments options indices';;
      pure (a :: rest)
  end.

(** Phase 1 of [apply] up to the loop over the arguments: the disposal check,
    the receiver, the run options and the own property names of the
    arguments.  It yields the options and the names. *)
Definition until_arguments `{Engine} (that : nat) (recv_handle : MaybeLocal Value)
    (arguments : Value) (maybe_options : MaybeLocal Value)
    : M (Z * Options.t * Options.t * list Value) :=
  run ReferenceHandle.load that;;
  run ReferenceHandle.CheckDisposed that;;
  run match recv_handle with
      | Some recv_local =>
          do r <- Transferable.TransferOut recv_local Options.default;;
          pure (Some r)
      | None => pure None
      end;;
  do opts <- ApplyRunner.run_options maybe_options;;
  do keys <- GetOwnPropertyNames arguments;;
  pure (opts, keys).

(** The loop over [pre ++ rest], once it has got through [pre]. *)
Definition prepend (argv : list Transferable) (p : result (list Transferable) * World)
    : result (list Transferable) * World :=
  match p with
  | (Ok rest, w) => (Ok (argv ++ rest), w)
  | (Throw e, w) => (Throw e, w)
  end.

Definition return_options_error : js_error :=
  js_type_error "`return` options are not available for `applySyncPromise`".

Definition timeout_error : js_error := js_generic_error "Script execution timed out.".

(** The number of stores to the flag at [p] recorded in a trace. *)
Definition stores (p : nat) (tr : list Event) : nat :=
  length (List.filter (fun e => match e with
                                | EvStoreFlag q _ => Nat.eqb q p
                                | _ => false
                                end) tr).

(** What phase 3 does with a stored outcome: re-raise the stored error, or
    transfer in the stored result. *)
Definition deliver_stored `{Engine} (self : ApplyRunner.t) : M Value :=
  match ApplyRunner.async_error self with
  | Some error =>
      do exception <- ExternalCopy.CopyInto error;;
      run ThrowException exception;;
      throw js_runtime_error
  | None =>
      do r <- deref_ptr (ApplyRunner.ret self);;
      Transferable.TransferIn r
  end.

(** The flag at [p] is set, and that store is the last event. *)
Definition flag_stored (p : nat) (w : World) : World :=
  log (EvStoreFlag p true) (set_flags (<[p := true]> (flags w)) w).

(** The outcome [AsyncCallback] stores in the task. *)
Definition store_outcome `{Engine} (info : FunctionCallbackInfo) (self_ : ApplyRunner.t)
    : M ApplyRunner.t :=
  if Nat.eqb (info_Length info) 3 then
    RunCatchExternal
      (do r <- Transferable.TransferOut (info_at info 2) Options.default;;
       pure (ApplyRunner.set_ret (Some r) self_))
      (fun error => pure (ApplyRunner.set_async_error (Some error) self_))
  else
    do error <- ExternalCopy.CopyIfPrimitiveOrError (info_at info 3);;
    pure (ApplyRunner.set_async_error
            (Some (default
                     (ExternalCopyError "An object was thrown from supplied code within isolated-vm, but that object was not an instance of `Error`.")
                     error))
            self_).

(** A task in the owner's isolate, about to call the function that returns a
    promise, and the reaction that resolves the promise with 7. *)
Definition promise_task : ApplyRunner.t :=
  {| ApplyRunner.argv := []; ApplyRunner.context := Some 20;
     ApplyRunner.reference := Some (VFunction 1);
     ApplyRunner.recv := Some (ExternalCopyTransferable (ExternalCopyPrimitive VUndefined));
     ApplyRunner.ret := None; ApplyRunner.timeout := 0%Z; ApplyRunner.did_finish := None;
     ApplyRunner.return_transfer_options := Options.default;
     ApplyRunner.async_error := None; ApplyRunner.async_wait := None |}.

Definition resolved_with_7 : FunctionCallbackInfo :=
  {| info_did_finish := 0; info_rest := [VNumber 7] |}.

Module SP := ShareablePersistent.

(** The last share of a persistent in slot 0, owned by isolate 0. *)
Definition last_share : SP.Shared :=
  {| SP.use_count := 1; SP.object := {| SP.isolate := Some 0; SP.handle := Some 0 |} |}.

Definition isolate_world (alive : bool) : SP.World :=
  {| SP.isolates := [{| SP.alive := alive; SP.handle_tasks := [] |}];
     SP.slots := [SP.Holding (VObject 3)];
     SP.trace := [] |}.

(** ** Further vocabulary *)

(** The name [typeof] reports for a value. *)
Definition typeof_name (value : Value) : string :=
  match value with
  | VNull => "null"
  | VUndefined => "undefined"
  | VNumber _ => "number"
  | VString _ => "string"
  | VBoolean _ => "boolean"
  | VFunction _ => "function"
  | _ => "object"
  end.

(** The value a capsule materializes to while [cur] is the current isolate,
    for the capsules that need neither the codec nor a new instance: copies of
    primitives, and the capsules of [derefInto()] owned by [cur]. *)
Definition materialized (cur : IsolateHolder) (t : Transferable) : option Value :=
  match t with
  | ExternalCopyTransferable (ExternalCopyPrimitive v) => Some v
  | DereferenceHandleTransferable (Some i) (Some v) =>
      if bool_decide (i = cur) then Some v else None
  | _ => None
  end.

Definition not_a_function : js_error := js_type_error "Reference is not a function".

Definition wrong_target : js_error :=
  js_type_error "Cannot dereference this into target isolate".

(** A task of [apply] after phase 1, on a value living in context 20. *)
Definition task_on (value : Value) (recv : Transferable) (argv : list Transferable)
    : ApplyRunner.t :=
  {| ApplyRunner.argv := argv; ApplyRunner.context := Some 20;
     ApplyRunner.reference := Some value; ApplyRunner.recv := Some recv;
     ApplyRunner.ret := None; ApplyRunner.timeout := 0%Z; ApplyRunner.did_finish := None;
     ApplyRunner.return_transfer_options := Options.default;
     ApplyRunner.async_error := None; ApplyRunner.async_wait := None |}.

Definition primitive (v : Value) : Transferable :=
  ExternalCopyTransferable (ExternalCopyPrimitive v).

Definition invalid_key : js_error := js_type_error "Invalid `key`".

(** An options object whose [timeout] is -1. *)
Definition negative_timeout : Engine :=
  PlainEngine.engine
    (fun o => match o with
              | VObject 12 => [(VString "timeout", VNumber (-1))]
              | _ => []
              end)
    Scene.code.

(** An options object whose [arguments] is the number 5. *)
Definition arguments_not_object : Engine :=
  PlainEngine.engine
    (fun o => match o with
              | VObject 13 => [(VString "arguments", VNumber 5)]
              | _ => []
              end)
    Scene.code.

(** The task of [r.get("release")] on the object with that property, after
    phase 1. *)
Definition get_release : GetRunner.t :=
  {| GetRunner.key := Some (ExternalCopyPrimitive (VString "release"));
     GetRunner.context := Some 20; GetRunner.reference := Some (VObject 11);
     GetRunner.ret := None;
     GetRunner.options := {| Options.type := Options.None_;
                             Options.fallback := Options.Reference |} |}.

Definition not_an_error : ExternalCopy :=
  ExternalCopyError "An object was thrown from supplied code within isolated-vm, but that object was not an instance of `Error`.".

(** ** [ShareablePersistent]: construction and access *)

(** [ShareablePersistent(Local<T> handle)], while isolate [current] is the
    running one: a new persistent is allocated for the value. *)
Definition ShareablePersistent_ctor (current : nat) (handle : Value)
    : StateErr SP.World SP.t := fun w =>
  (Ok {| SP.isolate := Some current; SP.handle := Some (length (SP.slots w)) |},
   {| SP.isolates := SP.isolates w; SP.slots := SP.slots w ++ [SP.Holding handle];
      SP.trace := SP.trace w |}).

(** [Deref()]: a local handle made from the persistent, empty when the
    persistent is. *)
Definition ShareablePersistent_Deref (self : SP.t) : StateErr SP.World (option Value) :=
  run deref_ptr (SP.isolate self);;
  do handle <- deref_ptr (SP.handle self);;
  do slot <- SP.live_slot handle;;
  pure (if slot is SP.Holding v then Some v else None).

(** [GetIsolate()]. *)
Definition ShareablePersistent_GetIsolate (self : SP.t) : StateErr SP.World nat :=
  deref_ptr (SP.isolate self).

(** An object of the heap that is no instance of [Reference] or
    [Dereference]. *)
Definition heap_object (value : Value) : bool :=
  match value with
  | VObject _ | VFunction _ | VPromise _ => true
  | _ => false
  end.

(** The task of [r.get("return")] on the options object of the scene, after
    phase 1: the property holds an object. *)
Definition get_return : GetRunner.t :=
  {| GetRunner.key := Some (ExternalCopyPrimitive (VString "return"));
     GetRunner.context := Some 20; GetRunner.reference := Some (VObject 8);
     GetRunner.ret := None;
     GetRunner.options := {| Options.type := Options.None_;
                             Options.fallback := Options.Reference |} |}.

(** * Properties *)

(** ** Running the monad *)

Lemma bind_ok {S A B} (m : StateErr S A) (k : A -> StateErr S B) w a w' :
  m w = (Ok a, w') -> bind m k w = k a w'.
Proof. intros Hm. unfold bind. now rewrite Hm. Qed.

Lemma bind_throw {S A B} (m : StateErr S A) (k : A -> StateErr S B) w e w' :
  m w = (Throw e, w') -> bind m k w = (Throw e, w').
Proof. intros Hm. unfold bind. now rewrite Hm. Qed.

Lemma set_current_same w : set_current (current w) (current_context w) w = w.
Proof. now destruct w. Qed.

Lemma set_references_same w : set_references (references w) w = w.
Proof. now destruct w. Qed.

(** ** Disposal of a reference *)

Section Disposal.
Context `{Engine}.
Variables (w : World) (this : nat) (data : ReferenceData.t).
Hypothesis Hthis : references w !! this = Some data.

Lemma load_ok : ReferenceHandle.load this w = (Ok data, w).
Proof. unfold ReferenceHandle.load. now rewrite Hthis. Qed.

Lemma CheckDisposed_live v :
  ReferenceData.reference data = Some v -> ReferenceHandle.CheckDisposed this w = (Ok tt, w).
Proof.
  intros Hv. unfold ReferenceHandle.CheckDisposed.
  rewrite (bind_ok _ _ _ _ _ load_ok). now rewrite Hv.
Qed.

Lemma CheckDisposed_released :
  ReferenceData.reference data = None ->
  ReferenceHandle.CheckDisposed this w = (Throw disposed_error, w).
Proof.
  intros Hv. unfold ReferenceHandle.CheckDisposed.
  rewrite (bind_ok _ _ _ _ _ load_ok). now rewrite Hv.
Qed.

Lemma Release_live v :
  ReferenceData.reference data = Some v ->
  ReferenceHandle.Release this w
  = (Ok VUndefined, set_references (<[this := released data]> (references w)) w).
Proof.
  intros Hv. unfold ReferenceHandle.Release.
  rewrite (bind_ok _ _ _ _ _ (CheckDisposed_live v Hv)).
  now rewrite (bind_ok _ _ _ _ _ load_ok).
Qed.
End Disposal.

(** ** Reading an option *)

Lemma read_option `{Engine} w maybe_options key b :
  option_read (trace w) maybe_options key = Some b ->
  match maybe_options with
  | Some options => IsOptionSet options key
  | None => pure false
  end w = (Ok b, after_read w maybe_options key).
Proof.
  destruct maybe_options as [options|]; simpl.
  - unfold IsOptionSet, Get, bind.
    destruct (Object_Get (trace w) options (v8_string key)) as [val|]; simpl; [|discriminate].
    now intros [= <-].
  - now intros [= <-].
Qed.

Lemma after_read_references `{Engine} w maybe_options key :
  references (after_read w maybe_options key) = references w.
Proof. now destruct maybe_options. Qed.

Lemma after_read_dereferences `{Engine} w maybe_options key :
  dereferences (after_read w maybe_options key) = dereferences w.
Proof. now destruct maybe_options. Qed.

Lemma after_read_current `{Engine} w maybe_options key :
  current (after_read w maybe_options key) = current w.
Proof. now destruct maybe_options. Qed.

(** ** [deref] and [derefInto] *)

Section Deref.
Context `{Engine}.
Variables (w : World) (this : nat) (data : ReferenceData.t) (v : Value).
Hypothesis Hthis : references w !! this = Some data.
Hypothesis Hlive : ReferenceData.reference data = Some v.
Variable maybe_options : MaybeLocal Value.

Lemma Deref_elsewhere :
  ReferenceData.isolate data <> Some (current w) ->
  ReferenceHandle.Deref this maybe_options w
  = (Throw (js_type_error "Cannot dereference this from current isolate"), w).
Proof.
  intros Hne. unfold ReferenceHandle.Deref.
  rewrite (bind_ok _ _ _ _ _ (CheckDisposed_live w this data Hthis v Hlive)).
  rewrite (bind_ok _ _ _ _ _ (load_ok w this data Hthis)).
  unfold bind at 1, GetCurrentHolder.
  now rewrite bool_decide_eq_false_2.
Qed.

Lemma Deref_owner b :
  ReferenceData.isolate data = Some (current w) ->
  option_read (trace w) maybe_options "release" = Some b ->
  ReferenceHandle.Deref this maybe_options w
  = (Ok v,
     if b then
       set_references
         (<[this := released data]> (references (after_read w maybe_options "release")))
         (after_read w maybe_options "release")
     else after_read w maybe_options "release").
Proof.
  intros Hiso Hopt. unfold ReferenceHandle.Deref.
  rewrite (bind_ok _ _ _ _ _ (CheckDisposed_live w this data Hthis v Hlive)).
  rewrite (bind_ok _ _ _ _ _ (load_ok w this data Hthis)).
  unfold bind at 1, GetCurrentHolder.
  rewrite bool_decide_eq_true_2 by assumption. simpl.
  rewrite (bind_ok _ _ _ _ _ (read_option w maybe_options "release" b Hopt)).
  set (w1 := after_read w maybe_options "release").
  assert (Hthis1 : references w1 !! this = Some data).
  { unfold w1. now rewrite after_read_references. }
  rewrite (bind_ok _ _ _ _ _ (load_ok w1 this data Hthis1)).
  rewrite Hlive. unfold ivm_Deref, deref_ptr. unfold bind at 1, pure at 1.
  destruct b; simpl.
  - unfold bind at 1. unfold bind at 1.
    now rewrite (Release_live w1 this data Hthis1 v Hlive).
  - reflexivity.
Qed.

Lemma DerefInto_live b :
  option_read (trace w) maybe_options "release" = Some b ->
  let capsule := {| DereferenceData.isolate := ReferenceData.isolate data;
                    DereferenceData.reference := Some v |} in
  let w2 := set_dereferences
              (dereferences (after_read w maybe_options "release") ++ [capsule])
              (after_read w maybe_options "release") in
  ReferenceHandle.DerefInto this maybe_options w
  = (Ok (VDereference (length (dereferences w))),
     if b then set_references (<[this := released data]> (references w2)) w2 else w2).
Proof.
  intros Hopt capsule w2. unfold ReferenceHandle.DerefInto.
  rewrite (bind_ok _ _ _ _ _ (CheckDisposed_live w this data Hthis v Hlive)).
  rewrite (bind_ok _ _ _ _ _ (read_option w maybe_options "release" b Hopt)).
  set (w1 := after_read w maybe_options "release") in *.
  assert (Hthis1 : references w1 !! this = Some data).
  { unfold w1. now rewrite after_read_references. }
  rewrite (bind_ok _ _ _ _ _ (load_ok w1 this data Hthis1)).
  rewrite Hlive. unfold bind at 1, DereferenceHandle.NewInstance.
  fold capsule. fold w2.
  replace (length (dereferences w1)) with (length (dereferences w))
    by (unfold w1; now rewrite after_read_dereferences).
  destruct b; simpl.
  - unfold bind at 1. unfold bind at 1.
    assert (Hthis2 : references w2 !! this = Some data) by exact Hthis1.
    now rewrite (Release_live w2 this data Hthis2 v Hlive).
  - reflexivity.
Qed.
End Deref.

Lemma DerefInto_capsule `{Engine} (w : World) (this : nat)
    (data : ReferenceData.t) (v : Value) (maybe_options : MaybeLocal Value) (b : bool) :
  references w !! this = Some data ->
  ReferenceData.reference data = Some v ->
  option_read (trace w) maybe_options "release" = Some b ->
  fst (ReferenceHandle.DerefInto this maybe_options w) = Ok (VDereference (length (dereferences w)))
  /\ dereferences (snd (ReferenceHandle.DerefInto this maybe_options w)) !! length (dereferences w)
     = Some {| DereferenceData.isolate := ReferenceData.isolate data;
               DereferenceData.reference := Some v |}.
Proof.
  intros Hthis Hlive Hopt.
  rewrite (DerefInto_live w this data v Hthis Hlive maybe_options b Hopt).
  destruct b; simpl; rewrite ?after_read_dereferences;
    (split; [reflexivity|]; rewrite lookup_app_r by lia; now rewrite Nat.sub_diag).
Qed.

(** ** C4 *)

(** C4: for a reference that is not disposed, [deref()] called while the
    current isolate is the owning one returns the very value the reference
    names; called from any other isolate it throws the type error and returns
    nothing (the world is left as it was). *)
Theorem deref_owner_only `{Engine} (w : World) (this : nat) (data : ReferenceData.t)
    (v : Value) (maybe_options : MaybeLocal Value) (b : bool) :
  references w !! this = Some data ->
  ReferenceData.reference data = Some v ->
  option_read (trace w) maybe_options "release" = Some b ->
  (ReferenceData.isolate data = Some (current w) ->
   fst (ReferenceHandle.Deref this maybe_options w) = Ok v)
  /\ (ReferenceData.isolate data <> Some (current w) ->
      ReferenceHandle.Deref this maybe_options w
      = (Throw (js_type_error "Cannot dereference this from current isolate"), w)).
Proof.
  intros Hthis Hlive Hopt. split.
  - intros Hiso. now rewrite (Deref_owner w this data v Hthis Hlive maybe_options b Hiso Hopt).
  - eapply Deref_elsewhere; eassumption.
Qed.

Lemma deref_owner_only_witness :
  fst (ReferenceHandle.Deref (H := Scene.E) 1 None Scene.owner) = Ok (VObject 3)
  /\ ReferenceHandle.Deref (H := Scene.E) 1 None Scene.caller
     = (Throw (js_type_error "Cannot dereference this from current isolate"), Scene.caller).
Proof.
  split.
  - apply (proj1 (deref_owner_only (H := Scene.E) Scene.owner 1
                    (Scene.reference_to (VObject 3)) (VObject 3) None false
                    eq_refl eq_refl eq_refl)).
    reflexivity.
  - apply (proj2 (deref_owner_only (H := Scene.E) Scene.caller 1
                    (Scene.reference_to (VObject 3)) (VObject 3) None false
                    eq_refl eq_refl eq_refl)).
    discriminate.
Defined.

(** ** C9 *)

(** C9: with [options.release] set, [deref] and [derefInto] release the
    reference right after the result has been produced: the reference is
    empty when the call returns, while the capsule of [derefInto], not yet
    consumed, still holds the owning isolate and the value.  With the option
    absent or unset both leave every reference as it was. *)
Theorem release_option_releases_after_result `{Engine} (w : World) (this : nat)
    (data : ReferenceData.t) (v : Value) (maybe_options : MaybeLocal Value) (b : bool) :
  references w !! this = Some data ->
  ReferenceData.reference data = Some v ->
  option_read (trace w) maybe_options "release" = Some b ->
  let after_deref := ReferenceHandle.Deref this maybe_options w in
  let after_derefInto := ReferenceHandle.DerefInto this maybe_options w in
  let capsule := length (dereferences w) in
  (ReferenceData.isolate data = Some (current w) ->
   fst after_deref = Ok v
   /\ references (snd after_deref) !! this = Some (if b then released data else data)
   /\ (b = false -> references (snd after_deref) = references w))
  /\ fst after_derefInto = Ok (VDereference capsule)
  /\ dereferences (snd after_derefInto) !! capsule
     = Some {| DereferenceData.isolate := ReferenceData.isolate data;
               DereferenceData.reference := Some v |}
  /\ references (snd after_derefInto) !! this = Some (if b then released data else data)
  /\ (b = false -> references (snd after_derefInto) = references w).
Proof.
  intros Hthis Hlive Hopt after_deref after_derefInto capsule.
  assert (Hlen : this < length (references w)) by (eapply lookup_lt_Some; eassumption).
  split.
  - intros Hiso. subst after_deref.
    rewrite (Deref_owner w this data v Hthis Hlive maybe_options b Hiso Hopt).
    destruct b; simpl; rewrite ?after_read_references.
    + split; [reflexivity|]. split; [|discriminate].
      now apply list_lookup_insert_eq.
    + auto.
  - subst after_derefInto capsule.
    rewrite (DerefInto_live w this data v Hthis Hlive maybe_options b Hopt).
    destruct b; simpl; rewrite ?after_read_references, ?after_read_dereferences.
    + split; [reflexivity|]. split; [|split; [|discriminate]].
      * rewrite lookup_app_r by lia. now rewrite Nat.sub_diag.
      * now apply list_lookup_insert_eq.
    + split; [reflexivity|]. split; [|auto].
      rewrite lookup_app_r by lia. now rewrite Nat.sub_diag.
Qed.

Lemma release_option_releases_after_result_witness :
  references (snd (ReferenceHandle.DerefInto (H := Scene.E) 1 (Some (VObject 11)) Scene.caller)) !! 1
  = Some (released (Scene.reference_to (VObject 3)))
  /\ references (snd (ReferenceHandle.DerefInto (H := Scene.E) 1 None Scene.caller))
     = references Scene.caller.
Proof.
  split.
  - apply (release_option_releases_after_result (H := Scene.E) Scene.caller 1
             (Scene.reference_to (VObject 3)) (VObject 3) (Some (VObject 11)) true
             eq_refl eq_refl eq_refl).
  - apply (release_option_releases_after_result (H := Scene.E) Scene.caller 1
             (Scene.reference_to (VObject 3)) (VObject 3) None false
             eq_refl eq_refl eq_refl).
    reflexivity.
Defined.

(** ** The capsule of [derefInto()] *)

Lemma DereferenceHandle_TransferOut_fresh w d i v :
  dereferences w !! d
  = Some {| DereferenceData.isolate := i; DereferenceData.reference := Some v |} ->
  DereferenceHandle.TransferOut d w
  = (Ok (DereferenceHandleTransferable i (Some v)),
     set_dereferences (<[d := consumed]> (dereferences w)) w).
Proof.
  intros Hd. unfold DereferenceHandle.TransferOut, DereferenceHandle.load, bind.
  now rewrite Hd.
Qed.

Lemma DereferenceHandle_TransferOut_consumed w d i :
  dereferences w !! d
  = Some {| DereferenceData.isolate := i; DereferenceData.reference := None |} ->
  DereferenceHandle.TransferOut d w = (Throw reuse_error, w).
Proof.
  intros Hd. unfold DereferenceHandle.TransferOut, DereferenceHandle.load, bind.
  now rewrite Hd.
Qed.

Lemma TransferIn_capsule_owner `{Engine} (dest : World) v :
  Transferable.TransferIn (DereferenceHandleTransferable (Some (current dest)) (Some v)) dest
  = (Ok v, dest).
Proof.
  simpl. unfold DereferenceHandleTransferable.TransferIn, bind, GetCurrentHolder.
  now rewrite bool_decide_eq_true_2.
Qed.

Lemma TransferIn_capsule_elsewhere `{Engine} (dest : World) i r :
  i <> Some (current dest) ->
  Transferable.TransferIn (DereferenceHandleTransferable i r) dest
  = (Throw (js_type_error "Cannot dereference this into target isolate"), dest).
Proof.
  intros Hne. simpl. unfold DereferenceHandleTransferable.TransferIn, bind, GetCurrentHolder.
  now rewrite bool_decide_eq_false_2.
Qed.

(** Transferring a capsule in never raises the reuse error. *)
Lemma TransferIn_capsule_never_reuse_error `{Engine} (dest : World) i r :
  fst (Transferable.TransferIn (DereferenceHandleTransferable i r) dest) <> Throw reuse_error.
Proof.
  simpl. unfold DereferenceHandleTransferable.TransferIn, bind, GetCurrentHolder.
  case_bool_decide; [|discriminate].
  destruct r; discriminate.
Qed.

(** ** C5 *)

(** C5: the capsule [derefInto()] produces on a reference materializes in a
    destination isolate if and only if that isolate is the one owning the
    reference, and there it yields the referenced value; in any other isolate
    transferring it in throws the type error. *)
Theorem capsule_materializes_in_owner_only `{Engine} (w : World) (this : nat)
    (data : ReferenceData.t) (v : Value) (owner : IsolateHolder)
    (maybe_options : MaybeLocal Value) (b : bool) :
  references w !! this = Some data ->
  ReferenceData.reference data = Some v ->
  ReferenceData.isolate data = Some owner ->
  option_read (trace w) maybe_options "release" = Some b ->
  exists d t w2,
    fst (ReferenceHandle.DerefInto this maybe_options w) = Ok (VDereference d)
    /\ DereferenceHandle.TransferOut d (snd (ReferenceHandle.DerefInto this maybe_options w))
       = (Ok t, w2)
    /\ forall dest : World,
         ((exists x, fst (Transferable.TransferIn t dest) = Ok x) <-> current dest = owner)
         /\ (current dest = owner -> Transferable.TransferIn t dest = (Ok v, dest))
         /\ (current dest <> owner ->
             Transferable.TransferIn t dest
             = (Throw (js_type_error "Cannot dereference this into target isolate"), dest)).
Proof.
  intros Hthis Hlive Howner Hopt.
  destruct (DerefInto_capsule w this data v maybe_options b
              Hthis Hlive Hopt) as (Hfst & Hcap).
  rewrite Howner in Hcap.
  eexists _, _, _. split; [exact Hfst|]. split.
  - apply DereferenceHandle_TransferOut_fresh. exact Hcap.
  - intros dest.
    assert (Hin : current dest = owner ->
                  Transferable.TransferIn (DereferenceHandleTransferable (Some owner) (Some v)) dest
                  = (Ok v, dest)).
    { intros <-. apply TransferIn_capsule_owner. }
    assert (Hout : current dest <> owner ->
                   Transferable.TransferIn (DereferenceHandleTransferable (Some owner) (Some v)) dest
                   = (Throw (js_type_error "Cannot dereference this into target isolate"), dest)).
    { intros Hne. apply TransferIn_capsule_elsewhere. congruence. }
    split; [|split; assumption]. split.
    + intros [x Hx]. destruct (decide (current dest = owner)) as [|Hne]; [assumption|].
      rewrite (Hout Hne) in Hx. discriminate.
    + intros Heq. exists v. now rewrite (Hin Heq).
Qed.

Lemma capsule_materializes_in_owner_only_witness :
  exists d t w2,
    fst (ReferenceHandle.DerefInto (H := Scene.E) 1 None Scene.caller) = Ok (VDereference d)
    /\ DereferenceHandle.TransferOut d (snd (ReferenceHandle.DerefInto (H := Scene.E) 1 None Scene.caller))
       = (Ok t, w2)
    /\ forall dest : World,
         ((exists x, fst (Transferable.TransferIn (H := Scene.E) t dest) = Ok x) <-> current dest = 2)
         /\ (current dest = 2 -> Transferable.TransferIn (H := Scene.E) t dest = (Ok (VObject 3), dest))
         /\ (current dest <> 2 ->
             Transferable.TransferIn (H := Scene.E) t dest
             = (Throw (js_type_error "Cannot dereference this into target isolate"), dest)).
Proof.
  exact (capsule_materializes_in_owner_only (H := Scene.E) Scene.caller 1
           (Scene.reference_to (VObject 3)) (VObject 3) 2 None false
           eq_refl eq_refl eq_refl eq_refl).
Defined.

(** ** C3 *)




(** ** Operations on a released reference *)

Lemma Run_phase1_throws `{Engine} {T} (Phase2 : T -> M T) (Phase2Async : nat -> T -> M (bool * T))
    (Phase3 : T -> M Value) (parked : T -> M T) async second_isolate wait
    (construct : M T) w e w' :
  construct w = (Throw e, w') ->
  ThreePhaseTask.Run Phase2 Phase2Async Phase3 parked async second_isolate wait construct w
  = (Throw e, w').
Proof. intros Hc. unfold ThreePhaseTask.Run. now apply bind_throw. Qed.

Section Released.
Context `{Engine}.
Variables (w : World) (this : nat) (data : ReferenceData.t).
Hypothesis Hthis : references w !! this = Some data.
Hypothesis Hreleased : ReferenceData.reference data = None.

Lemma released_check : ReferenceHandle.CheckDisposed this w = (Throw disposed_error, w).
Proof. now apply CheckDisposed_released with (data := data). Qed.

Lemma TypeOfGetter_released :
  ReferenceHandle.TypeOfGetter this w = (Throw disposed_error, w).
Proof. unfold ReferenceHandle.TypeOfGetter. apply bind_throw, released_check. Qed.

Lemma Deref_released maybe_options :
  ReferenceHandle.Deref this maybe_options w = (Throw disposed_error, w).
Proof. unfold ReferenceHandle.Deref. apply bind_throw, released_check. Qed.

Lemma DerefInto_released maybe_options :
  ReferenceHandle.DerefInto this maybe_options w = (Throw disposed_error, w).
Proof. unfold ReferenceHandle.DerefInto. apply bind_throw, released_check. Qed.

Lemma Release_released :
  ReferenceHandle.Release this w = (Throw disposed_error, w).
Proof. unfold ReferenceHandle.Release. apply bind_throw, released_check. Qed.

Lemma Copy_released async :
  ReferenceHandle_Copy async this w = (Throw disposed_error, w).
Proof.
  unfold ReferenceHandle_Copy. rewrite (bind_ok _ _ _ _ _ (load_ok w this data Hthis)).
  apply Run_phase1_throws. unfold CopyRunner.New. apply bind_throw, released_check.
Qed.

Lemma Apply_released async recv_handle maybe_arguments maybe_options wait settlement :
  ReferenceHandle_Apply async this recv_handle maybe_arguments maybe_options wait settlement w
  = (Throw disposed_error, w).
Proof.
  unfold ReferenceHandle_Apply. rewrite (bind_ok _ _ _ _ _ (load_ok w this data Hthis)).
  apply Run_phase1_throws. unfold ApplyRunner.New.
  rewrite (bind_ok _ _ _ _ _ (load_ok w this data Hthis)). apply bind_throw, released_check.
Qed.

(** [get] reads its transfer options first; [set] also transfers its value
    out first.  When these steps succeed, the disposed error follows. *)
Lemma Get_released async key_handle maybe_options options w1 :
  Transferable.Options_of_maybe maybe_options Options.Reference w = (Ok options, w1) ->
  references w1 = references w ->
  ReferenceHandle_Get async this key_handle maybe_options w = (Throw disposed_error, w1).
Proof.
  intros Hopt Hrefs.
  unfold ReferenceHandle_Get. rewrite (bind_ok _ _ _ _ _ (load_ok w this data Hthis)).
  apply Run_phase1_throws. unfold GetRunner.New.
  rewrite (bind_ok _ _ _ _ _ (load_ok w this data Hthis)).
  rewrite (bind_ok _ _ _ _ _ Hopt).
  apply bind_throw. apply CheckDisposed_released with (data := data); [|assumption].
  now rewrite Hrefs.
Qed.

Lemma Set_released async key_handle val_handle maybe_options options w1 val w2 :
  Transferable.Options_of_maybe maybe_options Options.None_ w = (Ok options, w1) ->
  Transferable.TransferOut val_handle options w1 = (Ok val, w2) ->
  references w2 = references w ->
  ReferenceHandle_Set async this key_handle val_handle maybe_options w
  = (Throw disposed_error, w2).
Proof.
  intros Hopt Hval Hrefs.
  assert (Hthis2 : references w2 !! this = Some data) by now rewrite Hrefs.
  unfold ReferenceHandle_Set. rewrite (bind_ok _ _ _ _ _ (load_ok w this data Hthis)).
  apply Run_phase1_throws. unfold SetRunner.New.
  rewrite (bind_ok _ _ _ _ _ Hopt).
  rewrite (bind_ok _ _ _ _ _ Hval).
  rewrite (bind_ok _ _ _ _ _ (load_ok w2 this data Hthis2)).
  apply bind_throw. now apply CheckDisposed_released with (data := data).
Qed.

(** When the transfer of the value fails, [set] reports that failure and
    never reaches the check. *)
Lemma Set_released_transfer_fails async key_handle val_handle e w1 :
  Transferable.TransferOut val_handle Options.default w = (Throw e, w1) ->
  ReferenceHandle_Set async this key_handle val_handle None w = (Throw e, w1).
Proof.
  intros Hval.
  unfold ReferenceHandle_Set. rewrite (bind_ok _ _ _ _ _ (load_ok w this data Hthis)).
  apply Run_phase1_throws. unfold SetRunner.New. simpl.
  unfold bind at 1. unfold pure at 1.
  now apply bind_throw.
Qed.
End Released.

(** ** C1 *)

(** C1, at the failing input: reference 1 has been released, yet
    [r1.setSync("x", c)] with the used-up capsule [c] throws the capsule's
    reuse error, not "Reference has been released": [SetRunner] transfers the
    value out in its member initializers, before its body checks for
    disposal. *)
Theorem set_after_release_reports_transfer_error :
  references released_scene !! 1 = Some (released (Scene.reference_to (VObject 3)))
  /\ ReferenceHandle_Set (H := Scene.E) ThreePhaseTask.Sync 1 (VString "x") (VDereference 0) None
       released_scene
     = (Throw reuse_error, released_scene)
  /\ reuse_error <> disposed_error.
Proof.
  split; [reflexivity|]. split; [|discriminate].
  apply Set_released_transfer_fails with (data := released (Scene.reference_to (VObject 3))).
  - reflexivity.
  - reflexivity.
Qed.

(** ** What a transfer leaves alone *)

Lemma bind_inv_ok {S A B} (m : StateErr S A) (k : A -> StateErr S B) w b w' :
  bind m k w = (Ok b, w') -> exists a w1, m w = (Ok a, w1) /\ k a w1 = (Ok b, w').
Proof.
  unfold bind. destruct (m w) as [[a|e] w1]; [eauto|discriminate].
Qed.

Lemma TransferIn_trace `{Engine} t w :
  trace (snd (Transferable.TransferIn t w)) = trace w.
Proof.
  destruct t as [i r|data|copy]; simpl.
  - unfold DereferenceHandleTransferable.TransferIn, bind, GetCurrentHolder.
    case_bool_decide; [destruct r|]; reflexivity.
  - reflexivity.
  - destruct copy; reflexivity.
Qed.

Lemma TransferIn_flags `{Engine} t w :
  flags (snd (Transferable.TransferIn t w)) = flags w.
Proof.
  destruct t as [i r|data|copy]; simpl.
  - unfold DereferenceHandleTransferable.TransferIn, bind, GetCurrentHolder.
    case_bool_decide; [destruct r|]; reflexivity.
  - reflexivity.
  - destruct copy; reflexivity.
Qed.

Lemma same_but_dereferences_refl w : same_but_dereferences w w.
Proof. repeat split. Qed.

Lemma DereferenceHandle_TransferOut_frame d w :
  same_but_dereferences w (snd (DereferenceHandle.TransferOut d w)).
Proof.
  unfold DereferenceHandle.TransferOut, DereferenceHandle.load, bind.
  destruct (dereferences w !! d) as [[i [v|]]|]; simpl; repeat split.
Qed.

Lemma TransferWithType_frame `{Engine} value type w :
  snd (Transferable.TransferWithType value type w) = w.
Proof.
  destruct type; simpl; try reflexivity.
  unfold bind, ExternalCopy.Copy.
  destruct (ExternalCopy.CopyIfPrimitive value); simpl; [reflexivity|].
  destruct (ExternalCopy_Copy (trace w) value); reflexivity.
Qed.

Lemma TransferOut_frame `{Engine} value options w :
  same_but_dereferences w (snd (Transferable.TransferOut value options w)).
Proof.
  unfold Transferable.TransferOut.
  assert (Hwith : forall type,
    same_but_dereferences w
      (snd (bind (Transferable.TransferWithType value type)
              (fun copy => match copy with
                           | Some t => pure t
                           | None => throw (js_type_error "A non-transferable value was passed")
                           end) w))).
  { intros type. unfold bind.
    pose proof (TransferWithType_frame value type w) as Hw.
    destruct (Transferable.TransferWithType value type w) as [[[t|]|e] w1];
      simpl in *; subst; apply same_but_dereferences_refl. }
  destruct (Options.type options); [|apply Hwith|apply Hwith].
  destruct value; try (destruct (ExternalCopy.CopyIfPrimitive _) eqn:Hp;
    [unfold bind; simpl; apply same_but_dereferences_refl|apply Hwith]).
  - unfold bind, ReferenceHandle.TransferOut, ReferenceHandle.load, bind.
    destruct (references w !! r); simpl; apply same_but_dereferences_refl.
  - unfold bind at 1. unfold bind at 1.
    pose proof (DereferenceHandle_TransferOut_frame d w) as Hd.
    destruct (DereferenceHandle.TransferOut d w) as [[t|e] w1]; exact Hd.
Qed.

(** ** [set], from the call to its result *)

(** Reading the transfer options adds reads to the trace and changes nothing
    else. *)
Lemma Options_of_maybe_frame `{Engine} maybe_options fallback w :
  let w0 := snd (Transferable.Options_of_maybe maybe_options fallback w) in
  current w0 = current w /\ current_context w0 = current_context w
  /\ references w0 = references w.
Proof.
  destruct maybe_options as [handle|]; simpl; [|now repeat split].
  unfold Transferable.Options_of, IsOptionSet, Get, bind.
  destruct (Object_Get (trace w) handle (v8_string "copy")) as [copy|]; simpl;
    [|now repeat split].
  destruct (Object_Get _ handle (v8_string "reference")) as [reference|]; simpl;
    now repeat split.
Qed.

(** Phase 1 of [set] on a live reference, once the value has been transferred
    out: the task holds a copy of the key, the capsule of the value and the
    handles of the reference. *)
Lemma SetRunner_New_ok `{Engine} w this data v key_handle val_handle maybe_options
    options w0 val w1 :
  references w !! this = Some data ->
  ReferenceData.reference data = Some v ->
  IsPrimitive key_handle = true ->
  Transferable.Options_of_maybe maybe_options Options.None_ w = (Ok options, w0) ->
  Transferable.TransferOut val_handle options w0 = (Ok val, w1) ->
  SetRunner.New this key_handle val_handle maybe_options w
  = (Ok {| SetRunner.key := Some (ExternalCopyPrimitive key_handle);
           SetRunner.val := Some val;
           SetRunner.context := ReferenceData.context data;
           SetRunner.reference := Some v;
           SetRunner.did_set := false |}, w1)
  /\ current w1 = current w /\ current_context w1 = current_context w
  /\ references w1 = references w.
Proof.
  intros Hthis Hlive Hkey Hopt Hout.
  assert (Hsame : current w1 = current w /\ current_context w1 = current_context w
                  /\ references w1 = references w).
  { pose proof (Options_of_maybe_frame maybe_options Options.None_ w) as H0.
    pose proof (TransferOut_frame val_handle options w0) as H1.
    rewrite Hopt in H0. rewrite Hout in H1. simpl in H0, H1.
    destruct H0 as (? & ? & ?), H1 as (? & ? & ? & ? & ?).
    repeat split; congruence. }
  split; [|exact Hsame].
  assert (Hthis1 : references w1 !! this = Some data).
  { destruct Hsame as (_ & _ & Hrefs). now rewrite Hrefs. }
  unfold SetRunner.New.
  rewrite (bind_ok _ _ _ _ _ Hopt), (bind_ok _ _ _ _ _ Hout).
  rewrite (bind_ok _ _ _ _ _ (load_ok w1 this data Hthis1)).
  rewrite (bind_ok _ _ _ _ _ (CheckDisposed_live w1 this data Hthis1 v Hlive)).
  unfold ExternalCopy.CopyIfPrimitive. rewrite Hkey. now rewrite Hlive.
Qed.

(** What [Run] makes of the outcome of phase 2 of [set], in each mode. *)
Lemma Set_delivers `{Engine} async w this data target key_handle val_handle maybe_options
    self w1 r2 w2 :
  references w !! this = Some data ->
  ReferenceData.isolate data = Some target ->
  SetRunner.New this key_handle val_handle maybe_options w = (Ok self, w1) ->
  ThreePhaseTask.in_isolate target (SetRunner.Phase2 self) w1 = (r2, w2) ->
  ReferenceHandle_Set async this key_handle val_handle maybe_options w
  = (delivered async match r2 with
                     | Ok self' => Ok (VBoolean (SetRunner.did_set self'))
                     | Throw e => Throw e
                     end, w2).
Proof.
  intros Hthis Hiso Hnew Hp2.
  unfold ReferenceHandle_Set. rewrite (bind_ok _ _ _ _ _ (load_ok w this data Hthis)).
  unfold ThreePhaseTask.Run. rewrite (bind_ok _ _ _ _ _ Hnew). rewrite Hiso.
  unfold deref_ptr at 1. unfold bind at 1. unfold pure at 1.
  destruct async; simpl delivered.
  - destruct r2 as [self'|e].
    + now rewrite (bind_ok _ _ _ _ _ Hp2).
    + now rewrite (bind_throw _ _ _ _ _ Hp2).
  - destruct r2 as [self'|e].
    + now rewrite (bind_ok _ _ _ _ _ Hp2).
    + now rewrite (bind_throw _ _ _ _ _ Hp2).
  - now rewrite Hp2.
  - assert (Hp : ThreePhaseTask.in_isolate target
                   (Phase2Async_default SetRunner.Phase2 0 self) w1
                 = (match r2 with
                    | Ok self' => Ok (false, self')
                    | Throw e => Throw e
                    end, w2)).
    { unfold ThreePhaseTask.in_isolate in *. unfold Phase2Async_default, bind.
      destruct (SetRunner.Phase2 self _) as [[self'|e] w'].
      - injection Hp2 as <- <-. reflexivity.
      - injection Hp2 as <- <-. reflexivity. }
    destruct r2 as [self'|e].
    + now rewrite (bind_ok _ _ _ _ _ Hp).
    + now rewrite (bind_throw _ _ _ _ _ Hp).
Qed.

(** Phase 2 of [set], run in the isolate of the reference, on a value that is
    no object: it stops in [Delete], and the caller's world is as phase 1 left
    it. *)
Lemma Set_Phase2_non_object `{Engine} self target w key c value :
  SetRunner.key self = Some (ExternalCopyPrimitive key) ->
  SetRunner.context self = Some c ->
  SetRunner.reference self = Some value ->
  IsObject value = false ->
  ThreePhaseTask.in_isolate target (SetRunner.Phase2 self) w = (Throw unchecked_cast, w).
Proof.
  intros Hkey Hctx Href Hobj.
  unfold ThreePhaseTask.in_isolate, SetRunner.Phase2. rewrite Hctx, Hkey, Href.
  unfold ivm_Deref, deref_ptr. unfold bind at 1. unfold pure at 1.
  unfold Context_Scope.
  unfold bind at 1. unfold pure at 1.
  unfold bind at 1. simpl ExternalCopy.CopyInto. unfold pure at 1.
  unfold bind at 1. unfold pure at 1.
  unfold bind at 1. unfold Delete at 1. rewrite Hobj.
  now destruct w.
Qed.

(** Phase 2 of [set], run in the isolate of the reference, on an object. *)
Lemma Set_Phase2_object `{Engine} self target w key val c object deleted val_inner w2 b :
  SetRunner.key self = Some (ExternalCopyPrimitive key) ->
  SetRunner.val self = Some val ->
  SetRunner.context self = Some c ->
  SetRunner.reference self = Some object ->
  IsObject object = true ->
  Object_Delete (trace w) object key = Some deleted ->
  Transferable.TransferIn val (log (EvDelete object key (Some deleted)) (set_current target c w))
  = (Ok val_inner, w2) ->
  Object_Set (trace w2) object key val_inner = Some b ->
  ThreePhaseTask.in_isolate target (SetRunner.Phase2 self) w
  = (Ok {| SetRunner.key := SetRunner.key self; SetRunner.val := SetRunner.val self;
           SetRunner.context := SetRunner.context self;
           SetRunner.reference := SetRunner.reference self; SetRunner.did_set := b |},
     set_current (current w) (current_context w)
       (log (EvSet object key val_inner (Some b)) w2)).
Proof.
  intros Hkey Hval Hctx Href Hobj Hdel Hin Hset.
  unfold ThreePhaseTask.in_isolate, SetRunner.Phase2. rewrite Hctx, Hkey, Hval, Href.
  unfold ivm_Deref, deref_ptr. unfold bind at 1. unfold pure at 1.
  unfold Context_Scope.
  unfold bind at 1. unfold pure at 1.
  unfold bind at 1. simpl ExternalCopy.CopyInto. unfold pure at 1.
  unfold bind at 1. unfold pure at 1.
  unfold bind at 1. unfold Delete at 1. rewrite Hobj. simpl trace. rewrite Hdel. simpl Unmaybe.
  unfold pure at 1.
  unfold bind at 1. unfold pure at 1.
  unfold bind at 1.
  change (set_current target c (set_current target (DefaultContext target) w))
    with (set_current target c w).
  rewrite Hin.
  unfold bind at 1. unfold Set_. rewrite Hset. simpl Unmaybe. unfold pure.
  reflexivity.
Qed.

(** ** C6 *)

(** C6, where the code leaves the claim: [set] on a live reference to a
    value that is no object, as [new Reference(5)] makes one.  Phase 1 succeeds
    as for any reference.  Phase 2 casts the value to an object without a
    check and calls [Delete] on it, which is undefined: nothing is deleted,
    nothing is set and no boolean comes back.  ([ApplyRunner::Phase2] tests
    [IsFunction] before its cast; [SetRunner::Phase2] has no such test.) *)
Theorem set_on_a_non_object_is_undefined `{Engine} (async : ThreePhaseTask.Mode) (w : World)
    (this : nat) (data : ReferenceData.t) (target : IsolateHolder) (c : Context)
    (value key_handle val_handle : Value) (maybe_options : MaybeLocal Value)
    (options : Options.t) (w0 : World) (val : Transferable) (w1 : World) :
  references w !! this = Some data ->
  ReferenceData.isolate data = Some target ->
  ReferenceData.context data = Some c ->
  ReferenceData.reference data = Some value ->
  IsObject value = false ->
  IsPrimitive key_handle = true ->
  Transferable.Options_of_maybe maybe_options Options.None_ w = (Ok options, w0) ->
  Transferable.TransferOut val_handle options w0 = (Ok val, w1) ->
  ReferenceHandle_Set async this key_handle val_handle maybe_options w
  = (delivered async (Throw unchecked_cast), w1)
  /\ trace w1 = trace w0.
Proof.
  intros Hthis Hiso Hctx Href Hobj Hkey Hopt Hout.
  destruct (SetRunner_New_ok w this data value key_handle val_handle maybe_options
              options w0 val w1 Hthis Href Hkey Hopt Hout) as [Hnew _].
  split.
  - rewrite (Set_delivers async w this data target key_handle val_handle maybe_options
               _ w1 (Throw unchecked_cast) w1 Hthis Hiso Hnew); [reflexivity|].
    apply Set_Phase2_non_object with (key := key_handle) (c := c) (value := value);
      [reflexivity|exact Hctx|reflexivity|exact Hobj].
  - pose proof (TransferOut_frame val_handle options w0) as H1.
    rewrite Hout in H1. now destruct H1 as (_ & _ & _ & _ & Htr).
Qed.

Lemma set_on_a_non_object_is_undefined_witness :
  references number_scene !! 3 = Some (Scene.reference_to (VNumber 5))
  /\ ReferenceHandle_Set (H := Scene.E) ThreePhaseTask.Sync 3 (VString "x") (VNumber 1) None
       number_scene
     = (Throw unchecked_cast, number_scene)
  /\ trace number_scene = [].
Proof.
  split; [reflexivity|].
  exact (set_on_a_non_object_is_undefined (H := Scene.E) ThreePhaseTask.Sync number_scene 3
           (Scene.reference_to (VNumber 5)) 2 20 (VNumber 5) (VString "x") (VNumber 1) None
           Options.default number_scene (primitive (VNumber 1)) number_scene
           eq_refl eq_refl eq_refl eq_refl eq_refl eq_refl eq_refl eq_refl).
Defined.

(** ** The arguments of [apply] *)

Section Externalize.
Context `{Engine}.
Variables (arguments : Value) (options : Options.t).

Lemma externalize_cons k keys ii w :
  ApplyRunner.externalize arguments options (k :: keys) ii w
  = match ToArrayIndex k with
    | None => (Throw js_runtime_error, w)
    | Some key =>
        if Nat.eqb key ii then
          match Get arguments (VNumber (Z.of_nat key)) w with
          | (Ok value, w2) =>
              match Transferable.TransferOut value options w2 with
              | (Ok a, w3) =>
                  match ApplyRunner.externalize arguments options keys (S ii) w3 with
                  | (Ok rest, w4) => (Ok (a :: rest), w4)
                  | (Throw e, w4) => (Throw e, w4)
                  end
              | (Throw e, w3) => (Throw e, w3)
              end
          | (Throw e, w2) => (Throw e, w2)
          end
        else (Throw invalid_arguments, w)
    end.
Proof.
  simpl. unfold bind at 1. destruct (ToArrayIndex k) as [key|]; simpl; [|reflexivity].
  destruct (Nat.eqb key ii); simpl; [|reflexivity].
  unfold bind. destruct (Get arguments (VNumber (Z.of_nat key)) w) as [[value|e] w2]; [|reflexivity].
  destruct (Transferable.TransferOut value options w2) as [[a|e] w3]; [|reflexivity].
  destruct (ApplyRunner.externalize arguments options keys (S ii) w3) as [[rest|e] w4]; reflexivity.
Qed.

Lemma externalize_ok_dense keys : forall ii w argv w',
  ApplyRunner.externalize arguments options keys ii w = (Ok argv, w') ->
  dense_from ii keys /\ length argv = length keys.
Proof.
  induction keys as [|k keys IH]; intros ii w argv w' Hok.
  - injection Hok as <- <-. split; [|reflexivity]. intros j key Hj. discriminate.
  - rewrite externalize_cons in Hok.
    destruct (ToArrayIndex k) as [key|] eqn:Hk; [|discriminate].
    destruct (Nat.eqb key ii) eqn:Heq; [|discriminate].
    apply Nat.eqb_eq in Heq. subst key.
    destruct (Get arguments (VNumber (Z.of_nat ii)) w) as [[value|e] w2]; [|discriminate].
    destruct (Transferable.TransferOut value options w2) as [[a|e] w3]; [|discriminate].
    destruct (ApplyRunner.externalize arguments options keys (S ii) w3) as [[rest|e] w4] eqn:Hrest;
      [|discriminate].
    injection Hok as <- <-.
    destruct (IH _ _ _ _ Hrest) as [Hdense Hlen]. split.
    + intros [|j] key Hj.
      * injection Hj as <-. now rewrite Nat.add_0_r.
      * simpl in Hj. rewrite (Hdense j key Hj). f_equal. lia.
    + simpl. now rewrite Hlen.
Qed.

Lemma dense_from_cons ii k keys :
  dense_from ii (k :: keys) -> ToArrayIndex k = Some ii /\ dense_from (S ii) keys.
Proof.
  intros Hd. split.
  - rewrite (Hd 0 k eq_refl). f_equal. lia.
  - intros j key Hj. rewrite (Hd (S j) key Hj). f_equal. lia.
Qed.

Lemma externalize_dense_in_order keys : forall ii w,
  dense_from ii keys ->
  ApplyRunner.externalize arguments options keys ii w
  = transfer_out_each arguments options (seq ii (length keys)) w.
Proof.
  induction keys as [|k keys IH]; intros ii w Hd; [reflexivity|].
  destruct (dense_from_cons _ _ _ Hd) as [Hk Hrest].
  rewrite externalize_cons, Hk, Nat.eqb_refl. simpl. unfold bind.
  destruct (Get arguments (VNumber (Z.of_nat ii)) w) as [[value|e] w2]; [|reflexivity].
  destruct (Transferable.TransferOut value options w2) as [[a|e] w3]; [|reflexivity].
  now rewrite (IH (S ii) w3 Hrest).
Qed.

Lemma externalize_app pre rest : forall ii w argv w1,
  ApplyRunner.externalize arguments options pre ii w = (Ok argv, w1) ->
  ApplyRunner.externalize arguments options (pre ++ rest) ii w
  = prepend argv (ApplyRunner.externalize arguments options rest (ii + length pre) w1).
Proof.
  induction pre as [|k pre IH]; intros ii w argv w1 Hok.
  - injection Hok as <- <-. cbn [app length]. rewrite Nat.add_0_r.
    now destruct (ApplyRunner.externalize arguments options rest ii w) as [[r|e] w2].
  - rewrite externalize_cons in Hok. cbn [app length]. rewrite externalize_cons.
    destruct (ToArrayIndex k) as [key0|] eqn:Hk; [|discriminate].
    destruct (Nat.eqb key0 ii) eqn:Heq; [|discriminate].
    destruct (Get arguments (VNumber (Z.of_nat key0)) w) as [[value|e] w2]; [|discriminate].
    destruct (Transferable.TransferOut value options w2) as [[a|e] w3]; [|discriminate].
    destruct (ApplyRunner.externalize arguments options pre (S ii) w3) as [[r|e] w4] eqn:Hrest;
      [|discriminate].
    injection Hok as <- <-.
    rewrite (IH (S ii) w3 r w4 Hrest).
    replace (ii + S (length pre)) with (S ii + length pre) by lia.
    now destruct (ApplyRunner.externalize arguments options rest (S ii + length pre) w4)
      as [[r2|e2] w6].
Qed.

Lemma externalize_gap pre key post ii w argv w1 m :
  ApplyRunner.externalize arguments options pre ii w = (Ok argv, w1) ->
  ToArrayIndex key = Some m ->
  m <> ii + length pre ->
  ApplyRunner.externalize arguments options (pre ++ key :: post) ii w
  = (Throw invalid_arguments, w1).
Proof.
  intros Hok Hk Hne.
  rewrite (externalize_app pre (key :: post) ii w argv w1 Hok).
  rewrite externalize_cons, Hk.
  apply Nat.eqb_neq in Hne. now rewrite Hne.
Qed.

Lemma externalize_non_index pre key post ii w argv w1 :
  ApplyRunner.externalize arguments options pre ii w = (Ok argv, w1) ->
  ToArrayIndex key = None ->
  ApplyRunner.externalize arguments options (pre ++ key :: post) ii w
  = (Throw js_runtime_error, w1).
Proof.
  intros Hok Hk.
  rewrite (externalize_app pre (key :: post) ii w argv w1 Hok).
  now rewrite externalize_cons, Hk.
Qed.
End Externalize.

(** Phase 1 of [apply] with an arguments collection is what comes before the
    loop, then the loop. *)
Lemma New_until_arguments `{Engine} that recv_handle arguments maybe_options w opts keys w3 :
  until_arguments that recv_handle arguments maybe_options w = (Ok (opts, keys), w3) ->
  exists that_ recv,
    references w !! that = Some that_
    /\ ApplyRunner.New that recv_handle (Some arguments) maybe_options w
       = (do argv <- ApplyRunner.externalize arguments (snd (fst opts)) keys 0;;
          pure {| ApplyRunner.argv := argv;
                  ApplyRunner.context := ReferenceData.context that_;
                  ApplyRunner.reference := ReferenceData.reference that_;
                  ApplyRunner.recv := recv; ApplyRunner.ret := None;
                  ApplyRunner.timeout := fst (fst opts); ApplyRunner.did_finish := None;
                  ApplyRunner.return_transfer_options := snd opts;
                  ApplyRunner.async_error := None; ApplyRunner.async_wait := None |}) w3.
Proof.
  unfold until_arguments. intros Hpre.
  apply bind_inv_ok in Hpre as (that_ & w1 & Hload & Hpre).
  apply bind_inv_ok in Hpre as (u & w2 & Hcheck & Hpre).
  apply bind_inv_ok in Hpre as (recv & w5 & Hrecv & Hpre).
  apply bind_inv_ok in Hpre as (opts' & w6 & Hopts & Hpre).
  apply bind_inv_ok in Hpre as (keys' & w7 & Hkeys & Hpre).
  injection Hpre as -> -> ->.
  exists that_, recv. split.
  - unfold ReferenceHandle.load, deref_ptr in Hload.
    destruct (references w !! that); [|discriminate]. now injection Hload as ->.
  - unfold ApplyRunner.New.
    rewrite (bind_ok _ _ _ _ _ Hload). destruct u.
    rewrite (bind_ok _ _ _ _ _ Hcheck), (bind_ok _ _ _ _ _ Hrecv), (bind_ok _ _ _ _ _ Hopts).
    unfold bind at 1. unfold bind at 1. rewrite Hkeys. reflexivity.
Qed.

(** Whatever phase 1 of [apply] throws is thrown to the caller as it is, in
    every mode. *)
Lemma Apply_phase1_throws `{Engine} async that that_ recv_handle maybe_arguments maybe_options
    wait settlement w e w' :
  references w !! that = Some that_ ->
  ApplyRunner.New that recv_handle maybe_arguments maybe_options w = (Throw e, w') ->
  ReferenceHandle_Apply async that recv_handle maybe_arguments maybe_options wait settlement w
  = (Throw e, w').
Proof.
  intros Hthat Hnew. unfold ReferenceHandle_Apply.
  rewrite (bind_ok _ _ _ _ _ (load_ok w that that_ Hthat)).
  now apply Run_phase1_throws.
Qed.

(** ** C7 *)

(** C7, where the code leaves the claim.  Phase 1 of [apply] has got through
    the own property names [pre] of the arguments, which are the indices
    0..|pre|-1, and comes to [key].  When [key] is an array index that is not
    at its own position, a gap, the call throws the type error "Invalid
    `arguments` array", as the claim says.  When [key] is no array index, the
    loop never reaches that test: [ToArrayIndex] has no result, no exception
    is pending, and [Unmaybe] throws the runtime error instead of the type
    error.  Both are thrown synchronously, in every mode. *)
Theorem non_index_key_misses_the_type_error `{Engine} (async : ThreePhaseTask.Mode)
    (that : nat) (recv_handle : MaybeLocal Value) (arguments : Value)
    (maybe_options : MaybeLocal Value) (wait : nat) (settlement : option (list Value))
    (w : World) (opts : Z * Options.t * Options.t) (pre : list Value) (key : Value)
    (post : list Value) (w3 : World) (argv : list Transferable) (w4 : World) :
  until_arguments that recv_handle arguments maybe_options w
  = (Ok (opts, pre ++ key :: post), w3) ->
  dense_from 0 pre ->
  transfer_out_each arguments (snd (fst opts)) (seq 0 (length pre)) w3 = (Ok argv, w4) ->
  (ToArrayIndex key = None ->
   ReferenceHandle_Apply async that recv_handle (Some arguments) maybe_options wait settlement w
   = (Throw js_runtime_error, w4))
  /\ (forall m, ToArrayIndex key = Some m -> m <> length pre ->
      ReferenceHandle_Apply async that recv_handle (Some arguments) maybe_options wait
        settlement w
      = (Throw invalid_arguments, w4)).
Proof.
  intros Hpre Hdense Hout.
  destruct (New_until_arguments _ _ _ _ _ _ _ _ Hpre) as (that_ & recv & Hthat & Hnew).
  rewrite <- (externalize_dense_in_order arguments (snd (fst opts)) pre 0 w3 Hdense) in Hout.
  split.
  - intros Hk. apply Apply_phase1_throws with (that_ := that_); [exact Hthat|].
    rewrite Hnew. apply bind_throw.
    now apply externalize_non_index with (argv := argv).
  - intros m Hk Hne. apply Apply_phase1_throws with (that_ := that_); [exact Hthat|].
    rewrite Hnew. apply bind_throw.
    now apply externalize_gap with (argv := argv) (m := m).
Qed.

Lemma non_index_key_misses_the_type_error_witness :
  Object_GetOwnPropertyNames (Engine := Scene.E) [] (VObject 7)
  = Some [VNumber 0; VString "foo"]
  /\ ReferenceHandle_Apply (H := Scene.E) ThreePhaseTask.Sync 0 (Some VUndefined)
       (Some (VObject 7)) None 0 None Scene.caller
     = (Throw js_runtime_error,
        log (EvGet (VObject 7) (VNumber 0) (Some (VNumber 10)))
          (log (EvGetOwnPropertyNames (VObject 7) (Some [VNumber 0; VString "foo"]))
             Scene.caller))
  /\ js_runtime_error <> invalid_arguments.
Proof.
  split; [reflexivity|]. split; [|discriminate].
  apply (proj1 (non_index_key_misses_the_type_error (H := Scene.E) ThreePhaseTask.Sync 0
                  (Some VUndefined) (VObject 7) None 0 None Scene.caller
                  (0%Z, Options.default, Options.default) [VNumber 0] (VString "foo") []
                  (log (EvGetOwnPropertyNames (VObject 7) (Some [VNumber 0; VString "foo"]))
                     Scene.caller)
                  [primitive (VNumber 10)]
                  (log (EvGet (VObject 7) (VNumber 0) (Some (VNumber 10)))
                     (log (EvGetOwnPropertyNames (VObject 7)
                             (Some [VNumber 0; VString "foo"])) Scene.caller))
                  eq_refl
                  ltac:(intros [|j] k Hj; [injection Hj as <-; reflexivity|discriminate])
                  eq_refl)).
  reflexivity.
Defined.

(** ** C10 *)

Lemma Phase2Async_return_options `{Engine} wait self w :
  ApplyRunner.return_transfer_options self <> Options.default ->
  ApplyRunner.Phase2Async wait self w = (Throw return_options_error, w).
Proof.
  intros Hne. unfold ApplyRunner.Phase2Async, Options.eqb.
  now rewrite bool_decide_eq_false_2.
Qed.

(** C10: an [applySyncPromise] call whose [return] transfer options differ
    from the default ones gets through phase 1, and then fails with the type
    error as the first thing phase 2 does in the target isolate: nothing has
    been called there, and the world is the one phase 1 left. *)
Theorem applySyncPromise_return_options_fail_in_phase2 `{Engine} (this : nat)
    (recv_handle maybe_arguments maybe_options : MaybeLocal Value) (wait : nat)
    (settlement : option (list Value)) (w : World) (data : ReferenceData.t)
    (target : IsolateHolder) (self : ApplyRunner.t) (w1 : World) :
  references w !! this = Some data ->
  ReferenceData.isolate data = Some target ->
  ApplyRunner.New this recv_handle maybe_arguments maybe_options w = (Ok self, w1) ->
  ApplyRunner.return_transfer_options self <> Options.default ->
  (forall w2, ApplyRunner.Phase2Async wait self w2 = (Throw return_options_error, w2))
  /\ ReferenceHandle_Apply ThreePhaseTask.SyncPromise this recv_handle maybe_arguments
       maybe_options wait settlement w
     = (Throw return_options_error, w1).
Proof.
  intros Hthis Htarget Hnew Hne. split.
  - intros w2. now apply Phase2Async_return_options.
  - unfold ReferenceHandle_Apply.
    rewrite (bind_ok _ _ _ _ _ (load_ok w this data Hthis)).
    unfold ThreePhaseTask.Run.
    rewrite (bind_ok _ _ _ _ _ Hnew).
    rewrite Htarget. unfold deref_ptr. unfold bind at 1. unfold pure at 1.
    unfold bind at 1. unfold ThreePhaseTask.in_isolate.
    rewrite (Phase2Async_return_options wait self _ Hne).
    now destruct w1.
Qed.

Lemma applySyncPromise_return_options_fail_in_phase2_witness :
  fst (ReferenceHandle_Apply (H := Scene.E) ThreePhaseTask.SyncPromise 0 (Some VUndefined) None
         (Some (VObject 8)) 0 None Scene.caller)
  = Throw return_options_error.
Proof.
  destruct (ApplyRunner.New (H := Scene.E) 0 (Some VUndefined) None (Some (VObject 8)) Scene.caller)
    as [[self|e] w1] eqn:Hnew; [|vm_compute in Hnew; discriminate].
  rewrite (proj2 (applySyncPromise_return_options_fail_in_phase2 (H := Scene.E) 0
                    (Some VUndefined) None (Some (VObject 8)) 0 None Scene.caller
                    (Scene.reference_to (VFunction 0)) 2 self w1 eq_refl eq_refl Hnew
                    ltac:(vm_compute in Hnew; injection Hnew as <- _; discriminate))).
  reflexivity.
Defined.

(** ** The completion flag of [applySyncPromise] *)

Lemma stores_app p tr tr' : stores p (tr ++ tr') = stores p tr + stores p tr'.
Proof. unfold stores. now rewrite List.filter_app, length_app. Qed.

Section CompletionFlag.
Context `{Engine}.

Lemma read_flag_ok w p b : flags w !! p = Some b -> read_flag p w = (Ok b, w).
Proof. intros Hp. unfold read_flag. now rewrite Hp. Qed.

Lemma write_flag_true w p b : flags w !! p = Some b -> write_flag p true w = (Ok tt, flag_stored p w).
Proof. intros Hp. unfold write_flag. now rewrite (bind_ok _ _ _ _ _ (read_flag_ok w p b Hp)). Qed.

Lemma flag_stored_lookup w p b : flags w !! p = Some b -> flags (flag_stored p w) !! p = Some true.
Proof.
  intros Hp. simpl. apply list_lookup_insert_eq. eapply lookup_lt_Some; eassumption.
Qed.

Lemma store_outcome_ok info self_ w :
  exists self' w',
    store_outcome info self_ w = (Ok self', w')
    /\ same_but_dereferences w w'
    /\ ApplyRunner.did_finish self' = ApplyRunner.did_finish self_
    /\ ApplyRunner.async_wait self' = ApplyRunner.async_wait self_.
Proof.
  unfold store_outcome. destruct (Nat.eqb (info_Length info) 3).
  - unfold RunCatchExternal, bind.
    pose proof (TransferOut_frame (info_at info 2) Options.default w) as Hframe.
    destruct (Transferable.TransferOut (info_at info 2) Options.default w) as [[r|e] w'];
      simpl in Hframe; eexists _, _; (split; [reflexivity|]); auto.
  - unfold bind, ExternalCopy.CopyIfPrimitiveOrError.
    destruct (ExternalCopy.CopyIfPrimitive (info_at info 3));
      eexists _, _; (split; [reflexivity|]); split; auto using same_but_dereferences_refl.
Qed.

Lemma AsyncCallback_late info task w :
  flags w !! info_did_finish info = Some true ->
  ApplyRunner.AsyncCallback info task w = (Ok task, w).
Proof.
  intros Hp. unfold ApplyRunner.AsyncCallback.
  now rewrite (bind_ok _ _ _ _ _ (read_flag_ok w _ true Hp)).
Qed.

Lemma AsyncCallback_first info self flag wait w :
  ApplyRunner.did_finish self = Some flag ->
  ApplyRunner.async_wait self = Some wait ->
  info_did_finish info = flag ->
  flags w !! flag = Some false ->
  exists self' w',
    store_outcome info self w = (Ok self', w')
    /\ same_but_dereferences w w'
    /\ ApplyRunner.did_finish self' = Some flag
    /\ ApplyRunner.AsyncCallback info (Some self) w
       = (Ok (Some self'), log (EvWake wait) (flag_stored flag w')).
Proof.
  intros Hflag Hwait Hinfo Hp.
  destruct (store_outcome_ok info self w) as (self' & w' & Hstore & Hframe & Hf & Hw).
  exists self', w'. split; [exact Hstore|]. split; [exact Hframe|].
  split; [congruence|].
  unfold ApplyRunner.AsyncCallback. rewrite Hinfo.
  rewrite (bind_ok _ _ _ _ _ (read_flag_ok w flag false Hp)).
  unfold deref_ptr at 1. unfold bind at 1. unfold pure at 1.
  change (bind ?m ?k w) with (bind (store_outcome info self) k w).
  rewrite (bind_ok _ _ _ _ _ Hstore).
  rewrite Hf, Hflag, Hw, Hwait.
  unfold deref_ptr. unfold bind at 1. unfold pure at 1.
  destruct Hframe as (_ & _ & _ & Hflags & _).
  assert (Hp' : flags w' !! flag = Some false) by now rewrite Hflags.
  rewrite (bind_ok _ _ _ _ _ (write_flag_true w' flag false Hp')).
  reflexivity.
Qed.

Lemma Phase3_deadline self flag w :
  ApplyRunner.did_finish self = Some flag ->
  flags w !! flag = Some false ->
  ApplyRunner.Phase3 self w = (Throw timeout_error, flag_stored flag w).
Proof.
  intros Hflag Hp. unfold ApplyRunner.Phase3. rewrite Hflag.
  unfold bind at 1. unfold bind at 1.
  rewrite (read_flag_ok w flag false Hp). simpl.
  unfold bind at 1. unfold pure at 1.
  now rewrite (bind_ok _ _ _ _ _ (write_flag_true w flag false Hp)).
Qed.

Lemma Phase3_settled self flag w :
  ApplyRunner.did_finish self = Some flag ->
  flags w !! flag = Some true ->
  ApplyRunner.Phase3 self w = deliver_stored self w.
Proof.
  intros Hflag Hp. unfold ApplyRunner.Phase3. rewrite Hflag.
  unfold bind at 1. unfold bind at 1.
  rewrite (read_flag_ok w flag true Hp). reflexivity.
Qed.

Lemma deliver_stored_stores self p w :
  stores p (trace (snd (deliver_stored self w))) = stores p (trace w).
Proof.
  unfold deliver_stored. destruct (ApplyRunner.async_error self) as [error|].
  - unfold bind. destruct error; simpl; rewrite stores_app; unfold stores; simpl; lia.
  - unfold bind, deref_ptr. destruct (ApplyRunner.ret self) as [r|]; [|reflexivity].
    simpl. now rewrite TransferIn_trace.
Qed.
End CompletionFlag.

Lemma deliver_stored_flags `{Engine} self w :
  flags (snd (deliver_stored self w)) = flags w.
Proof.
  unfold deliver_stored. destruct (ApplyRunner.async_error self) as [error|].
  - unfold bind. now destruct error.
  - unfold bind, deref_ptr. destruct (ApplyRunner.ret self) as [r|]; [|reflexivity].
    simpl. now rewrite TransferIn_flags.
Qed.

(** ** The race between the deadline and the settlement *)

Lemma flag_race `{Engine} (self : ApplyRunner.t) (flag wait : nat)
    (info : FunctionCallbackInfo) (w : World) :
  ApplyRunner.did_finish self = Some flag ->
  ApplyRunner.async_wait self = Some wait ->
  info_did_finish info = flag ->
  flags w !! flag = Some false ->
  (exists w1,
     ApplyRunner.Phase3 self w = (Throw timeout_error, w1)
     /\ flags w1 !! flag = Some true
     /\ stores flag (trace w1) = S (stores flag (trace w))
     /\ forall task, ApplyRunner.AsyncCallback info task w1 = (Ok task, w1))
  /\ (exists self' w0 w1,
        store_outcome info self w = (Ok self', w0)
        /\ ApplyRunner.AsyncCallback info (Some self) w = (Ok (Some self'), w1)
        /\ flags w1 !! flag = Some true
        /\ stores flag (trace w1) = S (stores flag (trace w))
        /\ ApplyRunner.Phase3 self' w1 = deliver_stored self' w1
        /\ flags (snd (ApplyRunner.Phase3 self' w1)) = flags w1
        /\ stores flag (trace (snd (ApplyRunner.Phase3 self' w1))) = stores flag (trace w1)).
Proof.
  intros Hflag Hwait Hinfo Hp.
  assert (Hone : forall w0, trace w0 = trace w ->
                 stores flag (trace (flag_stored flag w0)) = S (stores flag (trace w))).
  { intros w0 Htr. simpl. rewrite stores_app, Htr. unfold stores at 2. simpl.
    rewrite Nat.eqb_refl. simpl. lia. }
  split.
  - exists (flag_stored flag w).
    split; [now apply Phase3_deadline|].
    split; [eapply flag_stored_lookup; eassumption|].
    split; [now apply Hone|].
    intros task. apply AsyncCallback_late. rewrite Hinfo.
    eapply flag_stored_lookup; eassumption.
  - destruct (AsyncCallback_first info self flag wait w Hflag Hwait Hinfo Hp)
      as (self' & w0 & Hstore & Hframe & Hflag' & Hcall).
    destruct Hframe as (_ & _ & _ & Hflags & Htrace).
    assert (Hp0 : flags w0 !! flag = Some false) by now rewrite Hflags.
    assert (Hset : flags (log (EvWake wait) (flag_stored flag w0)) !! flag = Some true).
    { simpl. apply list_lookup_insert_eq. eapply lookup_lt_Some; eassumption. }
    exists self', w0, (log (EvWake wait) (flag_stored flag w0)).
    split; [exact Hstore|]. split; [exact Hcall|]. split; [exact Hset|].
    split.
    { change (trace (log (EvWake wait) (flag_stored flag w0)))
        with (trace (flag_stored flag w0) ++ [EvWake wait]).
      rewrite stores_app, (Hone w0 Htrace). unfold stores at 2. simpl. lia. }
    rewrite (Phase3_settled self' flag _ Hflag' Hset).
    split; [reflexivity|].
    split; [apply deliver_stored_flags|apply deliver_stored_stores].
Qed.

Lemma Context_Scope_inv {A} c (body : M A) w r w' :
  Context_Scope c body w = (r, w') ->
  exists w2, body (set_current (current w) c w) = (r, w2)
             /\ w' = set_current (current w2) (current_context w) w2.
Proof.
  unfold Context_Scope.
  destruct (body (set_current (current w) c w)) as [r2 w2].
  intros [= <- <-]. now exists w2.
Qed.

(** When the call returns a promise, [Phase2Async] parks the task: it reports
    that it waits, and leaves a fresh, unset flag shared with the reactions. *)
Lemma Phase2Async_parks `{Engine} wait task w self w' :
  ApplyRunner.Phase2Async wait task w = (Ok (true, self), w') ->
  self = ApplyRunner.set_waiting (length (flags w' ) - 1) wait task
  /\ flags w' !! (length (flags w') - 1) = Some false
  /\ exists promise, last (trace w') = Some (EvThen promise (length (flags w') - 1))
                     /\ IsPromise promise = true.
Proof.
  unfold ApplyRunner.Phase2Async.
  destruct (negb (Options.eqb _ _)); [discriminate|].
  intros Hrun.
  apply bind_inv_ok in Hrun as (context_handle & w1 & _ & Hrun).
  apply Context_Scope_inv in Hrun as (w2 & Hrun & ->).
  apply bind_inv_ok in Hrun as (fn & w3 & _ & Hrun).
  destruct (negb (IsFunction fn)); [discriminate|].
  apply bind_inv_ok in Hrun as (recv_ & w4 & _ & Hrun).
  apply bind_inv_ok in Hrun as (recv_inner & w5 & _ & Hrun).
  apply bind_inv_ok in Hrun as (argv_inner & w6 & _ & Hrun).
  apply bind_inv_ok in Hrun as (value & w7 & _ & Hrun).
  destruct (IsPromise value) eqn:Hpromise.
  - unfold bind, make_shared_bool, ApplyRunner.call_async_wrapper, modify, pure in Hrun.
    injection Hrun as <- <-. simpl.
    rewrite length_app. simpl.
    replace (length (flags w7) + 1 - 1) with (length (flags w7)) by lia.
    split; [reflexivity|]. split.
    + rewrite lookup_app_r by lia. now rewrite Nat.sub_diag.
    + exists value. split; [|exact Hpromise]. now rewrite last_snoc.
  - apply bind_inv_ok in Hrun as (r & w8 & _ & Hrun). discriminate.
Qed.

(** ** C2 *)

(** C2: while a promise-awaiting apply is parked with its completion flag
    unset, whichever of the deadline and the settlement comes first stores the
    flag, and nothing stores it again.  If the deadline comes first, phase 3
    throws "Script execution timed out." and a settlement arriving afterwards
    finds the flag set and changes nothing, whether the task is still there or
    not.  If the settlement comes first, it stores its outcome in the task and
    sets the flag, and phase 3 delivers exactly the stored outcome: it
    re-raises the stored error or transfers in the stored result. *)
Theorem completion_flag_first_writer_wins `{Engine} (wait : nat) (task : ApplyRunner.t)
    (w0 : World) (self : ApplyRunner.t) (w : World) (info : FunctionCallbackInfo) :
  ApplyRunner.Phase2Async wait task w0 = (Ok (true, self), w) ->
  ApplyRunner.did_finish self = Some (info_did_finish info) ->
  flags w !! info_did_finish info = Some false
  /\ (exists w1,
        ApplyRunner.Phase3 self w = (Throw timeout_error, w1)
        /\ flags w1 !! info_did_finish info = Some true
        /\ stores (info_did_finish info) (trace w1) = S (stores (info_did_finish info) (trace w))
        /\ forall late, ApplyRunner.AsyncCallback info late w1 = (Ok late, w1))
  /\ (exists self' w2 w1,
        store_outcome info self w = (Ok self', w2)
        /\ ApplyRunner.AsyncCallback info (Some self) w = (Ok (Some self'), w1)
        /\ flags w1 !! info_did_finish info = Some true
        /\ stores (info_did_finish info) (trace w1) = S (stores (info_did_finish info) (trace w))
        /\ ApplyRunner.Phase3 self' w1 = deliver_stored self' w1
        /\ flags (snd (ApplyRunner.Phase3 self' w1)) = flags w1
        /\ stores (info_did_finish info) (trace (snd (ApplyRunner.Phase3 self' w1)))
           = stores (info_did_finish info) (trace w1)).
Proof.
  intros Hpark Hflag.
  destruct (Phase2Async_parks wait task w0 self w Hpark) as (Hself & Hunset & _).
  assert (Hsame : info_did_finish info = length (flags w) - 1).
  { rewrite Hself in Hflag. simpl in Hflag. now injection Hflag as <-. }
  assert (Hwait : ApplyRunner.async_wait self = Some wait) by now rewrite Hself.
  rewrite <- Hsame in Hunset.
  split; [exact Hunset|].
  exact (flag_race self (info_did_finish info) wait info w Hflag Hwait eq_refl Hunset).
Qed.

Lemma completion_flag_first_writer_wins_witness :
  exists self w,
    ApplyRunner.Phase2Async (H := Scene.E) 0 promise_task Scene.owner = (Ok (true, self), w)
    /\ flags w !! 0 = Some false
    /\ (exists w1,
          ApplyRunner.Phase3 (H := Scene.E) self w = (Throw timeout_error, w1)
          /\ flags w1 !! 0 = Some true
          /\ stores 0 (trace w1) = S (stores 0 (trace w))
          /\ forall late,
               ApplyRunner.AsyncCallback (H := Scene.E) resolved_with_7 late w1 = (Ok late, w1))
    /\ (exists self' w2 w1,
          store_outcome (H := Scene.E) resolved_with_7 self w = (Ok self', w2)
          /\ ApplyRunner.AsyncCallback (H := Scene.E) resolved_with_7 (Some self) w
             = (Ok (Some self'), w1)
          /\ flags w1 !! 0 = Some true
          /\ stores 0 (trace w1) = S (stores 0 (trace w))
          /\ ApplyRunner.Phase3 (H := Scene.E) self' w1 = deliver_stored (H := Scene.E) self' w1
          /\ flags (snd (ApplyRunner.Phase3 (H := Scene.E) self' w1)) = flags w1
          /\ stores 0 (trace (snd (ApplyRunner.Phase3 (H := Scene.E) self' w1)))
             = stores 0 (trace w1)).
Proof.
  eexists _, _. split; [reflexivity|].
  exact (completion_flag_first_writer_wins (H := Scene.E) 0 promise_task Scene.owner _ _
           resolved_with_7 eq_refl eq_refl).
Defined.

(** ** Disposal of a shareable persistent *)

Lemma live_slot_ok (w : SP.World) h s :
  SP.slots w !! h = Some s -> s <> SP.Freed -> SP.live_slot h w = (Ok s, w).
Proof.
  intros Hs Hlive. unfold SP.live_slot. rewrite Hs. now destruct s.
Qed.

Lemma delete_ok (w : SP.World) h s :
  SP.slots w !! h = Some s -> s <> SP.Freed ->
  SP.delete h w
  = (Ok tt, {| SP.isolates := SP.isolates w; SP.slots := <[h := SP.Freed]> (SP.slots w);
               SP.trace := SP.trace w ++ [SP.EvDelete h] |}).
Proof.
  intros Hs Hlive. unfold SP.delete.
  now rewrite (bind_ok _ _ _ _ _ (live_slot_ok w h s Hs Hlive)).
Qed.

Lemma delete_freed (w : SP.World) h :
  SP.slots w !! h = Some SP.Freed -> SP.delete h w = (Throw null_dereference, w).
Proof.
  intros Hs. unfold SP.delete, SP.live_slot, bind. now rewrite Hs.
Qed.

Lemma D_call_ok (D : bool) (w : SP.World) h p s :
  SP.slots w !! h = Some s -> s <> SP.Freed ->
  when D (SP.D_call h p) w
  = (Ok tt, {| SP.isolates := SP.isolates w; SP.slots := SP.slots w;
               SP.trace := SP.trace w ++ (if D then [SP.EvDisposer h p] else []) |}).
Proof.
  intros Hs Hlive. destruct D; unfold when.
  - unfold SP.D_call. now rewrite (bind_ok _ _ _ _ _ (live_slot_ok w h s Hs Hlive)).
  - unfold pure. rewrite app_nil_r. now destruct w.
Qed.

Lemma run_task_ok (D : bool) (w : SP.World) h i s :
  SP.slots w !! h = Some s -> s <> SP.Freed ->
  SP.run_task D {| SP.task_handle := h; SP.task_isolate := i |} w
  = (Ok tt, {| SP.isolates := SP.isolates w; SP.slots := <[h := SP.Freed]> (SP.slots w);
               SP.trace := SP.trace w ++ (if D then [SP.EvDisposer h (Some i)] else [])
                           ++ [SP.EvReset h; SP.EvDelete h] |}).
Proof.
  intros Hs Hlive.
  assert (Hlen : h < length (SP.slots w)) by (eapply lookup_lt_Some; eassumption).
  unfold SP.run_task. simpl.
  rewrite (bind_ok _ _ _ _ _ (D_call_ok D w h (Some i) s Hs Hlive)).
  set (w1 := {| SP.isolates := SP.isolates w; SP.slots := SP.slots w;
                SP.trace := SP.trace w ++ (if D then [SP.EvDisposer h (Some i)] else []) |}).
  assert (Hs1 : SP.slots w1 !! h = Some s) by exact Hs.
  unfold SP.Reset.
  rewrite (bind_ok _ _ _ _ _ (bind_ok _ _ _ _ _ (live_slot_ok w1 h s Hs1 Hlive))).
  - erewrite delete_ok; [|simpl; now apply list_lookup_insert_eq|discriminate].
    simpl. rewrite list_insert_insert_eq. rewrite <- !app_assoc. reflexivity.
Qed.

Section Destructor.
Variables (D : bool) (self : SP.t) (w : SP.World) (h i : nat) (iso : SP.ShareableIsolate).
Hypothesis Hh : SP.handle self = Some h.
Hypothesis Hi : SP.isolate self = Some i.
Hypothesis Hiso : SP.isolates w !! i = Some iso.

Lemma ScheduleHandleTask_alive task :
  SP.alive iso = true ->
  SP.ScheduleHandleTask i true task w
  = (Ok true,
     {| SP.isolates := <[i := {| SP.alive := true;
                                 SP.handle_tasks := SP.handle_tasks iso ++ [task] |}]>
                         (SP.isolates w);
        SP.slots := SP.slots w; SP.trace := SP.trace w |}).
Proof. intros Halive. unfold SP.ScheduleHandleTask. now rewrite Hiso, Halive. Qed.

Lemma ScheduleHandleTask_gone task :
  SP.alive iso = false -> SP.ScheduleHandleTask i true task w = (Ok false, w).
Proof. intros Halive. unfold SP.ScheduleHandleTask. now rewrite Hiso, Halive. Qed.

Lemma destructor_alive :
  SP.alive iso = true ->
  SP.destructor D self w
  = (Ok tt,
     {| SP.isolates := <[i := {| SP.alive := true;
                                 SP.handle_tasks :=
                                   SP.handle_tasks iso
                                   ++ [{| SP.task_handle := h; SP.task_isolate := i |}] |}]>
                         (SP.isolates w);
        SP.slots := SP.slots w; SP.trace := SP.trace w |}).
Proof.
  intros Halive. unfold SP.destructor. rewrite Hh, Hi.
  unfold deref_ptr. unfold bind at 1. unfold pure at 1.
  unfold bind at 1. unfold pure at 1.
  now rewrite (bind_ok _ _ _ _ _ (ScheduleHandleTask_alive _ Halive)).
Qed.

Lemma destructor_gone slot :
  SP.alive iso = false ->
  SP.slots w !! h = Some slot ->
  slot <> SP.Freed ->
  SP.destructor D self w
  = (Ok tt,
     {| SP.isolates := SP.isolates w; SP.slots := <[h := SP.Freed]> (SP.slots w);
        SP.trace := (SP.trace w ++ (if D then [SP.EvDisposer h None] else []))
                    ++ [SP.EvDelete h] |}).
Proof.
  intros Halive Hslot Hlive. unfold SP.destructor. rewrite Hh, Hi.
  unfold deref_ptr. unfold bind at 1. unfold pure at 1.
  unfold bind at 1. unfold pure at 1.
  rewrite (bind_ok _ _ _ _ _ (ScheduleHandleTask_gone _ Halive)).
  cbn [negb].
  rewrite (bind_ok _ _ _ _ _ (D_call_ok D w h None slot Hslot Hlive)).
  erewrite delete_ok; [reflexivity|exact Hslot|exact Hlive].
Qed.
End Destructor.

(** ** C8 *)

(** C8: dropping the last share of a shareable persistent disposes of its
    slot exactly once.  When the owning isolate is alive, the drop only
    schedules a task on the isolate's queue; that task calls the disposer, if
    there is one, with the live isolate pointer, then resets the slot and
    frees it.  When the isolate is already gone, the drop itself calls the
    disposer with a null isolate pointer and frees the slot.  Either way the
    slot ends freed, with one [delete] recorded. *)
Theorem last_share_disposes_slot_once (D : bool) (s : SP.Shared) (w : SP.World)
    (h i : nat) (iso : SP.ShareableIsolate) (slot : SP.Slot) :
  SP.use_count s = 1 ->
  SP.handle (SP.object s) = Some h ->
  SP.isolate (SP.object s) = Some i ->
  SP.isolates w !! i = Some iso ->
  SP.slots w !! h = Some slot ->
  slot <> SP.Freed ->
  (SP.alive iso = true ->
   exists w1 w2,
     SP.drop_share D s w = (Ok None, w1)
     /\ SP.trace w1 = SP.trace w
     /\ SP.slots w1 = SP.slots w
     /\ SP.isolates w1 !! i
        = Some {| SP.alive := true;
                  SP.handle_tasks := SP.handle_tasks iso
                                     ++ [{| SP.task_handle := h; SP.task_isolate := i |}] |}
     /\ SP.run_task D {| SP.task_handle := h; SP.task_isolate := i |} w1 = (Ok tt, w2)
     /\ SP.trace w2
        = SP.trace w ++ (if D then [SP.EvDisposer h (Some i)] else [])
          ++ [SP.EvReset h; SP.EvDelete h]
     /\ SP.slots w2 !! h = Some SP.Freed)
  /\ (SP.alive iso = false ->
      exists w1,
        SP.drop_share D s w = (Ok None, w1)
        /\ SP.trace w1
           = SP.trace w ++ (if D then [SP.EvDisposer h None] else []) ++ [SP.EvDelete h]
        /\ SP.slots w1 !! h = Some SP.Freed
        /\ SP.isolates w1 = SP.isolates w).
Proof.
  intros Hcount Hh Hi Hiso Hslot Hlive.
  assert (Hlen : h < length (SP.slots w)) by (eapply lookup_lt_Some; eassumption).
  assert (Hleni : i < length (SP.isolates w)) by (eapply lookup_lt_Some; eassumption).
  unfold SP.drop_share. rewrite Hcount.
  split; intros Halive.
  - rewrite (bind_ok _ _ _ _ _ (destructor_alive D (SP.object s) w h i iso Hh Hi Hiso Halive)).
    eexists _, _. split; [reflexivity|].
    split; [reflexivity|]. split; [reflexivity|].
    split; [simpl; now apply list_lookup_insert_eq|].
    split; [apply run_task_ok with (s := slot); [exact Hslot|exact Hlive]|].
    split; [reflexivity|].
    simpl. now apply list_lookup_insert_eq.
  - rewrite (bind_ok _ _ _ _ _
               (destructor_gone D (SP.object s) w h i iso Hh Hi Hiso slot Halive Hslot Hlive)).
    eexists. split; [reflexivity|].
    split; [simpl; now rewrite <- app_assoc|].
    split; [simpl; now apply list_lookup_insert_eq|reflexivity].
Qed.

Lemma last_share_disposes_slot_once_witness :
  (exists w1 w2,
     SP.drop_share true last_share (isolate_world true) = (Ok None, w1)
     /\ SP.trace w1 = []
     /\ SP.slots w1 = [SP.Holding (VObject 3)]
     /\ SP.isolates w1 !! 0
        = Some {| SP.alive := true;
                  SP.handle_tasks := [{| SP.task_handle := 0; SP.task_isolate := 0 |}] |}
     /\ SP.run_task true {| SP.task_handle := 0; SP.task_isolate := 0 |} w1 = (Ok tt, w2)
     /\ SP.trace w2 = [SP.EvDisposer 0 (Some 0); SP.EvReset 0; SP.EvDelete 0]
     /\ SP.slots w2 !! 0 = Some SP.Freed)
  /\ (exists w1,
        SP.drop_share true last_share (isolate_world false) = (Ok None, w1)
        /\ SP.trace w1 = [SP.EvDisposer 0 None; SP.EvDelete 0]
        /\ SP.slots w1 !! 0 = Some SP.Freed
        /\ SP.isolates w1 = SP.isolates (isolate_world false)).
Proof.
  split.
  - apply (proj1 (last_share_disposes_slot_once true last_share (isolate_world true) 0 0
                    {| SP.alive := true; SP.handle_tasks := [] |} (SP.Holding (VObject 3))
                    eq_refl eq_refl eq_refl eq_refl eq_refl ltac:(discriminate))).
    reflexivity.
  - apply (proj2 (last_share_disposes_slot_once true last_share (isolate_world false) 0 0
                    {| SP.alive := false; SP.handle_tasks := [] |} (SP.Holding (VObject 3))
                    eq_refl eq_refl eq_refl eq_refl eq_refl ltac:(discriminate))).
    reflexivity.
Defined.

(** * Further properties of the code *)

(** ** Creating a reference *)

Lemma New_reference `{Engine} (w : World) (value : Value) :
  ReferenceHandle.New value w
  = (Ok (VReference (length (references w))),
     set_references
       (references w
        ++ [{| ReferenceData.isolate := Some (current w);
               ReferenceData.reference := Some value;
               ReferenceData.context := Some (current_context w);
               ReferenceData.type_of := InferTypeOf value |}]) w).
Proof. reflexivity. Qed.

Lemma lookup_snoc {A} (l : list A) (x : A) : (l ++ [x]) !! length l = Some x.
Proof. rewrite lookup_app_r by lia. now rewrite Nat.sub_diag. Qed.

(** X1: the type tag is computed once, when the reference is made, and
    [typeof] reads it back without touching anything: on a reference just
    made for [value] it returns the name of the value's category.  Null alone
    is "null" and the functions alone are "function"; "object" is the name of
    whatever is none of null, undefined, a number, a string, a boolean or a
    function, and so of every object that is no function, promises and
    instances of [Reference] and [Dereference] among them. *)
Theorem typeof_of_new_reference `{Engine} (w : World) (value : Value) :
  let w1 := snd (ReferenceHandle.New value w) in
  fst (ReferenceHandle.New value w) = Ok (VReference (length (references w)))
  /\ ReferenceHandle.TypeOfGetter (length (references w)) w1
     = (Ok (VString (typeof_name value)), w1)
  /\ (typeof_name value = "function" <-> IsFunction value = true)
  /\ (typeof_name value = "null" <-> IsNull value = true)
  /\ (typeof_name value = "object"
      <-> IsNull value = false /\ IsUndefined value = false /\ IsNumber value = false
          /\ IsString value = false /\ IsBoolean value = false /\ IsFunction value = false)
  /\ (IsObject value = true -> IsFunction value = false -> typeof_name value = "object").
Proof.
  intros w1. subst w1. rewrite New_reference. simpl fst. simpl snd.
  split; [reflexivity|]. split.
  - match goal with |- _ ?n ?w1 = _ =>
      assert (Hthis : references w1 !! n = Some
                {| ReferenceData.isolate := Some (current w);
                   ReferenceData.reference := Some value;
                   ReferenceData.context := Some (current_context w);
                   ReferenceData.type_of := InferTypeOf value |}) by apply lookup_snoc
    end.
    unfold ReferenceHandle.TypeOfGetter.
    rewrite (bind_ok _ _ _ _ _ (CheckDisposed_live _ _ _ Hthis value eq_refl)).
    rewrite (bind_ok _ _ _ _ _ (load_ok _ _ _ Hthis)).
    destruct value; reflexivity.
  - destruct value; simpl; repeat split; intros; try discriminate; try tauto;
      try reflexivity;
      repeat match goal with
             | Hc : _ /\ _ |- _ => destruct Hc
             end; discriminate.
Qed.

Lemma new_reference_derefs_aux `{Engine} (w : World) (value : Value) :
  references (snd (ReferenceHandle.New value w)) !! length (references w)
  = Some {| ReferenceData.isolate := Some (current w);
            ReferenceData.reference := Some value;
            ReferenceData.context := Some (current_context w);
            ReferenceData.type_of := InferTypeOf value |}.
Proof. rewrite New_reference. apply lookup_snoc. Qed.

(** X2: a reference just made derefs to the very value it was made for, as
    long as the current isolate is the one it was made in; under any other
    current isolate [deref()] throws the type error. *)
Theorem new_reference_derefs_to_its_value `{Engine} (w : World) (value : Value) :
  let w1 := snd (ReferenceHandle.New value w) in
  ReferenceHandle.Deref (length (references w)) None w1 = (Ok value, w1)
  /\ forall (elsewhere : IsolateHolder) (c : Context),
       elsewhere <> current w ->
       ReferenceHandle.Deref (length (references w)) None (set_current elsewhere c w1)
       = (Throw (js_type_error "Cannot dereference this from current isolate"),
          set_current elsewhere c w1).
Proof.
  intros w1. pose proof (new_reference_derefs_aux w value) as Hthis. fold w1 in Hthis.
  split.
  - rewrite (Deref_owner w1 _ _ value Hthis eq_refl None false); reflexivity.
  - intros elsewhere c Hne.
    apply (Deref_elsewhere (set_current elsewhere c w1) _ _ value Hthis eq_refl None).
    simpl. congruence.
Qed.

(** ** Releasing *)

(** X3: [release()] empties the one reference it is called on, keeps its type
    tag and leaves every other reference alone; it is not idempotent: a second
    [release()] throws "Reference has been released", and so does [typeof],
    although the tag is still there. *)
Theorem release_once `{Engine} (w : World) (this : nat) (data : ReferenceData.t) (v : Value) :
  references w !! this = Some data ->
  ReferenceData.reference data = Some v ->
  exists w1,
    ReferenceHandle.Release this w = (Ok VUndefined, w1)
    /\ references w1 !! this = Some (released data)
    /\ ReferenceData.type_of (released data) = ReferenceData.type_of data
    /\ (forall other, other <> this -> references w1 !! other = references w !! other)
    /\ ReferenceHandle.Release this w1 = (Throw disposed_error, w1)
    /\ ReferenceHandle.TypeOfGetter this w1 = (Throw disposed_error, w1).
Proof.
  intros Hthis Hlive.
  assert (Hlen : this < length (references w)) by (eapply lookup_lt_Some; eassumption).
  eexists. split; [apply (Release_live w this data Hthis v Hlive)|].
  assert (Hrel : references (set_references (<[this := released data]> (references w)) w) !! this
                 = Some (released data)) by (simpl; now apply list_lookup_insert_eq).
  split; [exact Hrel|]. split; [reflexivity|]. split.
  - intros other Hne. simpl. now apply list_lookup_insert_ne.
  - split.
    + apply (Release_released _ this (released data) Hrel eq_refl).
    + apply (TypeOfGetter_released _ this (released data) Hrel eq_refl).
Qed.

Lemma release_once_witness :
  exists w1,
    ReferenceHandle.Release 1 Scene.caller = (Ok VUndefined, w1)
    /\ references w1 !! 1 = Some (released (Scene.reference_to (VObject 3)))
    /\ ReferenceData.type_of (released (Scene.reference_to (VObject 3))) = TypeOf.Object
    /\ (forall other, other <> 1 -> references w1 !! other = references Scene.caller !! other)
    /\ ReferenceHandle.Release 1 w1 = (Throw disposed_error, w1)
    /\ ReferenceHandle.TypeOfGetter 1 w1 = (Throw disposed_error, w1).
Proof.
  exact (release_once (H := Scene.E) Scene.caller 1 (Scene.reference_to (VObject 3)) (VObject 3)
           eq_refl eq_refl).
Defined.

(** ** Transferring a reference *)

(** X4: transferring a reference out copies its fields without checking them,
    and transferring the capsule in makes a new [Reference] instance with
    these fields, leaving the instances that exist alone.  The two instances
    are independent: releasing the original leaves the copy as it is, and
    releasing the copy leaves the original. *)
Theorem transferred_reference_is_independent `{Engine} (w dest : World) (this : nat)
    (data : ReferenceData.t) (v : Value) :
  references w !! this = Some data ->
  references dest !! this = Some data ->
  ReferenceData.reference data = Some v ->
  exists dest1,
    ReferenceHandle.TransferOut this w = (Ok (ReferenceHandleTransferable data), w)
    /\ Transferable.TransferIn (ReferenceHandleTransferable data) dest
       = (Ok (VReference (length (references dest))), dest1)
    /\ references dest1 !! length (references dest) = Some data
    /\ (forall r d, references dest !! r = Some d -> references dest1 !! r = Some d)
    /\ references (snd (ReferenceHandle.Release this dest1)) !! length (references dest)
       = Some data
    /\ references (snd (ReferenceHandle.Release (length (references dest)) dest1)) !! this
       = Some data.
Proof.
  intros Hthis Hdest Hlive.
  assert (Hlen : this < length (references dest)) by (eapply lookup_lt_Some; eassumption).
  set (copy := length (references dest)).
  set (dest1 := set_references (references dest ++ [data]) dest).
  assert (Hcopy : references dest1 !! copy = Some data) by apply lookup_snoc.
  assert (Hkeep : forall r d, references dest !! r = Some d -> references dest1 !! r = Some d).
  { intros r d Hr. simpl. now apply lookup_app_l_Some. }
  exists dest1.
  split; [unfold ReferenceHandle.TransferOut; now rewrite (bind_ok _ _ _ _ _ (load_ok w this data Hthis))|].
  split; [reflexivity|]. split; [exact Hcopy|]. split; [exact Hkeep|]. split.
  - rewrite (Release_live dest1 this data (Hkeep _ _ Hdest) v Hlive). simpl snd.
    simpl references. rewrite list_lookup_insert_ne by (unfold copy; lia). exact Hcopy.
  - rewrite (Release_live dest1 copy data Hcopy v Hlive). simpl snd.
    simpl references. rewrite list_lookup_insert_ne by (unfold copy; lia).
    exact (Hkeep _ _ Hdest).
Qed.

Lemma transferred_reference_is_independent_witness :
  exists dest1,
    ReferenceHandle.TransferOut 1 Scene.caller
    = (Ok (ReferenceHandleTransferable (Scene.reference_to (VObject 3))), Scene.caller)
    /\ Transferable.TransferIn (H := Scene.E)
         (ReferenceHandleTransferable (Scene.reference_to (VObject 3))) Scene.owner
       = (Ok (VReference 3), dest1)
    /\ references dest1 !! 3 = Some (Scene.reference_to (VObject 3))
    /\ (forall r d, references Scene.owner !! r = Some d -> references dest1 !! r = Some d)
    /\ references (snd (ReferenceHandle.Release 1 dest1)) !! 3
       = Some (Scene.reference_to (VObject 3))
    /\ references (snd (ReferenceHandle.Release 3 dest1)) !! 1
       = Some (Scene.reference_to (VObject 3)).
Proof.
  exact (transferred_reference_is_independent (H := Scene.E) Scene.caller Scene.owner 1
           (Scene.reference_to (VObject 3)) (VObject 3) eq_refl eq_refl eq_refl).
Defined.

(** X5: a released reference can still be transferred: [TransferOut] makes no
    disposal check, the capsule materializes, and the instance it yields is
    released as well, so that [deref], [typeof] and [release] on it throw
    "Reference has been released". *)
Theorem released_reference_transfers_released `{Engine} (w dest : World) (this : nat)
    (data : ReferenceData.t) :
  references w !! this = Some data ->
  ReferenceData.reference data = None ->
  exists t dest1,
    ReferenceHandle.TransferOut this w = (Ok t, w)
    /\ Transferable.TransferIn t dest = (Ok (VReference (length (references dest))), dest1)
    /\ (forall maybe_options,
          ReferenceHandle.Deref (length (references dest)) maybe_options dest1
          = (Throw disposed_error, dest1))
    /\ ReferenceHandle.TypeOfGetter (length (references dest)) dest1
       = (Throw disposed_error, dest1)
    /\ ReferenceHandle.Release (length (references dest)) dest1 = (Throw disposed_error, dest1).
Proof.
  intros Hthis Hreleased.
  set (dest1 := set_references (references dest ++ [data]) dest).
  assert (Hcopy : references dest1 !! length (references dest) = Some data) by apply lookup_snoc.
  exists (ReferenceHandleTransferable data), dest1.
  split.
  { unfold ReferenceHandle.TransferOut.
    now rewrite (bind_ok _ _ _ _ _ (load_ok w this data Hthis)). }
  split; [reflexivity|]. split; [|split].
  - intros maybe_options. now apply (Deref_released dest1 _ data Hcopy Hreleased).
  - now apply (TypeOfGetter_released dest1 _ data Hcopy Hreleased).
  - now apply (Release_released dest1 _ data Hcopy Hreleased).
Qed.

Lemma released_reference_transfers_released_witness :
  exists t dest1,
    ReferenceHandle.TransferOut 1 released_scene = (Ok t, released_scene)
    /\ Transferable.TransferIn (H := Scene.E) t Scene.owner = (Ok (VReference 3), dest1)
    /\ (forall maybe_options,
          ReferenceHandle.Deref (H := Scene.E) 3 maybe_options dest1
          = (Throw disposed_error, dest1))
    /\ ReferenceHandle.TypeOfGetter 3 dest1 = (Throw disposed_error, dest1)
    /\ ReferenceHandle.Release 3 dest1 = (Throw disposed_error, dest1).
Proof.
  exact (released_reference_transfers_released (H := Scene.E) released_scene Scene.owner 1
           (released (Scene.reference_to (VObject 3))) eq_refl eq_refl).
Defined.

(** ** Capsules of [derefInto()] *)

(** X6: every [derefInto()] makes a capsule of its own.  Two capsules of the
    same reference can each be transferred out once, in either order, and
    using them leaves the reference as it was. *)
Theorem capsules_are_independent `{Engine} (w : World) (this : nat) (data : ReferenceData.t)
    (v : Value) :
  references w !! this = Some data ->
  ReferenceData.reference data = Some v ->
  let d1 := length (dereferences w) in
  let capsule := DereferenceHandleTransferable (ReferenceData.isolate data) (Some v) in
  exists w1 w2,
    ReferenceHandle.DerefInto this None w = (Ok (VDereference d1), w1)
    /\ ReferenceHandle.DerefInto this None w1 = (Ok (VDereference (S d1)), w2)
    /\ references w2 = references w
    /\ (exists w3 w4,
          DereferenceHandle.TransferOut d1 w2 = (Ok capsule, w3)
          /\ DereferenceHandle.TransferOut (S d1) w3 = (Ok capsule, w4)
          /\ references w4 = references w)
    /\ (exists w3 w4,
          DereferenceHandle.TransferOut (S d1) w2 = (Ok capsule, w3)
          /\ DereferenceHandle.TransferOut d1 w3 = (Ok capsule, w4)
          /\ references w4 = references w).
Proof.
  intros Hthis Hlive d1 capsule.
  pose proof (DerefInto_live w this data v Hthis Hlive None false eq_refl) as H1.
  cbv zeta in H1. simpl after_read in H1.
  set (c := {| DereferenceData.isolate := ReferenceData.isolate data;
               DereferenceData.reference := Some v |}) in *.
  set (w1 := set_dereferences (dereferences w ++ [c]) w) in *.
  pose proof (DerefInto_live w1 this data v Hthis Hlive None false eq_refl) as H2.
  cbv zeta in H2. simpl after_read in H2. fold c in H2.
  set (w2 := set_dereferences (dereferences w1 ++ [c]) w1) in *.
  assert (Hlen1 : length (dereferences w1) = S d1).
  { simpl. rewrite length_app. simpl. unfold d1. lia. }
  rewrite Hlen1 in H2.
  assert (Hd1 : dereferences w2 !! d1 = Some c).
  { simpl. rewrite lookup_app_l by (rewrite length_app; simpl; unfold d1; lia).
    apply lookup_snoc. }
  assert (Hd2 : dereferences w2 !! S d1 = Some c).
  { simpl dereferences at 1. rewrite <- Hlen1. apply lookup_snoc. }
  assert (Hlen2 : S d1 < length (dereferences w2)).
  { eapply lookup_lt_Some; eassumption. }
  exists w1, w2. split; [exact H1|]. split; [exact H2|]. split; [reflexivity|]. split.
  - eexists _, _.
    split; [apply (DereferenceHandle_TransferOut_fresh w2 d1 _ v Hd1)|].
    split.
    + apply DereferenceHandle_TransferOut_fresh. simpl dereferences.
      rewrite list_lookup_insert_ne by lia. exact Hd2.
    + reflexivity.
  - eexists _, _.
    split; [apply (DereferenceHandle_TransferOut_fresh w2 (S d1) _ v Hd2)|].
    split.
    + apply DereferenceHandle_TransferOut_fresh. simpl dereferences.
      rewrite list_lookup_insert_ne by lia. exact Hd1.
    + reflexivity.
Qed.

Lemma capsules_are_independent_witness :
  exists w1 w2,
    ReferenceHandle.DerefInto (H := Scene.E) 1 None Scene.caller = (Ok (VDereference 0), w1)
    /\ ReferenceHandle.DerefInto (H := Scene.E) 1 None w1 = (Ok (VDereference 1), w2)
    /\ references w2 = references Scene.caller
    /\ (exists w3 w4,
          DereferenceHandle.TransferOut 0 w2
          = (Ok (DereferenceHandleTransferable (Some 2) (Some (VObject 3))), w3)
          /\ DereferenceHandle.TransferOut 1 w3
             = (Ok (DereferenceHandleTransferable (Some 2) (Some (VObject 3))), w4)
          /\ references w4 = references Scene.caller)
    /\ (exists w3 w4,
          DereferenceHandle.TransferOut 1 w2
          = (Ok (DereferenceHandleTransferable (Some 2) (Some (VObject 3))), w3)
          /\ DereferenceHandle.TransferOut 0 w3
             = (Ok (DereferenceHandleTransferable (Some 2) (Some (VObject 3))), w4)
          /\ references w4 = references Scene.caller).
Proof.
  exact (capsules_are_independent (H := Scene.E) Scene.caller 1
           (Scene.reference_to (VObject 3)) (VObject 3) eq_refl eq_refl).
Defined.

(** ** Phase 2 and phase 3 of [apply] *)

Lemma Context_Scope_run {A} c (body : M A) w r w2 :
  body (set_current (current w) c w) = (r, w2) ->
  Context_Scope c body w = (r, set_current (current w2) (current_context w) w2).
Proof. intros Hb. unfold Context_Scope. now rewrite Hb. Qed.

Lemma Context_Scope_same {A} c (body : M A) w r :
  body (set_current (current w) c w) = (r, set_current (current w) c w) ->
  Context_Scope c body w = (r, w).
Proof. intros Hb. unfold Context_Scope. rewrite Hb. now destruct w. Qed.

Lemma set_current_logs es : forall (w0 : World) i c,
  set_current i c (fold_left (fun w e => log e w) es w0)
  = fold_left (fun w e => log e w) es (set_current i c w0).
Proof.
  induction es as [|e es IH]; intros w0 i c; [reflexivity|].
  cbn [fold_left]. now rewrite IH.
Qed.

Lemma current_logs es : forall w0 : World,
  current (fold_left (fun w e => log e w) es w0) = current w0.
Proof.
  induction es as [|e es IH]; intros w0; [reflexivity|].
  cbn [fold_left]. now rewrite IH.
Qed.

Lemma Context_Scope_log {A} c (body : M A) w r es :
  body (set_current (current w) c w)
  = (r, fold_left (fun w e => log e w) es (set_current (current w) c w)) ->
  Context_Scope c body w = (r, fold_left (fun w e => log e w) es w).
Proof.
  intros Hb. unfold Context_Scope. rewrite Hb. f_equal.
  rewrite set_current_logs, current_logs. simpl. now destruct w.
Qed.

Lemma leave_scope w c : set_current (current w) (current_context w) (set_current (current w) c w) = w.
Proof. now destruct w. Qed.

Lemma leave_scope_log w c e :
  set_current (current w) (current_context w) (log e (set_current (current w) c w)) = log e w.
Proof. now destruct w. Qed.

Lemma TransferIn_materialized `{Engine} w t v :
  materialized (current w) t = Some v -> Transferable.TransferIn t w = (Ok v, w).
Proof.
  destruct t as [[i|] [x|]|data|[x|m|b]]; simpl; try discriminate.
  - case_bool_decide as Hi; [|discriminate]. intros [= <-]. subst i.
    unfold DereferenceHandleTransferable.TransferIn, bind, GetCurrentHolder.
    now rewrite bool_decide_eq_true_2.
  - now intros [= <-].
Qed.

Lemma TransferArguments_materialized `{Engine} w argv args :
  Forall2 (fun t v => materialized (current w) t = Some v) argv args ->
  ApplyRunner.TransferArguments_from argv w = (Ok args, w).
Proof.
  induction 1 as [|t v argv args Ht _ IH]; [reflexivity|].
  simpl. rewrite (bind_ok _ _ _ _ _ (TransferIn_materialized w t v Ht)).
  now rewrite (bind_ok _ _ _ _ _ IH).
Qed.

(** The first capsule that does not belong to the current isolate stops the
    transfer of the arguments. *)
Lemma TransferArguments_wrong_target `{Engine} w before values i r rest :
  Forall2 (fun t v => materialized (current w) t = Some v) before values ->
  i <> Some (current w) ->
  ApplyRunner.TransferArguments_from (before ++ DereferenceHandleTransferable i r :: rest) w
  = (Throw wrong_target, w).
Proof.
  intros Hbefore Hne. induction Hbefore as [|t v before values Ht _ IH].
  - simpl. apply bind_throw. now apply TransferIn_capsule_elsewhere.
  - simpl. rewrite (bind_ok _ _ _ _ _ (TransferIn_materialized w t v Ht)).
    now apply bind_throw.
Qed.

(** X7: phase 2 of [apply] refuses a reference to anything but a function
    with the type error "Reference is not a function", before it transfers
    anything in or calls anything: the world is left as it was.  The
    promise-awaiting phase 2 does the same once the [return] options have
    passed. *)
Theorem apply_refuses_non_function `{Engine} (self : ApplyRunner.t) (w : World) (c : Context)
    (value : Value) (wait : nat) :
  ApplyRunner.context self = Some c ->
  ApplyRunner.reference self = Some value ->
  IsFunction value = false ->
  ApplyRunner.Phase2 self w = (Throw not_a_function, w)
  /\ (ApplyRunner.return_transfer_options self = Options.default ->
      ApplyRunner.Phase2Async wait self w = (Throw not_a_function, w)).
Proof.
  intros Hctx Href Hfn. split.
  - unfold ApplyRunner.Phase2. rewrite Hctx. unfold ivm_Deref at 1, deref_ptr.
    unfold bind at 1. unfold pure at 1. cbv beta iota.
    apply Context_Scope_same.
    rewrite Href. unfold ivm_Deref, deref_ptr. unfold bind at 1. unfold pure at 1.
    now rewrite Hfn.
  - intros Hret. unfold ApplyRunner.Phase2Async. rewrite Hret.
    unfold Options.eqb. rewrite bool_decide_eq_true_2 by reflexivity. simpl negb. cbv iota.
    rewrite Hctx. unfold ivm_Deref at 1, deref_ptr.
    unfold bind at 1. unfold pure at 1. cbv beta iota.
    apply Context_Scope_same.
    rewrite Href. unfold ivm_Deref, deref_ptr. unfold bind at 1. unfold pure at 1.
    now rewrite Hfn.
Qed.

Lemma apply_refuses_non_function_witness :
  ApplyRunner.Phase2 (H := Scene.E) (task_on (VObject 3) (primitive VUndefined) []) Scene.owner
  = (Throw not_a_function, Scene.owner).
Proof.
  apply (proj1 (apply_refuses_non_function (H := Scene.E)
                  (task_on (VObject 3) (primitive VUndefined) []) Scene.owner 20 (VObject 3) 0
                  eq_refl eq_refl eq_refl)).
Defined.

Lemma TransferOut_primitive `{Engine} v w :
  IsPrimitive v = true ->
  Transferable.TransferOut v Options.default w = (Ok (primitive v), w).
Proof. destruct v; try discriminate; reflexivity. Qed.

(** A primitive is transferred out as a copy of itself unless the options ask
    for a reference. *)
Lemma TransferOut_primitive_copy `{Engine} v options w :
  IsPrimitive v = true ->
  Options.type options <> Options.Reference ->
  Transferable.TransferOut v options w = (Ok (primitive v), w).
Proof.
  intros Hprim Hty. unfold Transferable.TransferOut.
  destruct (Options.type options); [| |congruence];
    destruct v; try discriminate; reflexivity.
Qed.

Lemma Phase2_calls_once `{Engine} (self : ApplyRunner.t) (w : World) (c : Context)
    (fn : Value) (recv_ : Transferable) (recv_inner : Value) (args : list Value) :
  ApplyRunner.context self = Some c ->
  ApplyRunner.reference self = Some fn ->
  IsFunction fn = true ->
  ApplyRunner.recv self = Some recv_ ->
  materialized (current w) recv_ = Some recv_inner ->
  Forall2 (fun t v => materialized (current w) t = Some v) (ApplyRunner.argv self) args ->
  ApplyRunner.did_finish self = None ->
  ApplyRunner.async_error self = None ->
  Options.type (ApplyRunner.return_transfer_options self) <> Options.Reference ->
  let call := RunWithTimeout_Call (trace w) (ApplyRunner.timeout self) fn recv_inner args in
  let w1 := log (EvCall (ApplyRunner.timeout self) fn recv_inner args call) w in
  (forall e, call = Throw e -> ApplyRunner.Phase2 self w = (Throw e, w1))
  /\ (forall v, call = Ok v -> IsPrimitive v = true ->
      exists self',
        ApplyRunner.Phase2 self w = (Ok self', w1)
        /\ ApplyRunner.Phase3 self' w1 = (Ok v, w1)).
Proof.
  intros Hctx Href Hfn Hrecv Hrecv_in Hargs Hflag Herr Hret call w1.
  set (inside := set_current (current w) c w).
  assert (Hbody : forall k : Value -> M ApplyRunner.t,
    (do fn0 <- ivm_Deref (ApplyRunner.reference self);;
     if negb (IsFunction fn0) then throw (js_type_error "Reference is not a function")
     else
       do argv_inner <- ApplyRunner.TransferArguments self;;
       do recv0 <- deref_ptr (ApplyRunner.recv self);;
       do recv_inner0 <- Transferable.TransferIn recv0;;
       do result <- RunWithTimeout (ApplyRunner.timeout self) fn0 recv_inner0 argv_inner;;
       k result) inside
    = match call with
      | Ok v => k v (log (EvCall (ApplyRunner.timeout self) fn recv_inner args call) inside)
      | Throw e => (Throw e, log (EvCall (ApplyRunner.timeout self) fn recv_inner args call) inside)
      end).
  { intros k. rewrite Href, Hrecv. unfold ivm_Deref, deref_ptr.
    unfold bind at 1. unfold pure at 1. rewrite Hfn. change (negb true) with false. cbv iota.
    unfold ApplyRunner.TransferArguments.
    rewrite (bind_ok _ _ _ _ _ (TransferArguments_materialized inside _ args Hargs)).
    unfold bind at 1. unfold pure at 1.
    rewrite (bind_ok _ _ _ _ _ (TransferIn_materialized inside recv_ recv_inner Hrecv_in)).
    unfold bind at 1. unfold RunWithTimeout. simpl trace. fold call.
    now destruct call. }
  assert (Hscope : forall (body : M ApplyRunner.t) r,
    body inside = (r, log (EvCall (ApplyRunner.timeout self) fn recv_inner args call) inside) ->
    Context_Scope c body w = (r, w1)).
  { intros body r Hb.
    apply (Context_Scope_log c body w r
             [EvCall (ApplyRunner.timeout self) fn recv_inner args call]). exact Hb. }
  split.
  - intros e He. unfold ApplyRunner.Phase2. rewrite Hctx. unfold ivm_Deref at 1, deref_ptr.
    unfold bind at 1. unfold pure at 1. cbv beta iota.
    apply Hscope. rewrite Hbody. now rewrite He.
  - intros v Hv Hprim. exists (ApplyRunner.set_ret (Some (primitive v)) self). split.
    + unfold ApplyRunner.Phase2. rewrite Hctx. unfold ivm_Deref at 1, deref_ptr.
      unfold bind at 1. unfold pure at 1. cbv beta iota.
      apply Hscope. rewrite Hbody. rewrite Hv.
      now rewrite (bind_ok _ _ _ _ _ (TransferOut_primitive_copy v _ _ Hprim Hret)).
    + unfold ApplyRunner.Phase3. simpl. rewrite Hflag, Herr. reflexivity.
Qed.

(** X8: phase 2 of [apply] on a task as phase 1 leaves it, with a function
    behind the reference, when the receiver and the arguments are copies of
    primitives or capsules of [derefInto()] owned by the isolate phase 2 runs
    in.  These materialize without a trace, a capsule as the live value itself,
    and phase 2 calls the function exactly once, under the task's timeout, with
    the receiver and with the arguments in argument order.  What the call
    throws is what phase 2 throws.  When the call returns a primitive and the
    [return] options do not ask for a reference, phase 3 hands that primitive
    back as it is. *)
Theorem apply_calls_the_function_once `{Engine} (self : ApplyRunner.t) (w : World) (c : Context)
    (fn : Value) (recv_ : Transferable) (recv_inner : Value) (args : list Value) :
  ApplyRunner.context self = Some c ->
  ApplyRunner.reference self = Some fn ->
  IsFunction fn = true ->
  ApplyRunner.recv self = Some recv_ ->
  materialized (current w) recv_ = Some recv_inner ->
  Forall2 (fun t v => materialized (current w) t = Some v) (ApplyRunner.argv self) args ->
  ApplyRunner.did_finish self = None ->
  ApplyRunner.async_error self = None ->
  Options.type (ApplyRunner.return_transfer_options self) <> Options.Reference ->
  let call := RunWithTimeout_Call (trace w) (ApplyRunner.timeout self) fn recv_inner args in
  let w1 := log (EvCall (ApplyRunner.timeout self) fn recv_inner args call) w in
  (forall e, call = Throw e -> ApplyRunner.Phase2 self w = (Throw e, w1))
  /\ (forall v, call = Ok v -> IsPrimitive v = true ->
      exists self',
        ApplyRunner.Phase2 self w = (Ok self', w1)
        /\ ApplyRunner.Phase3 self' w1 = (Ok v, w1)).
Proof.
  intros Hctx Href Hfn Hrecv Hrecv_in Hargs Hflag Herr Hret.
  exact (Phase2_calls_once self w c fn recv_ recv_inner args
           Hctx Href Hfn Hrecv Hrecv_in Hargs Hflag Herr Hret).
Qed.

Lemma apply_calls_the_function_once_witness :
  exists self',
    ApplyRunner.Phase2 (H := Scene.E)
      (task_on (VFunction 0) (primitive VUndefined)
         [primitive (VNumber 1); DereferenceHandleTransferable (Some 2) (Some (VObject 3))])
      Scene.owner
    = (Ok self',
       log (EvCall 0 (VFunction 0) VUndefined [VNumber 1; VObject 3] (Ok (VNumber 42))) Scene.owner)
    /\ ApplyRunner.Phase3 (H := Scene.E) self'
         (log (EvCall 0 (VFunction 0) VUndefined [VNumber 1; VObject 3] (Ok (VNumber 42)))
            Scene.owner)
       = (Ok (VNumber 42),
          log (EvCall 0 (VFunction 0) VUndefined [VNumber 1; VObject 3] (Ok (VNumber 42)))
            Scene.owner).
Proof.
  apply (proj2 (apply_calls_the_function_once (H := Scene.E)
                  (task_on (VFunction 0) (primitive VUndefined)
                     [primitive (VNumber 1);
                      DereferenceHandleTransferable (Some 2) (Some (VObject 3))])
                  Scene.owner 20 (VFunction 0) (primitive VUndefined) VUndefined
                  [VNumber 1; VObject 3]
                  eq_refl eq_refl eq_refl eq_refl eq_refl
                  ltac:(repeat constructor) eq_refl eq_refl ltac:(discriminate)) (VNumber 42));
    reflexivity.
Defined.

(** X9: a capsule of [derefInto()] among the arguments that belongs to
    another isolate than the one the function lives in makes phase 2 of
    [apply] throw the type error "Cannot dereference this into target
    isolate"; the function is not called and the world is left as it was. *)
Theorem apply_capsule_of_another_isolate `{Engine} (self : ApplyRunner.t) (w : World)
    (c : Context) (fn : Value) (before : list Transferable) (values : list Value)
    (i : shared_ptr IsolateHolder) (r : RemoteHandle Value) (rest : list Transferable) :
  ApplyRunner.context self = Some c ->
  ApplyRunner.reference self = Some fn ->
  IsFunction fn = true ->
  ApplyRunner.argv self = before ++ DereferenceHandleTransferable i r :: rest ->
  Forall2 (fun t v => materialized (current w) t = Some v) before values ->
  i <> Some (current w) ->
  ApplyRunner.Phase2 self w = (Throw wrong_target, w).
Proof.
  intros Hctx Href Hfn Hargv Hbefore Hne.
  unfold ApplyRunner.Phase2. rewrite Hctx. unfold ivm_Deref at 1, deref_ptr.
  unfold bind at 1. unfold pure at 1. cbv beta iota.
  apply Context_Scope_same.
  rewrite Href. unfold ivm_Deref, deref_ptr. unfold bind at 1. unfold pure at 1.
  rewrite Hfn. change (negb true) with false. cbv iota.
  apply bind_throw. unfold ApplyRunner.TransferArguments. rewrite Hargv.
  now apply (TransferArguments_wrong_target (set_current (current w) c w) before values).
Qed.

Lemma apply_capsule_of_another_isolate_witness :
  ApplyRunner.Phase2 (H := Scene.E)
    (task_on (VFunction 0) (primitive VUndefined)
       ([primitive (VNumber 1)] ++ DereferenceHandleTransferable (Some 1) (Some (VObject 4)) :: []))
    Scene.owner
  = (Throw wrong_target, Scene.owner).
Proof.
  apply (apply_capsule_of_another_isolate (H := Scene.E)
           (task_on (VFunction 0) (primitive VUndefined)
              ([primitive (VNumber 1)]
               ++ DereferenceHandleTransferable (Some 1) (Some (VObject 4)) :: []))
           Scene.owner 20 (VFunction 0)
           [primitive (VNumber 1)] [VNumber 1] (Some 1) (Some (VObject 4)) []
           eq_refl eq_refl eq_refl eq_refl ltac:(repeat constructor)).
  discriminate.
Defined.

(** ** The run options of [apply] *)

Lemma Get_ok `{Engine} object key w v :
  Object_Get (trace w) object key = Some v ->
  Get object key w = (Ok v, log (EvGet object key (Some v)) w).
Proof. intros Hv. unfold Get. now rewrite Hv. Qed.

(** X10: a [timeout] option that is set must be an integer in the range
    of [uint32]: a negative number, a number from 2^32 on, or a value of
    another type makes phase 1 of [apply] throw the type error "`timeout` must
    be integer" as soon as it has read that option, before it reads the other
    options.  Without an options object the timeout is 0 and both transfer
    options are the default ones. *)
Theorem timeout_option_must_be_uint32 `{Engine} (w : World) (options t : Value) :
  Object_Get (trace w) options (VString "timeout") = Some t ->
  t <> VUndefined ->
  (forall n, t = VNumber n -> (n < 0 \/ 2 ^ 32 <= n)%Z) ->
  ApplyRunner.run_options (Some options) w
  = (Throw (js_type_error "`timeout` must be integer"),
     log (EvGet options (VString "timeout") (Some t)) w)
  /\ ApplyRunner.run_options None w = (Ok (0%Z, Options.default, Options.default), w).
Proof.
  intros Hget Hdef Hrange. split; [|reflexivity].
  unfold ApplyRunner.run_options.
  rewrite (bind_ok _ _ _ _ _ (Get_ok _ _ w t Hget)).
  apply bind_throw.
  assert (Hu : IsUndefined t = false) by (destruct t; try reflexivity; congruence).
  assert (Hi : IsUint32 t = false).
  { destruct t; try reflexivity. simpl. destruct (Hrange n eq_refl); lia. }
  now rewrite Hu, Hi.
Qed.

Lemma timeout_option_must_be_uint32_witness :
  ApplyRunner.run_options (H := negative_timeout) (Some (VObject 12)) Scene.caller
  = (Throw (js_type_error "`timeout` must be integer"),
     log (EvGet (VObject 12) (VString "timeout") (Some (VNumber (-1)))) Scene.caller).
Proof.
  apply (proj1 (timeout_option_must_be_uint32 (H := negative_timeout) Scene.caller (VObject 12)
                  (VNumber (-1)) eq_refl ltac:(discriminate)
                  ltac:(intros n [= <-]; left; reflexivity))).
Defined.

(** X11: with no [timeout] set, an [arguments] option that is set but is not
    an object makes phase 1 of [apply] throw "`arguments` must be object"; with
    that option unset too, a [return] option that is set but is not an object
    makes it throw "`return` must be object".  Neither option is parsed
    before its type has been checked. *)
Theorem transfer_options_must_be_objects `{Engine} (w : World) (options a : Value) :
  Object_Get (trace w) options (VString "timeout") = Some VUndefined ->
  let w1 := log (EvGet options (VString "timeout") (Some VUndefined)) w in
  Object_Get (trace w1) options (VString "arguments") = Some a ->
  let w2 := log (EvGet options (VString "arguments") (Some a)) w1 in
  (IsUndefined a = false -> IsObject a = false ->
   ApplyRunner.run_options (Some options) w
   = (Throw (js_type_error "`arguments` must be object"), w2))
  /\ (forall r, a = VUndefined ->
        Object_Get (trace w2) options (VString "return") = Some r ->
        IsUndefined r = false -> IsObject r = false ->
        ApplyRunner.run_options (Some options) w
        = (Throw (js_type_error "`return` must be object"),
           log (EvGet options (VString "return") (Some r)) w2)).
Proof.
  intros Ht w1 Ha w2. split.
  - intros Hu Ho. unfold ApplyRunner.run_options.
    rewrite (bind_ok _ _ _ _ _ (Get_ok _ _ w _ Ht)). simpl IsUndefined. cbn [negb].
    unfold bind at 1. unfold pure at 1.
    rewrite (bind_ok _ _ _ _ _ (Get_ok _ _ w1 _ Ha)).
    apply bind_throw. now rewrite Hu, Ho.
  - intros r -> Hr Hu Ho. unfold ApplyRunner.run_options.
    rewrite (bind_ok _ _ _ _ _ (Get_ok _ _ w _ Ht)). simpl IsUndefined. cbn [negb].
    unfold bind at 1. unfold pure at 1.
    rewrite (bind_ok _ _ _ _ _ (Get_ok _ _ w1 _ Ha)). simpl IsUndefined. cbn [negb].
    unfold bind at 1. unfold pure at 1.
    rewrite (bind_ok _ _ _ _ _ (Get_ok _ _ w2 _ Hr)).
    apply bind_throw. now rewrite Hu, Ho.
Qed.

Lemma transfer_options_must_be_objects_witness :
  ApplyRunner.run_options (H := arguments_not_object) (Some (VObject 13)) Scene.caller
  = (Throw (js_type_error "`arguments` must be object"),
     log (EvGet (VObject 13) (VString "arguments") (Some (VNumber 5)))
       (log (EvGet (VObject 13) (VString "timeout") (Some VUndefined)) Scene.caller)).
Proof.
  apply (proj1 (transfer_options_must_be_objects (H := arguments_not_object) Scene.caller
                  (VObject 13) (VNumber 5) eq_refl eq_refl)); reflexivity.
Defined.

(** ** The arguments of [apply], when phase 1 accepts them *)

(** X22: phase 1 of [apply], once it has read the own property names of the
    arguments collection, accepts it exactly when the names are the array
    indices 0..n-1 in this order and each argument can be read and transferred
    out: the task then holds the n arguments, transferred out in index order
    under the arguments transfer options, and the world is the one these
    transfers leave. *)
Theorem arguments_must_be_dense `{Engine} (that : nat) (recv_handle : MaybeLocal Value)
    (arguments : Value) (maybe_options : MaybeLocal Value) (w : World)
    (opts : Z * Options.t * Options.t) (keys : list Value) (w3 : World) :
  until_arguments that recv_handle arguments maybe_options w = (Ok (opts, keys), w3) ->
  (forall self w',
     ApplyRunner.New that recv_handle (Some arguments) maybe_options w = (Ok self, w') ->
     dense_from 0 keys
     /\ length (ApplyRunner.argv self) = length keys
     /\ transfer_out_each arguments (snd (fst opts)) (seq 0 (length keys)) w3
        = (Ok (ApplyRunner.argv self), w'))
  /\ (forall argv w4,
        dense_from 0 keys ->
        transfer_out_each arguments (snd (fst opts)) (seq 0 (length keys)) w3 = (Ok argv, w4) ->
        exists self,
          ApplyRunner.New that recv_handle (Some arguments) maybe_options w = (Ok self, w4)
          /\ ApplyRunner.argv self = argv).
Proof.
  intros Hpre.
  destruct (New_until_arguments _ _ _ _ _ _ _ _ Hpre) as (that_ & recv & _ & Hnew).
  split.
  - intros self w' Hok. rewrite Hnew in Hok.
    apply bind_inv_ok in Hok as (argv & w4 & Hloop & Hok).
    injection Hok as <- <-. simpl ApplyRunner.argv.
    destruct (externalize_ok_dense _ _ _ _ _ _ _ Hloop) as [Hdense Hlen].
    split; [exact Hdense|]. split; [exact Hlen|].
    now rewrite <- (externalize_dense_in_order _ _ keys 0 w3 Hdense).
  - intros argv w4 Hdense Hout.
    rewrite <- (externalize_dense_in_order _ _ keys 0 w3 Hdense) in Hout.
    eexists. split.
    + rewrite Hnew. rewrite (bind_ok _ _ _ _ _ Hout). reflexivity.
    + reflexivity.
Qed.

Lemma arguments_must_be_dense_witness :
  exists self,
    ApplyRunner.New (H := Scene.E) 0 (Some VUndefined) (Some (VObject 5)) None Scene.caller
    = (Ok self,
       log (EvGet (VObject 5) (VNumber 1) (Some (VString "a")))
         (log (EvGet (VObject 5) (VNumber 0) (Some (VNumber 10)))
            (log (EvGetOwnPropertyNames (VObject 5) (Some [VNumber 0; VNumber 1]))
               Scene.caller)))
    /\ ApplyRunner.argv self = [primitive (VNumber 10); primitive (VString "a")].
Proof.
  apply (proj2 (arguments_must_be_dense (H := Scene.E) 0 (Some VUndefined) (VObject 5) None
                  Scene.caller (0%Z, Options.default, Options.default)
                  [VNumber 0; VNumber 1]
                  (log (EvGetOwnPropertyNames (VObject 5) (Some [VNumber 0; VNumber 1]))
                     Scene.caller)
                  eq_refl)).
  - intros [|[|j]] k Hj;
      [injection Hj as <-; reflexivity|injection Hj as <-; reflexivity|discriminate].
  - reflexivity.
Defined.

(** ** Keys of [get] and [set] *)

(** X12: [get] on a live reference with a key that is not a primitive throws
    the type error "Invalid `key`" in phase 1, synchronously in every mode, and
    nothing is read from the referenced object. *)
Theorem get_needs_a_primitive_key `{Engine} (w : World) (this : nat) (data : ReferenceData.t)
    (v key_handle : Value) (async : ThreePhaseTask.Mode) :
  references w !! this = Some data ->
  ReferenceData.reference data = Some v ->
  IsPrimitive key_handle = false ->
  ReferenceHandle_Get async this key_handle None w = (Throw invalid_key, w).
Proof.
  intros Hthis Hlive Hkey.
  unfold ReferenceHandle_Get. rewrite (bind_ok _ _ _ _ _ (load_ok w this data Hthis)).
  apply Run_phase1_throws. unfold GetRunner.New.
  rewrite (bind_ok _ _ _ _ _ (load_ok w this data Hthis)).
  simpl Transferable.Options_of_maybe. unfold bind at 1. unfold pure at 1.
  rewrite (bind_ok _ _ _ _ _ (CheckDisposed_live w this data Hthis v Hlive)).
  unfold ExternalCopy.CopyIfPrimitive. now rewrite Hkey.
Qed.

Lemma get_needs_a_primitive_key_witness :
  ReferenceHandle_Get (H := Scene.E) ThreePhaseTask.Sync 1 (VObject 5) None Scene.caller
  = (Throw invalid_key, Scene.caller).
Proof.
  exact (get_needs_a_primitive_key (H := Scene.E) Scene.caller 1
           (Scene.reference_to (VObject 3)) (VObject 3) (VObject 5) ThreePhaseTask.Sync
           eq_refl eq_refl eq_refl).
Defined.

Lemma capsule_transfers_out_once_aux `{Engine} (w : World) d i x :
  dereferences w !! d
  = Some {| DereferenceData.isolate := i; DereferenceData.reference := Some x |} ->
  exists w1,
    Transferable.TransferOut (VDereference d)
      {| Options.type := Options.None_; Options.fallback := Options.None_ |} w
    = (Ok (DereferenceHandleTransferable i (Some x)), w1)
    /\ dereferences w1 !! d = Some consumed
    /\ references w1 = references w.
Proof.
  intros Hd.
  assert (Hlen : d < length (dereferences w)) by (eapply lookup_lt_Some; eassumption).
  eexists. split; [|split].
  - unfold Transferable.TransferOut. simpl Options.type. cbv iota.
    unfold bind at 1. unfold bind at 1.
    rewrite (DereferenceHandle_TransferOut_fresh w d i x Hd). reflexivity.
  - simpl. now apply list_lookup_insert_eq.
  - reflexivity.
Qed.

(** X13: [set] checks its key last.  On a live reference, a key that is not a
    primitive makes it throw "Invalid `key`" only after the value has been
    transferred out: a capsule of [derefInto()] passed as the value has been
    used up by the failed call. *)
Theorem set_checks_its_key_last `{Engine} (w : World) (this : nat) (data : ReferenceData.t)
    (v key_handle : Value) (d : nat) (i : shared_ptr IsolateHolder) (x : Value)
    (async : ThreePhaseTask.Mode) :
  references w !! this = Some data ->
  ReferenceData.reference data = Some v ->
  IsPrimitive key_handle = false ->
  dereferences w !! d
  = Some {| DereferenceData.isolate := i; DereferenceData.reference := Some x |} ->
  exists w1,
    ReferenceHandle_Set async this key_handle (VDereference d) None w = (Throw invalid_key, w1)
    /\ dereferences w1 !! d = Some consumed
    /\ DereferenceHandle.TransferOut d w1 = (Throw reuse_error, w1).
Proof.
  intros Hthis Hlive Hkey Hd.
  destruct (capsule_transfers_out_once_aux w d i x Hd) as (w1 & Hout & Hcons & Hrefs).
  exists w1. split; [|split; [exact Hcons|]].
  - unfold ReferenceHandle_Set. rewrite (bind_ok _ _ _ _ _ (load_ok w this data Hthis)).
    apply Run_phase1_throws. unfold SetRunner.New.
    simpl Transferable.Options_of_maybe. unfold bind at 1. unfold pure at 1.
    rewrite (bind_ok _ _ _ _ _ Hout).
    assert (Hthis1 : references w1 !! this = Some data) by now rewrite Hrefs.
    rewrite (bind_ok _ _ _ _ _ (load_ok w1 this data Hthis1)).
    rewrite (bind_ok _ _ _ _ _ (CheckDisposed_live w1 this data Hthis1 v Hlive)).
    unfold ExternalCopy.CopyIfPrimitive. now rewrite Hkey.
  - now apply (DereferenceHandle_TransferOut_consumed w1 d None).
Qed.

Lemma set_checks_its_key_last_witness :
  exists w1,
    ReferenceHandle_Set (H := Scene.E) ThreePhaseTask.Sync 1 (VObject 5) (VDereference 0) None
      with_capsule
    = (Throw invalid_key, w1)
    /\ dereferences w1 !! 0 = Some consumed
    /\ DereferenceHandle.TransferOut 0 w1 = (Throw reuse_error, w1).
Proof.
  exact (set_checks_its_key_last (H := Scene.E) with_capsule 1
           (Scene.reference_to (VObject 3)) (VObject 3) (VObject 5) 0 (Some 2) (VObject 3)
           ThreePhaseTask.Sync eq_refl eq_refl eq_refl eq_refl).
Defined.

(** ** Phase 2 of [set] and [get] *)

(** X14: phase 2 of [set] on a reference to an object calls [Delete] before
    it transfers the new value in.  When that transfer fails, as it does for a
    capsule of [derefInto()] owned by another isolate than the one phase 2 runs
    in, phase 2 throws the transfer's error right after the [Delete] call,
    whatever that call answered, and makes no [Set]: the [Delete] is the only
    call made on the object, and a property it removed is not put back. *)
Theorem set_deletes_before_a_failing_transfer `{Engine} (self : SetRunner.t) (w : World)
    (key : Value) (i : shared_ptr IsolateHolder) (r : RemoteHandle Value) (c : Context)
    (object : Value) (deleted : bool) :
  SetRunner.key self = Some (ExternalCopyPrimitive key) ->
  SetRunner.val self = Some (DereferenceHandleTransferable i r) ->
  SetRunner.context self = Some c ->
  SetRunner.reference self = Some object ->
  IsObject object = true ->
  Object_Delete (trace w) object key = Some deleted ->
  i <> Some (current w) ->
  SetRunner.Phase2 self w = (Throw wrong_target, log (EvDelete object key (Some deleted)) w).
Proof.
  intros Hkey Hval Hctx Href Hobj Hdel Hne.
  unfold SetRunner.Phase2. rewrite Hctx. unfold ivm_Deref at 1, deref_ptr.
  unfold bind at 1. unfold pure at 1. cbv beta iota.
  apply (Context_Scope_log c _ w _ [EvDelete object key (Some deleted)]).
  rewrite Hkey, Hval, Href. unfold ivm_Deref, deref_ptr.
  unfold bind at 1. unfold pure at 1.
  unfold bind at 1. simpl ExternalCopy.CopyInto. unfold pure at 1.
  unfold bind at 1. unfold pure at 1.
  unfold bind at 1. unfold Delete at 1. rewrite Hobj. simpl trace. rewrite Hdel.
  simpl Unmaybe. unfold pure at 1.
  unfold bind at 1. unfold pure at 1.
  apply bind_throw. now apply TransferIn_capsule_elsewhere.
Qed.

Lemma set_deletes_before_a_failing_transfer_witness :
  SetRunner.Phase2 (H := Scene.E)
    {| SetRunner.key := Some (ExternalCopyPrimitive (VString "x"));
       SetRunner.val := Some (DereferenceHandleTransferable (Some 1) (Some (VObject 4)));
       SetRunner.context := Some 20; SetRunner.reference := Some (VObject 3);
       SetRunner.did_set := false |} Scene.owner
  = (Throw wrong_target, log (EvDelete (VObject 3) (VString "x") (Some true)) Scene.owner).
Proof.
  apply (set_deletes_before_a_failing_transfer (H := Scene.E)
           {| SetRunner.key := Some (ExternalCopyPrimitive (VString "x"));
              SetRunner.val := Some (DereferenceHandleTransferable (Some 1) (Some (VObject 4)));
              SetRunner.context := Some 20; SetRunner.reference := Some (VObject 3);
              SetRunner.did_set := false |}
           Scene.owner (VString "x") (Some 1) (Some (VObject 4)) 20 (VObject 3) true
           eq_refl eq_refl eq_refl eq_refl eq_refl eq_refl).
  discriminate.
Defined.

(** X21: [set] on a live reference to an object, from the call to its result,
    when the key is a primitive, the value transfers out in phase 1 and back in
    in phase 2, and [Delete] and [Set] answer.  The calls made on the object are
    the [Delete] of the key and then the [Set] of the key to the value
    transferred in, in the isolate and the context of the reference; the caller
    is back in its own isolate and context afterwards, and what it gets is the
    boolean the [Set] answered: returned by [setSync], through the promise by
    [set], and not at all by [setIgnored]. *)
Theorem set_on_an_object_deletes_then_sets `{Engine} (async : ThreePhaseTask.Mode) (w : World)
    (this : nat) (data : ReferenceData.t) (target : IsolateHolder) (c : Context)
    (object key_handle val_handle : Value) (maybe_options : MaybeLocal Value)
    (options : Options.t) (w0 : World) (val : Transferable) (w1 : World)
    (deleted : bool) (val_inner : Value) (w2 : World) (b : bool) :
  references w !! this = Some data ->
  ReferenceData.isolate data = Some target ->
  ReferenceData.context data = Some c ->
  ReferenceData.reference data = Some object ->
  IsObject object = true ->
  IsPrimitive key_handle = true ->
  Transferable.Options_of_maybe maybe_options Options.None_ w = (Ok options, w0) ->
  Transferable.TransferOut val_handle options w0 = (Ok val, w1) ->
  Object_Delete (trace w1) object key_handle = Some deleted ->
  Transferable.TransferIn val
    (log (EvDelete object key_handle (Some deleted)) (set_current target c w1))
  = (Ok val_inner, w2) ->
  Object_Set (trace w2) object key_handle val_inner = Some b ->
  exists w',
    ReferenceHandle_Set async this key_handle val_handle maybe_options w
    = (delivered async (Ok (VBoolean b)), w')
    /\ trace w'
       = trace w1 ++ [EvDelete object key_handle (Some deleted);
                      EvSet object key_handle val_inner (Some b)]
    /\ current w' = current w
    /\ current_context w' = current_context w.
Proof.
  intros Hthis Hiso Hctx Href Hobj Hkey Hopt Hout Hdel Hin Hset.
  destruct (SetRunner_New_ok w this data object key_handle val_handle maybe_options
              options w0 val w1 Hthis Href Hkey Hopt Hout) as (Hnew & Hcur & Hcc & _).
  pose proof (TransferIn_trace val
                (log (EvDelete object key_handle (Some deleted)) (set_current target c w1)))
    as Htr.
  rewrite Hin in Htr. simpl in Htr.
  eexists. split; [|split; [|split]].
  - rewrite Hctx in Hnew.
    set (self := {| SetRunner.key := Some (ExternalCopyPrimitive key_handle);
                    SetRunner.val := Some val; SetRunner.context := Some c;
                    SetRunner.reference := Some object; SetRunner.did_set := false |}) in Hnew.
    rewrite (Set_delivers async w this data target key_handle val_handle maybe_options
               self w1 _ _ Hthis Hiso Hnew
               (Set_Phase2_object self target w1 key_handle val c object deleted val_inner w2 b
                  eq_refl eq_refl eq_refl eq_refl Hobj Hdel Hin Hset)).
    reflexivity.
  - simpl. rewrite Htr. rewrite <- app_assoc. reflexivity.
  - exact Hcur.
  - exact Hcc.
Qed.

Lemma set_on_an_object_deletes_then_sets_witness :
  exists w',
    ReferenceHandle_Set (H := Scene.E) ThreePhaseTask.Sync 1 (VString "x") (VNumber 7) None
      Scene.caller
    = (Ok (ThreePhaseTask.Returned (VBoolean true)), w')
    /\ trace w'
       = trace Scene.caller ++ [EvDelete (VObject 3) (VString "x") (Some true);
                                EvSet (VObject 3) (VString "x") (VNumber 7) (Some true)]
    /\ current w' = 1
    /\ current_context w' = 10.
Proof.
  exact (set_on_an_object_deletes_then_sets (H := Scene.E) ThreePhaseTask.Sync Scene.caller 1
           (Scene.reference_to (VObject 3)) 2 20 (VObject 3) (VString "x") (VNumber 7) None
           Options.default Scene.caller (primitive (VNumber 7)) Scene.caller
           true (VNumber 7)
           (log (EvDelete (VObject 3) (VString "x") (Some true)) (set_current 2 20 Scene.caller))
           true
           eq_refl eq_refl eq_refl eq_refl eq_refl eq_refl eq_refl eq_refl eq_refl eq_refl
           eq_refl).
Defined.

(** X15: phase 2 of [get] makes one call on the referenced object, the [Get]
    of the key, and never writes to it.  A primitive property value comes back
    from phase 3 as it is, whatever the transfer options, unless they ask for a
    reference; when the [Get] throws, phase 2 throws the runtime error. *)
Theorem get_reads_the_property_once `{Engine} (self : GetRunner.t) (w : World) (key : Value)
    (c : Context) (object : Value) :
  GetRunner.key self = Some (ExternalCopyPrimitive key) ->
  GetRunner.context self = Some c ->
  GetRunner.reference self = Some object ->
  Options.type (GetRunner.options self) <> Options.Reference ->
  let answer := Object_Get (trace w) object key in
  let w1 := log (EvGet object key answer) w in
  (answer = None -> GetRunner.Phase2 self w = (Throw js_runtime_error, w1))
  /\ (forall v, answer = Some v -> IsPrimitive v = true ->
      exists self',
        GetRunner.Phase2 self w = (Ok self', w1)
        /\ GetRunner.Phase3 self' w1 = (Ok v, w1)).
Proof.
  intros Hkey Hctx Href Hty answer w1.
  assert (Hprefix : forall k : Value -> M GetRunner.t,
    (do key_ <- deref_ptr (GetRunner.key self);;
     do key_inner <- ExternalCopy.CopyInto key_;;
     do object0 <- ivm_Deref (GetRunner.reference self);;
     do value <- Get object0 key_inner;;
     k value) (set_current (current w) c w)
    = match answer with
      | Some v => k v (log (EvGet object key answer) (set_current (current w) c w))
      | None => (Throw js_runtime_error, log (EvGet object key answer) (set_current (current w) c w))
      end).
  { intros k. rewrite Hkey, Href. unfold ivm_Deref, deref_ptr.
    unfold bind at 1. unfold pure at 1.
    unfold bind at 1. simpl ExternalCopy.CopyInto. unfold pure at 1.
    unfold bind at 1. unfold pure at 1.
    unfold bind at 1. unfold Get. simpl trace. fold answer.
    now destruct answer. }
  split.
  - intros Hnone. unfold GetRunner.Phase2. rewrite Hctx. unfold ivm_Deref at 1, deref_ptr.
    unfold bind at 1. unfold pure at 1. cbv beta iota.
    apply (Context_Scope_log c _ w _ [EvGet object key answer]).
    rewrite Hprefix. now rewrite Hnone.
  - intros v Hsome Hprim.
    assert (Hout : forall w0, Transferable.TransferOut v (GetRunner.options self) w0
                              = (Ok (primitive v), w0)).
    { intros w0. unfold Transferable.TransferOut.
      destruct (Options.type (GetRunner.options self)); [| |congruence];
        destruct v; try discriminate; reflexivity. }
    eexists. split.
    + unfold GetRunner.Phase2. rewrite Hctx. unfold ivm_Deref at 1, deref_ptr.
      unfold bind at 1. unfold pure at 1. cbv beta iota.
      apply (Context_Scope_log c _ w _ [EvGet object key answer]).
      rewrite Hprefix. rewrite Hsome.
      rewrite (bind_ok _ _ _ _ _ (Hout _)). reflexivity.
    + reflexivity.
Qed.

Lemma get_reads_the_property_once_witness :
  exists self',
    GetRunner.Phase2 (H := Scene.E) get_release Scene.owner
    = (Ok self',
       log (EvGet (VObject 11) (VString "release") (Some (VBoolean true))) Scene.owner)
    /\ GetRunner.Phase3 (H := Scene.E) self'
         (log (EvGet (VObject 11) (VString "release") (Some (VBoolean true))) Scene.owner)
       = (Ok (VBoolean true),
          log (EvGet (VObject 11) (VString "release") (Some (VBoolean true))) Scene.owner).
Proof.
  apply (proj2 (get_reads_the_property_once (H := Scene.E) get_release Scene.owner
                  (VString "release") 20 (VObject 11) eq_refl eq_refl eq_refl
                  ltac:(discriminate)) (VBoolean true)); reflexivity.
Defined.

(** ** Settlements of the promise of [applySyncPromise] *)

(** X16: when the promise is rejected while the task is parked, the call
    never returns a value: the reaction stores an error in the task, the
    rejection value itself when it is a primitive and the wrapper error
    "An object was thrown ..." when the codec has no copy of it, and phase 3
    then schedules the stored error as the exception and throws the runtime
    error. *)
Theorem rejected_promise_fails_the_call `{Engine} (self : ApplyRunner.t) (flag wait : nat)
    (info : FunctionCallbackInfo) (w : World) (reason : Value) :
  ApplyRunner.did_finish self = Some flag ->
  ApplyRunner.async_wait self = Some wait ->
  info_did_finish info = flag ->
  info_rest info = [VNull; reason] ->
  flags w !! flag = Some false ->
  exists self' w1 error exception,
    ApplyRunner.AsyncCallback info (Some self) w = (Ok (Some self'), w1)
    /\ ApplyRunner.async_error self' = Some error
    /\ (IsPrimitive reason = true -> error = ExternalCopyPrimitive reason /\ exception = reason)
    /\ (IsPrimitive reason = false -> ExternalCopy_CopyIfError (trace w) reason = None ->
        error = not_an_error)
    /\ ApplyRunner.Phase3 self' w1
       = (Throw js_runtime_error, log (EvThrowException exception) w1).
Proof.
  intros Hflag Hwait Hinfo Hrest Hp.
  destruct (AsyncCallback_first info self flag wait w Hflag Hwait Hinfo Hp)
    as (self' & w0 & Hstore & Hframe & Hflag' & Hcall).
  destruct Hframe as (_ & _ & _ & Hflags & _).
  assert (Hp0 : flags w0 !! flag = Some false) by now rewrite Hflags.
  assert (Hset : flags (log (EvWake wait) (flag_stored flag w0)) !! flag = Some true).
  { simpl. apply list_lookup_insert_eq. eapply lookup_lt_Some; eassumption. }
  unfold store_outcome, info_Length, info_at in Hstore. rewrite Hrest in Hstore.
  simpl in Hstore.
  unfold bind, ExternalCopy.CopyIfPrimitiveOrError, ExternalCopy.CopyIfPrimitive in Hstore.
  set (error := default not_an_error
                  (if IsPrimitive reason then Some (ExternalCopyPrimitive reason)
                   else ExternalCopy_CopyIfError (trace w) reason)).
  assert (Hself : self' = ApplyRunner.set_async_error (Some error) self /\ w0 = w).
  { unfold error. destruct (IsPrimitive reason); simpl in Hstore;
      injection Hstore as <- <-; split; reflexivity. }
  destruct Hself as [-> ->].
  set (w1 := log (EvWake wait) (flag_stored flag w)) in *.
  exists (ApplyRunner.set_async_error (Some error) self), w1, error,
    (match error with
     | ExternalCopyPrimitive x => x
     | _ => ExternalCopy_CopyInto (trace w1) error
     end).
  split; [exact Hcall|]. split; [reflexivity|]. split; [|split].
  - intros Hprim. unfold error. rewrite Hprim. simpl. split; reflexivity.
  - intros Hprim Hnone. unfold error. rewrite Hprim, Hnone. reflexivity.
  - rewrite (Phase3_settled _ flag w1 Hflag' Hset).
    unfold deliver_stored. simpl ApplyRunner.async_error.
    unfold bind, ExternalCopy.CopyInto, ThrowException, modify, throw, pure.
    now destruct error.
Qed.

Lemma rejected_promise_fails_the_call_witness :
  exists self' w1 error exception,
    ApplyRunner.AsyncCallback (H := Scene.E)
      {| info_did_finish := 0; info_rest := [VNull; VString "no"] |}
      (Some (ApplyRunner.set_waiting 0 0 promise_task)) (set_flags [false] Scene.owner)
    = (Ok (Some self'), w1)
    /\ ApplyRunner.async_error self' = Some error
    /\ (IsPrimitive (VString "no") = true ->
        error = ExternalCopyPrimitive (VString "no") /\ exception = VString "no")
    /\ (IsPrimitive (VString "no") = false ->
        ExternalCopy_CopyIfError (Engine := Scene.E) (trace (set_flags [false] Scene.owner))
          (VString "no") = None ->
        error = not_an_error)
    /\ ApplyRunner.Phase3 (H := Scene.E) self' w1
       = (Throw js_runtime_error, log (EvThrowException exception) w1).
Proof.
  exact (rejected_promise_fails_the_call (H := Scene.E)
           (ApplyRunner.set_waiting 0 0 promise_task) 0 0
           {| info_did_finish := 0; info_rest := [VNull; VString "no"] |}
           (set_flags [false] Scene.owner) (VString "no")
           eq_refl eq_refl eq_refl eq_refl eq_refl).
Defined.

(** X17: where the promise-awaiting phase 2 is the regular phase 2.  Take a
    task as phase 1 leaves it, with a function behind the reference, with the
    default [return] options (the promise-awaiting phase 2 throws on any
    others) and with a receiver and arguments that are copies of primitives or
    capsules of [derefInto()] owned by the isolate phase 2 runs in (the two
    materialize receiver and arguments in opposite orders, which such capsules
    do not show).  As long as the function returns no promise the two agree:
    when the function throws, both throw the same error after the one call;
    when it returns a primitive, both leave the same task and the same world,
    the promise-awaiting one reports that it does not wait, no flag is made,
    and phase 3 hands the value back instead of timing out. *)
Theorem promise_phase2_without_promise `{Engine} (self : ApplyRunner.t) (w : World) (c : Context)
    (fn : Value) (recv_ : Transferable) (recv_inner : Value) (args : list Value) (wait : nat) :
  ApplyRunner.context self = Some c ->
  ApplyRunner.reference self = Some fn ->
  IsFunction fn = true ->
  ApplyRunner.recv self = Some recv_ ->
  materialized (current w) recv_ = Some recv_inner ->
  Forall2 (fun t v => materialized (current w) t = Some v) (ApplyRunner.argv self) args ->
  ApplyRunner.did_finish self = None ->
  ApplyRunner.async_error self = None ->
  ApplyRunner.return_transfer_options self = Options.default ->
  let call := RunWithTimeout_Call (trace w) (ApplyRunner.timeout self) fn recv_inner args in
  let w1 := log (EvCall (ApplyRunner.timeout self) fn recv_inner args call) w in
  (forall e, call = Throw e ->
     ApplyRunner.Phase2Async wait self w = (Throw e, w1)
     /\ ApplyRunner.Phase2 self w = (Throw e, w1))
  /\ (forall v, call = Ok v -> IsPrimitive v = true ->
      exists self',
        ApplyRunner.Phase2Async wait self w = (Ok (false, self'), w1)
        /\ ApplyRunner.Phase2 self w = (Ok self', w1)
        /\ ApplyRunner.did_finish self' = None
        /\ flags w1 = flags w
        /\ ApplyRunner.Phase3 self' w1 = (Ok v, w1)).
Proof.
  intros Hctx Href Hfn Hrecv Hrecv_in Hargs Hflag Herr Hret call w1.
  assert (Hty : Options.type (ApplyRunner.return_transfer_options self) <> Options.Reference)
    by (rewrite Hret; discriminate).
  destruct (Phase2_calls_once self w c fn recv_ recv_inner args
              Hctx Href Hfn Hrecv Hrecv_in Hargs Hflag Herr Hty) as [Hthrow Hok].
  set (inside := set_current (current w) c w).
  assert (Hbody : forall k : Value -> M (bool * ApplyRunner.t),
    (do fn0 <- ivm_Deref (ApplyRunner.reference self);;
     if negb (IsFunction fn0) then throw (js_type_error "Reference is not a function")
     else
       do recv0 <- deref_ptr (ApplyRunner.recv self);;
       do recv_inner0 <- Transferable.TransferIn recv0;;
       do argv_inner <- ApplyRunner.TransferArguments self;;
       do value <- RunWithTimeout (ApplyRunner.timeout self) fn0 recv_inner0 argv_inner;;
       k value) inside
    = match call with
      | Ok v => k v (log (EvCall (ApplyRunner.timeout self) fn recv_inner args call) inside)
      | Throw e => (Throw e, log (EvCall (ApplyRunner.timeout self) fn recv_inner args call) inside)
      end).
  { intros k. rewrite Href, Hrecv. unfold ivm_Deref, deref_ptr.
    unfold bind at 1. unfold pure at 1. rewrite Hfn. change (negb true) with false. cbv iota.
    unfold bind at 1. unfold pure at 1.
    rewrite (bind_ok _ _ _ _ _ (TransferIn_materialized inside recv_ recv_inner Hrecv_in)).
    unfold ApplyRunner.TransferArguments.
    rewrite (bind_ok _ _ _ _ _ (TransferArguments_materialized inside _ args Hargs)).
    unfold bind at 1. unfold RunWithTimeout. simpl trace. fold call.
    now destruct call. }
  assert (Henter : forall r,
    (do context_handle <- ivm_Deref (ApplyRunner.context self);;
     Context_Scope context_handle
       (do fn0 <- ivm_Deref (ApplyRunner.reference self);;
        if negb (IsFunction fn0) then throw (js_type_error "Reference is not a function")
        else
          do recv0 <- deref_ptr (ApplyRunner.recv self);;
          do recv_inner0 <- Transferable.TransferIn recv0;;
          do argv_inner <- ApplyRunner.TransferArguments self;;
          do value <- RunWithTimeout (ApplyRunner.timeout self) fn0 recv_inner0 argv_inner;;
          if IsPromise value then
            do flag <- make_shared_bool false;;
            run ApplyRunner.call_async_wrapper value flag;;
            pure (true, ApplyRunner.set_waiting flag wait self)
          else
            do r0 <- Transferable.TransferOut value (ApplyRunner.return_transfer_options self);;
            pure (false, ApplyRunner.set_ret (Some r0) self))) w = r ->
    ApplyRunner.Phase2Async wait self w = r).
  { intros r <-. unfold ApplyRunner.Phase2Async. rewrite Hret.
    unfold Options.eqb. now rewrite bool_decide_eq_true_2 by reflexivity. }
  split.
  - intros e He. split; [|now apply Hthrow].
    apply Henter. rewrite Hctx. unfold ivm_Deref at 1, deref_ptr.
    unfold bind at 1. unfold pure at 1. cbv beta iota.
    apply (Context_Scope_log c _ w _ [EvCall (ApplyRunner.timeout self) fn recv_inner args call]).
    rewrite Hbody. now rewrite He.
  - intros v Hv Hprim.
    destruct (Hok v Hv Hprim) as (self' & Hphase2 & Hphase3).
    assert (Hself : self' = ApplyRunner.set_ret (Some (primitive v)) self).
    { generalize Hphase3. clear Hphase3. intros Hphase3.
      unfold ApplyRunner.Phase2 in Hphase2. rewrite Hctx in Hphase2.
      unfold ivm_Deref at 1, deref_ptr in Hphase2.
      unfold bind at 1 in Hphase2. unfold pure at 1 in Hphase2. cbv beta iota in Hphase2.
      apply Context_Scope_inv in Hphase2 as (w2 & Hin & _).
      rewrite Href, Hrecv in Hin. unfold ivm_Deref, deref_ptr in Hin.
      unfold bind at 1 in Hin. unfold pure at 1 in Hin. rewrite Hfn in Hin.
      change (negb true) with false in Hin. cbv iota in Hin.
      unfold ApplyRunner.TransferArguments in Hin.
      rewrite (bind_ok _ _ _ _ _ (TransferArguments_materialized inside _ args Hargs)) in Hin.
      unfold bind at 1 in Hin. unfold pure at 1 in Hin.
      rewrite (bind_ok _ _ _ _ _ (TransferIn_materialized inside recv_ recv_inner Hrecv_in)) in Hin.
      unfold bind at 1 in Hin. unfold RunWithTimeout in Hin. simpl trace in Hin.
      fold call in Hin. rewrite Hv, Hret in Hin.
      rewrite (bind_ok _ _ _ _ _ (TransferOut_primitive v _ Hprim)) in Hin.
      now injection Hin as <- _. }
    exists self'. split; [|split; [exact Hphase2|split; [|split; [reflexivity|exact Hphase3]]]].
    + apply Henter. rewrite Hctx. unfold ivm_Deref at 1, deref_ptr.
      unfold bind at 1. unfold pure at 1. cbv beta iota.
      apply (Context_Scope_log c _ w _ [EvCall (ApplyRunner.timeout self) fn recv_inner args call]).
      rewrite Hbody. rewrite Hv.
      assert (Hnp : IsPromise v = false) by (destruct v; try discriminate; reflexivity).
      rewrite Hnp, Hret.
      rewrite (bind_ok _ _ _ _ _ (TransferOut_primitive v _ Hprim)).
      now rewrite Hself.
    + rewrite Hself. exact Hflag.
Qed.

Lemma promise_phase2_without_promise_witness :
  exists self',
    ApplyRunner.Phase2Async (H := Scene.E) 0
      (task_on (VFunction 0) (primitive VUndefined) []) Scene.owner
    = (Ok (false, self'),
       log (EvCall 0 (VFunction 0) VUndefined [] (Ok (VNumber 42))) Scene.owner)
    /\ ApplyRunner.Phase2 (H := Scene.E)
         (task_on (VFunction 0) (primitive VUndefined) []) Scene.owner
       = (Ok self', log (EvCall 0 (VFunction 0) VUndefined [] (Ok (VNumber 42))) Scene.owner)
    /\ ApplyRunner.did_finish self' = None
    /\ flags (log (EvCall 0 (VFunction 0) VUndefined [] (Ok (VNumber 42))) Scene.owner)
       = flags Scene.owner
    /\ ApplyRunner.Phase3 (H := Scene.E) self'
         (log (EvCall 0 (VFunction 0) VUndefined [] (Ok (VNumber 42))) Scene.owner)
       = (Ok (VNumber 42),
          log (EvCall 0 (VFunction 0) VUndefined [] (Ok (VNumber 42))) Scene.owner).
Proof.
  apply (proj2 (promise_phase2_without_promise (H := Scene.E)
                  (task_on (VFunction 0) (primitive VUndefined) []) Scene.owner 20 (VFunction 0)
                  (primitive VUndefined) VUndefined [] 0
                  eq_refl eq_refl eq_refl eq_refl eq_refl
                  ltac:(constructor) eq_refl eq_refl eq_refl) (VNumber 42));
    reflexivity.
Defined.

(** ** The life of a shareable persistent *)

(** X18: a shareable persistent made in a live isolate belongs to that
    isolate and derefs to the value it was made for.  Destroying it frees
    nothing at once: the slot still holds the value until the isolate runs its
    queue.  Running the queue then calls the disposer, resets and frees the
    slot, and leaves the queue empty and every other slot as it was. *)
Theorem persistent_lives_until_its_isolate_disposes (D : bool) (w : SP.World) (i : nat)
    (iso : SP.ShareableIsolate) (value : Value) :
  SP.isolates w !! i = Some iso ->
  SP.alive iso = true ->
  SP.handle_tasks iso = [] ->
  let h := length (SP.slots w) in
  exists self w1 w2 w3,
    ShareablePersistent_ctor i value w = (Ok self, w1)
    /\ ShareablePersistent_GetIsolate self w1 = (Ok i, w1)
    /\ ShareablePersistent_Deref self w1 = (Ok (Some value), w1)
    /\ SP.destructor D self w1 = (Ok tt, w2)
    /\ SP.trace w2 = SP.trace w
    /\ ShareablePersistent_Deref self w2 = (Ok (Some value), w2)
    /\ SP.drain D i w2 = (Ok tt, w3)
    /\ SP.trace w3
       = SP.trace w ++ (if D then [SP.EvDisposer h (Some i)] else [])
         ++ [SP.EvReset h; SP.EvDelete h]
    /\ SP.slots w3 = SP.slots w ++ [SP.Freed]
    /\ SP.isolates w3 !! i = Some {| SP.alive := true; SP.handle_tasks := [] |}
    /\ SP.delete h w3 = (Throw null_dereference, w3).
Proof.
  intros Hiso Halive Hqueue h.
  assert (Hleni : i < length (SP.isolates w)) by (eapply lookup_lt_Some; eassumption).
  set (self := {| SP.isolate := Some i; SP.handle := Some h |}).
  set (w1 := {| SP.isolates := SP.isolates w; SP.slots := SP.slots w ++ [SP.Holding value];
                SP.trace := SP.trace w |}).
  assert (Hslot : SP.slots w1 !! h = Some (SP.Holding value)) by apply lookup_snoc.
  pose proof (destructor_alive D self w1 h i iso eq_refl eq_refl Hiso Halive) as Hdes.
  rewrite Hqueue in Hdes. simpl app in Hdes.
  set (task := {| SP.task_handle := h; SP.task_isolate := i |}) in *.
  set (w2 := {| SP.isolates := <[i := {| SP.alive := true; SP.handle_tasks := [task] |}]>
                                 (SP.isolates w1);
                SP.slots := SP.slots w1; SP.trace := SP.trace w1 |}) in *.
  assert (Hderef : forall w0 : SP.World,
            SP.slots w0 !! h = Some (SP.Holding value) ->
            ShareablePersistent_Deref self w0 = (Ok (Some value), w0)).
  { intros w0 Hs. unfold ShareablePersistent_Deref. simpl.
    unfold bind at 1. unfold pure at 1.
    unfold bind at 1. unfold pure at 1.
    now rewrite (bind_ok _ _ _ _ _ (live_slot_ok w0 h _ Hs ltac:(discriminate))). }
  set (w2' := {| SP.isolates := <[i := {| SP.alive := true; SP.handle_tasks := [] |}]>
                                  (SP.isolates w2);
                 SP.slots := SP.slots w2; SP.trace := SP.trace w2 |}).
  pose proof (run_task_ok D w2' h i (SP.Holding value) Hslot ltac:(discriminate)) as Hrun.
  fold task in Hrun.
  eexists self, w1, w2, _.
  split; [reflexivity|]. split; [reflexivity|].
  split; [now apply Hderef|]. split; [exact Hdes|]. split; [reflexivity|].
  split; [now apply Hderef|]. split.
  { unfold SP.drain. simpl SP.isolates at 1.
    rewrite list_lookup_insert_eq by exact Hleni.
    unfold SP.set_isolate, modify. unfold bind at 1. simpl SP.alive. simpl SP.handle_tasks.
    simpl SP.run_tasks. fold w2'.
    rewrite (bind_ok _ _ _ _ _ Hrun). reflexivity. }
  split; [reflexivity|]. split.
  { simpl. unfold h. rewrite <- (Nat.add_0_r (length (SP.slots w))).
    now rewrite insert_app_r. }
  split.
  { simpl. rewrite list_insert_insert_eq. now apply list_lookup_insert_eq. }
  apply delete_freed. simpl. apply list_lookup_insert_eq.
  rewrite length_app. simpl. unfold h. lia.
Qed.

Lemma persistent_lives_until_its_isolate_disposes_witness :
  exists self w1 w2 w3,
    ShareablePersistent_ctor 0 (VObject 7) (isolate_world true) = (Ok self, w1)
    /\ ShareablePersistent_GetIsolate self w1 = (Ok 0, w1)
    /\ ShareablePersistent_Deref self w1 = (Ok (Some (VObject 7)), w1)
    /\ SP.destructor true self w1 = (Ok tt, w2)
    /\ SP.trace w2 = SP.trace (isolate_world true)
    /\ ShareablePersistent_Deref self w2 = (Ok (Some (VObject 7)), w2)
    /\ SP.drain true 0 w2 = (Ok tt, w3)
    /\ SP.trace w3 = [SP.EvDisposer 1 (Some 0); SP.EvReset 1; SP.EvDelete 1]
    /\ SP.slots w3 = [SP.Holding (VObject 3); SP.Freed]
    /\ SP.isolates w3 !! 0 = Some {| SP.alive := true; SP.handle_tasks := [] |}
    /\ SP.delete 1 w3 = (Throw null_dereference, w3).
Proof.
  exact (persistent_lives_until_its_isolate_disposes true (isolate_world true) 0
           {| SP.alive := true; SP.handle_tasks := [] |} (VObject 7)
           eq_refl eq_refl eq_refl).
Defined.

(** ** What [get] and a resolved promise hand back *)

(** X19: without transfer options, [get] hands back an object-valued property
    by reference: phase 2 wraps the property value in reference data owned by
    the isolate it runs in, pinned to the context of the parent reference and
    tagged with the value's type, and phase 3 makes a new [Reference] instance
    with exactly these fields in the caller's world. *)
Theorem get_wraps_an_object_in_a_reference `{Engine} (self : GetRunner.t) (w : World)
    (key : Value) (c : Context) (object value : Value) :
  GetRunner.key self = Some (ExternalCopyPrimitive key) ->
  GetRunner.context self = Some c ->
  GetRunner.reference self = Some object ->
  GetRunner.options self
  = {| Options.type := Options.None_; Options.fallback := Options.Reference |} ->
  Object_Get (trace w) object key = Some value ->
  heap_object value = true ->
  let data := {| ReferenceData.isolate := Some (current w);
                 ReferenceData.reference := Some value;
                 ReferenceData.context := Some c;
                 ReferenceData.type_of := InferTypeOf value |} in
  exists self',
    GetRunner.Phase2 self w = (Ok self', log (EvGet object key (Some value)) w)
    /\ GetRunner.ret self' = Some (ReferenceHandleTransferable data)
    /\ forall caller : World,
         GetRunner.Phase3 self' caller
         = (Ok (VReference (length (references caller))),
            set_references (references caller ++ [data]) caller).
Proof.
  intros Hkey Hctx Href Hopt Hget Hobj data.
  eexists. split; [|split].
  - unfold GetRunner.Phase2. rewrite Hctx. unfold ivm_Deref at 1, deref_ptr.
    unfold bind at 1. unfold pure at 1. cbv beta iota.
    apply (Context_Scope_log c _ w _ [EvGet object key (Some value)]).
    rewrite Hkey, Href. unfold ivm_Deref, deref_ptr.
    unfold bind at 1. unfold pure at 1.
    unfold bind at 1. simpl ExternalCopy.CopyInto. unfold pure at 1.
    unfold bind at 1. unfold pure at 1.
    unfold bind at 1. unfold Get. simpl trace. rewrite Hget. simpl Unmaybe. unfold pure at 1.
    rewrite Hopt.
    destruct value; try discriminate; reflexivity.
  - reflexivity.
  - intros caller. reflexivity.
Qed.

Lemma get_wraps_an_object_in_a_reference_witness :
  exists self',
    GetRunner.Phase2 (H := Scene.E) get_return Scene.owner
    = (Ok self', log (EvGet (VObject 8) (VString "return") (Some (VObject 9))) Scene.owner)
    /\ GetRunner.ret self'
       = Some (ReferenceHandleTransferable
                 {| ReferenceData.isolate := Some 2; ReferenceData.reference := Some (VObject 9);
                    ReferenceData.context := Some 20;
                    ReferenceData.type_of := TypeOf.Object |})
    /\ forall caller : World,
         GetRunner.Phase3 (H := Scene.E) self' caller
         = (Ok (VReference (length (references caller))),
            set_references
              (references caller
               ++ [{| ReferenceData.isolate := Some 2;
                      ReferenceData.reference := Some (VObject 9);
                      ReferenceData.context := Some 20;
                      ReferenceData.type_of := TypeOf.Object |}]) caller).
Proof.
  exact (get_wraps_an_object_in_a_reference (H := Scene.E) get_return Scene.owner
           (VString "return") 20 (VObject 8) (VObject 9)
           eq_refl eq_refl eq_refl eq_refl eq_refl eq_refl).
Defined.

(** X20: when the promise is resolved with a primitive while the task is
    parked, the reaction stores the value, sets the flag and wakes the waiter,
    and phase 3 returns that value. *)
Theorem resolved_promise_returns_its_value `{Engine} (self : ApplyRunner.t) (flag wait : nat)
    (info : FunctionCallbackInfo) (w : World) (val : Value) :
  ApplyRunner.did_finish self = Some flag ->
  ApplyRunner.async_wait self = Some wait ->
  ApplyRunner.async_error self = None ->
  info_did_finish info = flag ->
  info_rest info = [val] ->
  IsPrimitive val = true ->
  flags w !! flag = Some false ->
  exists self',
    ApplyRunner.AsyncCallback info (Some self) w
    = (Ok (Some self'), log (EvWake wait) (flag_stored flag w))
    /\ ApplyRunner.Phase3 self' (log (EvWake wait) (flag_stored flag w))
       = (Ok val, log (EvWake wait) (flag_stored flag w)).
Proof.
  intros Hflag Hwait Herr Hinfo Hrest Hprim Hp.
  destruct (AsyncCallback_first info self flag wait w Hflag Hwait Hinfo Hp)
    as (self' & w0 & Hstore & _ & Hflag' & Hcall).
  unfold store_outcome, info_Length, info_at in Hstore. rewrite Hrest in Hstore.
  simpl in Hstore. unfold RunCatchExternal in Hstore.
  rewrite (bind_ok _ _ _ _ _ (TransferOut_primitive val w Hprim)) in Hstore.
  injection Hstore as <- <-.
  exists (ApplyRunner.set_ret (Some (primitive val)) self).
  split; [exact Hcall|].
  assert (Hset : flags (log (EvWake wait) (flag_stored flag w)) !! flag = Some true).
  { simpl. apply list_lookup_insert_eq. eapply lookup_lt_Some; eassumption. }
  rewrite (Phase3_settled _ flag _ Hflag' Hset).
  unfold deliver_stored. simpl. now rewrite Herr.
Qed.

Lemma resolved_promise_returns_its_value_witness :
  exists self',
    ApplyRunner.AsyncCallback (H := Scene.E) resolved_with_7
      (Some (ApplyRunner.set_waiting 0 0 promise_task)) (set_flags [false] Scene.owner)
    = (Ok (Some self'), log (EvWake 0) (flag_stored 0 (set_flags [false] Scene.owner)))
    /\ ApplyRunner.Phase3 (H := Scene.E) self'
         (log (EvWake 0) (flag_stored 0 (set_flags [false] Scene.owner)))
       = (Ok (VNumber 7), log (EvWake 0) (flag_stored 0 (set_flags [false] Scene.owner))).
Proof.
  exact (resolved_promise_returns_its_value (H := Scene.E)
           (ApplyRunner.set_waiting 0 0 promise_task) 0 0 resolved_with_7
           (set_flags [false] Scene.owner) (VNumber 7)
           eq_refl eq_refl eq_refl eq_refl eq_refl eq_refl eq_refl).
Defined.
